(** * RelatorioRotinaTool: routine lookup, classification and table search

    A shallow embedding of the scanning core of [RelatorioRotinaTool]
    (the second unit of [src/tools/CodeReviewTool.ts]): name
    normalisation, standard/custom classification with its
    process-lifetime cache, the prefix-discovery pass, the recursive file
    walk, the routine finder, the table-usage analysis and the
    orchestrating [execute].

    Modelling conventions.
    - JavaScript strings are [string]; the text handled by the tool is
      ASCII (routine names, AdvPL sources), so [toUpperCase] maps [a-z] to
      [A-Z] and leaves every other code unit alone, and [\s] is the ASCII
      white space.
    - The file system is an oracle [FileSystem]: [readdir], [readFile] and
      [access] may each fail, which is how the [try]/[catch] blocks of the
      source see it.
    - The two private fields of the class ([standardPrefixCache], a
      [Map<string, boolean>], and [discoveredPrefixes], a [Set<string>]) are
      the [State] threaded through every method; a ghost [trace] records
      file reads and discovery passes so that statements can count them.
    - [path.join dir name] is [dir +:+ "/" +:+ name] (POSIX, without the
      normalisation of dot segments).
    - A table name is spliced into the search patterns as literal text, as
      it is for the aliases the tool is made for (PD3, SA1, SC5).
    - [maxResults] is an integer; the source compares it with the length
      of the result array. *)

From Stdlib Require Import ZArith List String Ascii Bool Lia.
From stdpp Require Import base gmap sets list strings pretty sorting.

Import ListNotations.
Local Open Scope string_scope.
Local Open Scope list_scope.

(** ** Strings as the JavaScript methods see them *)

Module Str.

Definition codeOf (c : ascii) : nat := nat_of_ascii c.

Definition inRange (lo hi : ascii) (c : ascii) : bool :=
  Nat.leb (codeOf lo) (codeOf c) && Nat.leb (codeOf c) (codeOf hi).

Definition isLower (c : ascii) : bool := inRange "a" "z" c.
Definition isUpper (c : ascii) : bool := inRange "A" "Z" c.
Definition isDigit (c : ascii) : bool := inRange "0" "9" c.

(** [\w] *)
Definition isWord (c : ascii) : bool :=
  isLower c || isUpper c || isDigit c || Ascii.eqb c "_".

(** [\s] and the characters removed by [trim] *)
Definition isSpace (c : ascii) : bool :=
  let n := codeOf c in
  Nat.eqb n 32 || (Nat.leb 9 n && Nat.leb n 13).

Definition upperChar (c : ascii) : ascii :=
  if isLower c then ascii_of_nat (codeOf c - 32) else c.

Definition lowerChar (c : ascii) : ascii :=
  if isUpper c then ascii_of_nat (codeOf c + 32) else c.

Fixpoint mapChars (f : ascii -> ascii) (s : string) : string :=
  match s with
  | EmptyString => EmptyString
  | String c r => String (f c) (mapChars f r)
  end.

Definition toUpperCase : string -> string := mapChars upperChar.
Definition toLowerCase : string -> string := mapChars lowerChar.

Fixpoint startsWith (s p : string) : bool :=
  match p, s with
  | EmptyString, _ => true
  | String a p', String b s' => Ascii.eqb a b && startsWith s' p'
  | String _ _, EmptyString => false
  end.

Fixpoint dropChars (n : nat) (s : string) : string :=
  match n, s with
  | O, _ => s
  | S n', String _ r => dropChars n' r
  | S _, EmptyString => EmptyString
  end.

Fixpoint takeChars (n : nat) (s : string) : string :=
  match n, s with
  | O, _ => EmptyString
  | S n', String c r => String c (takeChars n' r)
  | S _, EmptyString => EmptyString
  end.

Definition endsWith (s p : string) : bool :=
  Nat.leb (String.length p) (String.length s)
  && String.eqb (dropChars (String.length s - String.length p) s) p.

(** [s.substring(n)] *)
Definition substringFrom (n : nat) (s : string) : string := dropChars n s.

(** [s.includes(p)] *)
Fixpoint includes (s p : string) : bool :=
  startsWith s p
  || match s with
     | EmptyString => false
     | String _ r => includes r p
     end.

Fixpoint trimStart (s : string) : string :=
  match s with
  | String c r => if isSpace c then trimStart r else s
  | EmptyString => EmptyString
  end.

(** Drops the trailing white space: a character is kept when it is not a
    space or when something is kept after it. *)
Fixpoint trimEnd (s : string) : string :=
  match s with
  | EmptyString => EmptyString
  | String c r =>
      match trimEnd r with
      | EmptyString => if isSpace c then EmptyString else String c EmptyString
      | kept => String c kept
      end
  end.

Definition trim (s : string) : string := trimEnd (trimStart s).

(** [s.split('\n')]: always at least one piece. *)
Fixpoint splitLines (s : string) : list string :=
  match s with
  | EmptyString => [EmptyString]
  | String c r =>
      if Ascii.eqb c "010"
      then EmptyString :: splitLines r
      else match splitLines r with
           | l :: ls => String c l :: ls
           | [] => [String c EmptyString]
           end
  end.

(** [pieces.join(sep)] *)
Fixpoint join (sep : string) (pieces : list string) : string :=
  match pieces with
  | [] => EmptyString
  | [p] => p
  | p :: ps => p +:+ sep +:+ join sep ps
  end.

(** [[...new Set(xs)]]: the first occurrence of every element, in order. *)
Fixpoint uniqueInto (seen : list string) (xs : list string) : list string :=
  match xs with
  | [] => seen
  | x :: r =>
      if bool_decide (x ∈ seen) then uniqueInto seen r
      else uniqueInto (seen ++ [x]) r
  end.

Definition unique (xs : list string) : list string := uniqueInto [] xs.

End Str.

(** ** NameResolver *)

Record NormalizedRoutine := {
  original : string;
  baseName : string;
  baseNameUpper : string;
  withPrefix : string;
  withoutPrefix : string;
  variations : list string
}.

(** What a method that can [throw] gives back. *)
Inductive Thrown (A : Type) :=
| Returns (a : A)
| Throws (message : string).
Arguments Returns {A} a.
Arguments Throws {A} message.

(** [original.replace(/\.(prw|tlpp|prx)$/i, '')] *)
Definition stripExtension (s : string) : string :=
  let u := Str.toUpperCase s in
  if Str.endsWith u ".PRW" || Str.endsWith u ".PRX"
  then Str.takeChars (String.length s - 4) s
  else if Str.endsWith u ".TLPP"
  then Str.takeChars (String.length s - 5) s
  else s.

Definition extensions : list string :=
  [".prw"; ".PRW"; ".tlpp"; ".TLPP"; ".prx"; ".PRX"].

Definition normalizeRoutineName (routine : string) : Thrown NormalizedRoutine :=
  if String.eqb routine EmptyString
  then Throws ("Nome da rotina invalido: " +:+ routine
               +:+ ". Forneca um nome de rotina valido.")
  else
    let original := Str.trim routine in
    if String.eqb original EmptyString
    then Throws "Nome da rotina nao pode ser vazio."
    else
      let baseName := stripExtension original in
      let baseNameUpper := Str.toUpperCase baseName in
      let hasPrefix := Str.startsWith baseNameUpper "U_" in
      let withoutPrefix :=
        if hasPrefix then Str.substringFrom 2 baseNameUpper else baseNameUpper in
      let withPrefix :=
        if hasPrefix then baseNameUpper else "U_" +:+ baseNameUpper in
      let bases := [baseName; baseNameUpper; withPrefix; withoutPrefix] in
      let variations :=
        bases ++ flat_map (fun ext => map (fun b => b +:+ ext) bases) extensions in
      Returns {| original := original;
                 baseName := baseName;
                 baseNameUpper := baseNameUpper;
                 withPrefix := withPrefix;
                 withoutPrefix := withoutPrefix;
                 variations := Str.unique variations |}.

(** ** Regular expressions

    The patterns of the source are sequences of single-character matchers
    under a greedy quantifier, and [\b]; none has an alternation or a
    nested group. [exec] is the backtracking matcher of such a sequence at
    one position; it gives the text taken by every element and what is
    left of the input. *)

Module Re.

Inductive Item :=
| Chars (p : ascii -> bool) (min : nat) (max : option nat)
| WordBoundary.

Definition one (p : ascii -> bool) : Item := Chars p 1 (Some 1).
Definition opt (p : ascii -> bool) : Item := Chars p 0 (Some 1).
Definition star (p : ascii -> bool) : Item := Chars p 0 None.
Definition plus (p : ascii -> bool) : Item := Chars p 1 None.
Definition times (n : nat) (p : ascii -> bool) : Item := Chars p n (Some n).
Definition between (n m : nat) (p : ascii -> bool) : Item := Chars p n (Some m).

(** Character matchers. The [I] variants are the ones of a pattern with the
    [i] flag: both sides are compared after canonicalisation. *)
Definition lit (c : ascii) : ascii -> bool := Ascii.eqb c.
Definition litI (c : ascii) : ascii -> bool :=
  fun x => Ascii.eqb (Str.upperChar c) (Str.upperChar x).
Definition upperAZ : ascii -> bool := Str.isUpper.
Definition upperAZI : ascii -> bool := fun x => Str.isUpper (Str.upperChar x).
Definition digit : ascii -> bool := Str.isDigit.
Definition word : ascii -> bool := Str.isWord.
Definition space : ascii -> bool := Str.isSpace.
Definition anyChar : ascii -> bool := fun _ => true.
(** The class of the two quote characters. *)
Definition quoteChar : ascii -> bool :=
  fun x => Ascii.eqb x "034" || Ascii.eqb x "'".

Fixpoint text (s : string) : list Item :=
  match s with
  | EmptyString => []
  | String c r => one (lit c) :: text r
  end.

Fixpoint textI (s : string) : list Item :=
  match s with
  | EmptyString => []
  | String c r => one (litI c) :: textI r
  end.

Definition isWordAt (c : option ascii) : bool :=
  match c with Some x => Str.isWord x | None => false end.

Definition headChar (s : string) : option ascii :=
  match s with String c _ => Some c | EmptyString => None end.

Definition atBoundary (prev : option ascii) (s : string) : bool :=
  xorb (isWordAt prev) (isWordAt (headChar s)).

Definition belowMax (k : nat) (max : option nat) : bool :=
  match max with Some m => Nat.ltb k m | None => true end.

(** [exec items prev s]: match [items] at the start of [s], [prev] being the
    character before it. A repetition first tries one more character and
    falls back to stopping, which is the greedy order. *)
Fixpoint exec (items : list Item)
  : option ascii -> string -> option (list string * string) :=
  match items with
  | [] => fun _ s => Some ([], s)
  | WordBoundary :: rest =>
      fun prev s =>
        if atBoundary prev s
        then match exec rest prev s with
             | Some (texts, remaining) => Some (EmptyString :: texts, remaining)
             | None => None
             end
        else None
  | Chars p min max :: rest =>
      fun prev s =>
        (fix rep (k : nat) (taken : string) (prev : option ascii) (s : string)
             {struct s} : option (list string * string) :=
           let stop :=
             if Nat.leb min k
             then match exec rest prev s with
                  | Some (texts, remaining) => Some (taken :: texts, remaining)
                  | None => None
                  end
             else None in
           match s with
           | String c s' =>
               if belowMax k max && p c
               then match rep (S k) (taken +:+ String c EmptyString) (Some c) s' with
                    | Some r => Some r
                    | None => stop
                    end
               else stop
           | EmptyString => stop
           end) 0 EmptyString prev s
  end.

(** The leftmost match at or after the start of [s]. *)
Fixpoint search (items : list Item) (prev : option ascii) (s : string)
  : option (list string * string) :=
  match exec items prev s with
  | Some r => Some r
  | None =>
      match s with
      | String c s' => search items (Some c) s'
      | EmptyString => None
      end
  end.

(** [re.test(s)] *)
Definition test (items : list Item) (s : string) : bool :=
  match search items None s with Some _ => true | None => false end.

(** [re.test(s)] for a pattern that starts with [^]. *)
Definition testAtStart (items : list Item) (s : string) : bool :=
  match exec items None s with Some _ => true | None => false end.

(** [s.match(re)] for a pattern that starts with [^]: the texts taken. *)
Definition matchAtStart (items : list Item) (s : string) : option (list string) :=
  match exec items None s with Some (texts, _) => Some texts | None => None end.

(** The successive matches of a pattern with the [g] flag. [skip] counts the
    characters of the previous match still to be passed; after an empty
    match the scan moves on by one character. *)
Fixpoint allMatches (items : list Item) (skip : nat) (prev : option ascii)
    (s : string) {struct s} : list (list string) :=
  match skip with
  | S k =>
      match s with
      | String c s' => allMatches items k (Some c) s'
      | EmptyString => []
      end
  | O =>
      match exec items prev s with
      | Some (texts, remaining) =>
          texts ::
          match s with
          | String c s' =>
              allMatches items (String.length s - String.length remaining - 1)
                         (Some c) s'
          | EmptyString => []
          end
      | None =>
          match s with
          | String c s' => allMatches items 0 (Some c) s'
          | EmptyString => []
          end
      end
  end.

(** [s.match(re)] / [s.matchAll(re)] with the [g] flag. *)
Definition matchAll (items : list Item) (s : string) : list (list string) :=
  allMatches items 0 None s.

End Re.

(** ** Paths *)

Module Path.

Definition sep : string := "/".

Definition join (dir name : string) : string := dir +:+ sep +:+ name.

(** The pieces of a path between separators. *)
Fixpoint segments (s : string) : list string :=
  match s with
  | EmptyString => [EmptyString]
  | String c r =>
      if Ascii.eqb c "/"
      then EmptyString :: segments r
      else match segments r with
           | l :: ls => String c l :: ls
           | [] => [String c EmptyString]
           end
  end.

(** [path.basename(p)]: the last non-empty piece. *)
Definition basename (p : string) : string :=
  List.last (List.filter (fun seg => negb (String.eqb seg EmptyString)) (segments p)) EmptyString.

Fixpoint lastDot (i : nat) (s : string) : option nat :=
  match s with
  | EmptyString => None
  | String c r =>
      match lastDot (S i) r with
      | Some j => Some j
      | None => if Ascii.eqb c "." then Some i else None
      end
  end.

(** [path.extname(p)]: from the last dot of the base name, unless that dot
    is its first character or the name is [..]. *)
Definition extname (p : string) : string :=
  let b := basename p in
  match lastDot 0 b with
  | None => EmptyString
  | Some 0 => EmptyString
  | Some i => if String.eqb b ".." then EmptyString else Str.dropChars i b
  end.

(** [path.basename(p, ext)] *)
Definition basenameWithout (p ext : string) : string :=
  let b := basename p in
  if negb (String.eqb ext EmptyString) && Str.endsWith b ext && negb (String.eqb b ext)
  then Str.takeChars (String.length b - String.length ext) b
  else b.

End Path.

(** ** The file system and the state of the tool *)

Inductive Encoding := Utf8 | Latin1.

Inductive EntryKind := Directory | RegularFile | OtherEntry.

Record Dirent := { name : string; kind : EntryKind }.

(** [readdir] and [readFile] give [None] when the call rejects; [access]
    says whether [fs.access] resolves. *)
Record FileSystem := {
  readdir : string -> option (list Dirent);
  readFile : Encoding -> string -> option string;
  access : string -> bool
}.

(** Ghost events: every [fs.readFile] call and every run of the
    prefix-discovery pass. *)
Inductive Event :=
| EvReadFile (enc : Encoding) (path : string)
| EvDiscovery (root : string).

Record State := {
  standardPrefixCache : gmap string bool;
  discoveredPrefixes : gset string;
  trace : list Event
}.

(** The state of a freshly constructed [RelatorioRotinaTool]. *)
Definition initialState : State :=
  {| standardPrefixCache := ∅; discoveredPrefixes := ∅; trace := [] |}.

Definition logEvent (e : Event) (st : State) : State :=
  {| standardPrefixCache := standardPrefixCache st;
     discoveredPrefixes := discoveredPrefixes st;
     trace := trace st ++ [e] |}.

Definition cacheSet (k : string) (v : bool) (st : State) : State :=
  {| standardPrefixCache := <[k := v]> (standardPrefixCache st);
     discoveredPrefixes := discoveredPrefixes st;
     trace := trace st |}.

Definition addPrefix (p : string) (st : State) : State :=
  {| standardPrefixCache := standardPrefixCache st;
     discoveredPrefixes := {[p]} ∪ discoveredPrefixes st;
     trace := trace st |}.

Definition isReadEvent (e : Event) : bool :=
  match e with EvReadFile _ _ => true | EvDiscovery _ => false end.

Definition isDiscoveryEvent (e : Event) : bool :=
  match e with EvDiscovery _ => true | EvReadFile _ _ => false end.

Definition readCount (st : State) : nat :=
  List.length (List.filter isReadEvent (trace st)).

Definition discoveryCount (st : State) : nat :=
  List.length (List.filter isDiscoveryEvent (trace st)).

(** ** RoutineClassifier *)

Definition KNOWN_STANDARD_PREFIXES : list string :=
  [ "FATA"; "FATC"; "FATR"; "FATM";
    "MATA"; "MATC"; "MATR"; "MATM";
    "FINA"; "FINC"; "FINR"; "FINM"; "FINXFUN";
    "COMA"; "COMC"; "COMR"; "COMM";
    "GPEA"; "GPEC"; "GPER"; "GPEM"; "GPEXFUN";
    "MNTA"; "MNTC"; "MNTR"; "MNTM";
    "PCPA"; "PCPC"; "PCPR"; "PCPM";
    "QIEA"; "QIEC"; "QIER"; "QIEM"; "QIEXFUN";
    "TECA"; "TECC"; "TECR"; "TECM"; "TECXFUN";
    "CRMA"; "CRMC"; "CRMR"; "CRMM";
    "TMKA"; "TMKC"; "TMKR"; "TMKM";
    "JURA"; "JURC"; "JURR"; "JURM";
    "VEICA"; "VEICC"; "VEICR";
    "OFIA"; "OFIC"; "OFIR"; "OFIM";
    "CTBA"; "CTBC"; "CTBR"; "CTBM"; "CTBXFUN";
    "ESTA"; "ESTC"; "ESTR"; "ESTM";
    "LOJA"; "LOJC"; "LOJR"; "LOJM";
    "PONA"; "PONC"; "PONR"; "PONM"; "PONXFUN";
    "FISA"; "FISC"; "FISR"; "FISM";
    "FWMVC"; "FWBROWSE"; "FWFORM";
    "APCFG"; "APWIZ";
    "CFGA"; "CFGC"; "CFGR"; "CFGM"; "CFGX";
    "BIXA"; "BIXC";
    "AGRA"; "AGRC"; "AGRR";
    "OMSA"; "OMSC"; "OMSR";
    "WFFA"; "WFFC";
    "EICA"; "EICC" ].

Definition matchesKnownPrefix (st : State) (routineName : string) : bool :=
  let allPrefixes := KNOWN_STANDARD_PREFIXES ++ elements (discoveredPrefixes st) in
  existsb (fun prefix => Str.startsWith routineName (Str.toUpperCase prefix))
          allPrefixes.

(** [/USER\s+FUNCTION/i], [/FUNCTION\s+U_/i], [/STATIC\s+FUNCTION\s+U_/i] *)
Definition customIndicators : list (list Re.Item) :=
  [ Re.textI "USER" ++ [Re.plus Re.space] ++ Re.textI "FUNCTION";
    Re.textI "FUNCTION" ++ [Re.plus Re.space] ++ Re.textI "U_";
    Re.textI "STATIC" ++ [Re.plus Re.space] ++ Re.textI "FUNCTION"
      ++ [Re.plus Re.space] ++ Re.textI "U_" ].

(** [/FUNCTION\s+[A-Z]{4}\d{3}/i], the two [#INCLUDE] patterns,
    [/STATIC\s+FUNCTION\s+MENU/i], [/WSSERVICE\s+/i], [/WSRESTFUL\s+/i] *)
Definition standardIndicators : list (list Re.Item) :=
  [ Re.textI "FUNCTION" ++ [Re.plus Re.space; Re.times 4 Re.upperAZI;
                            Re.times 3 Re.digit];
    Re.textI "#INCLUDE" ++ [Re.plus Re.space; Re.one (Re.lit "034")]
      ++ Re.textI "PROTHEUS.CH" ++ [Re.one (Re.lit "034")];
    Re.textI "#INCLUDE" ++ [Re.plus Re.space; Re.one (Re.lit "034")]
      ++ Re.textI "RWMAKE.CH" ++ [Re.one (Re.lit "034")];
    Re.textI "STATIC" ++ [Re.plus Re.space] ++ Re.textI "FUNCTION"
      ++ [Re.plus Re.space] ++ Re.textI "MENU";
    Re.textI "WSSERVICE" ++ [Re.plus Re.space];
    Re.textI "WSRESTFUL" ++ [Re.plus Re.space] ].

Definition newline : string := String "010" EmptyString.

(** [content.split('\n').slice(0, 200).join('\n').toUpperCase()] *)
Definition first200Upper (content : string) : string :=
  Str.toUpperCase (Str.join newline (firstn 200 (Str.splitLines content))).

(** The body of the [try] block of [analyzeFileContent], once the file has
    been read: the two loops over the indicators with their early returns. *)
Definition inspectContent (content : string) : bool :=
  let contentStr := first200Upper content in
  if existsb (fun indicator => Re.test indicator contentStr) customIndicators
  then false
  else if existsb (fun indicator => Re.test indicator contentStr) standardIndicators
  then true
  else true.

Definition analyzeFileContent (fs : FileSystem) (st : State) (filePath : string)
  : bool * State :=
  let st' := logEvent (EvReadFile Utf8 filePath) st in
  match readFile fs Utf8 filePath with
  | Some content => (inspectContent content, st')
  | None => (false, st')
  end.

(** The cache key: [routineName.toUpperCase().replace(/^U_/, '')]. *)
Definition cacheKey (routineName : string) : string :=
  let u := Str.toUpperCase routineName in
  if Str.startsWith u "U_" then Str.substringFrom 2 u else u.

(** [/^[A-Z]{4}\d{3}/] *)
Definition namingPattern : list Re.Item :=
  [Re.times 4 Re.upperAZ; Re.times 3 Re.digit].

(** A [filePath] argument counts when it is given and not the empty
    string. *)
Definition truthy (s : option string) : option string :=
  match s with
  | Some p => if String.eqb p EmptyString then None else Some p
  | None => None
  end.

Definition isStandardRoutine (fs : FileSystem) (st : State)
    (routineName : string) (filePath : option string) : bool * State :=
  let upperName := cacheKey routineName in
  match standardPrefixCache st !! upperName with
  | Some cached => (cached, st)
  | None =>
      let '(isStandard, st1) :=
        if Str.startsWith (Str.toUpperCase routineName) "U_" then (false, st)
        else if matchesKnownPrefix st upperName then (true, st)
        else match truthy filePath with
             | Some p => analyzeFileContent fs st p
             | None =>
                 if Re.testAtStart namingPattern upperName then (true, st)
                 else (false, st)
             end in
      (isStandard, cacheSet upperName isStandard st1)
  end.

(** ** FileIndexer *)

Definition ignoreDirs : list string :=
  ["node_modules"; ".git"; "bin"; "obj"; "backup"].

Definition includesString (l : list string) (s : string) : bool :=
  existsb (String.eqb s) l.

(** [walk levels] is [getAllFilesRecursive] with [levels] directory levels
    still allowed: [levels = 0] is the case [currentDepth > maxDepth]. *)
Fixpoint walk (fs : FileSystem) (exts : list string) (levels : nat)
    (dir : string) : list string :=
  match levels with
  | O => []
  | S levels' =>
      match readdir fs dir with
      | None => []
      | Some entries =>
          flat_map
            (fun entry =>
               let fullPath := Path.join dir (name entry) in
               match kind entry with
               | Directory =>
                   if negb (includesString ignoreDirs (Str.toLowerCase (name entry)))
                   then walk fs exts levels' fullPath
                   else []
               | RegularFile =>
                   let ext := Str.toLowerCase (Path.extname (name entry)) in
                   if includesString exts ext then [fullPath] else []
               | OtherEntry => []
               end)
            entries
      end
  end.

Definition getAllFilesRecursive (fs : FileSystem) (dir : string)
    (exts : list string) (maxDepth currentDepth : nat) : list string :=
  walk fs exts (S maxDepth - currentDepth) dir.

Definition sourceExtensions : list string := [".prw"; ".tlpp"; ".prx"].

(** ** The discovery pass *)

(** [/^([A-Z]{3,4})/] *)
Definition prefixPattern : list Re.Item := [Re.between 3 4 Re.upperAZ].

Definition discoverFile (fs : FileSystem) (st : State) (file : string) : State :=
  let fileName := Path.basenameWithout file (Path.extname file) in
  let '(isStandard, st1) := analyzeFileContent fs st file in
  if isStandard
  then match Re.matchAtStart prefixPattern fileName with
       | Some (prefix :: _) => addPrefix prefix st1
       | _ => st1
       end
  else st1.

Definition discoverStandardPrefixes (fs : FileSystem) (st : State)
    (repoPath : string) : State :=
  let files := getAllFilesRecursive fs repoPath sourceExtensions 5 0 in
  fold_left (discoverFile fs) files (logEvent (EvDiscovery repoPath) st).

(** ** RoutineFinder *)

Definition findRoutineFile (fs : FileSystem) (repoPath : string)
    (normalized : NormalizedRoutine) : option string :=
  match List.find (fun variation => access fs (Path.join repoPath variation))
                  (variations normalized) with
  | Some variation => Some (Path.join repoPath variation)
  | None =>
      let allFiles := getAllFilesRecursive fs repoPath sourceExtensions 3 0 in
      List.find
        (fun filePath =>
           let fileNameUpper := Str.toUpperCase (Path.basename filePath) in
           existsb (fun variation =>
                      String.eqb fileNameUpper (Str.toUpperCase variation))
                   (variations normalized))
        allFiles
  end.

(** ** TableUsageAnalyzer *)

Inductive UsageType := Browse | CRUD | Query | Report | Integration | Other.

#[global] Instance UsageType_eq_dec : EqDecision UsageType.
Proof. solve_decision. Defined.

(** What [analyzeTableUsage] returns. *)
Record TableUsage := {
  usageType : UsageType;
  references : nat;
  hasBrowse : bool;
  hasInsert : bool;
  hasUpdate : bool;
  hasDelete : bool;
  userFunctions : list string;
  staticFunctions : list string
}.

(** One row of a table search: the three name fields and the fields of the
    analysis, which the source copies one by one. *)
Record TableSearchResult := {
  routine : string;
  file : string;
  filePath : string;
  usage : TableUsage
}.

(** The table name is spliced into the pattern text as it is; it is a
    Protheus alias (PD3, SA1, SC5), read here as literal text. *)
Definition wholeWord (tableUpper : string) : list Re.Item :=
  [Re.WordBoundary] ++ Re.text tableUpper ++ [Re.WordBoundary].

Definition tablePatterns (tableUpper : string) : list (list Re.Item) :=
  [ wholeWord tableUpper;
    Re.text "DBSELECTAREA"
      ++ [Re.star Re.space; Re.one (Re.lit "("); Re.star Re.space;
          Re.one Re.quoteChar]
      ++ Re.text tableUpper ++ [Re.one Re.quoteChar];
    [Re.one (Re.lit "("); Re.one Re.quoteChar]
      ++ Re.text tableUpper ++ [Re.one Re.quoteChar; Re.one (Re.lit ")")];
    Re.text tableUpper ++ Re.text "->" ].

Definition hasTableReference (contentUpper tableUpper : string) : bool :=
  existsb (fun pattern => Re.test pattern contentUpper) (tablePatterns tableUpper).

(** [/RECLOCK\s*\(\s*["']?\w+["']?\s*,\s*\.X\./i] for X = T or F. *)
Definition reclockPattern (flag : ascii) : list Re.Item :=
  Re.textI "RECLOCK"
    ++ [Re.star Re.space; Re.one (Re.lit "("); Re.star Re.space;
        Re.opt Re.quoteChar; Re.plus Re.word; Re.opt Re.quoteChar;
        Re.star Re.space; Re.one (Re.lit ","); Re.star Re.space;
        Re.one (Re.lit "."); Re.one (Re.litI flag); Re.one (Re.lit ".")].

(** [/RECLOCK.*DBDELETE/s] *)
Definition reclockDeletePattern : list Re.Item :=
  Re.text "RECLOCK" ++ [Re.star Re.anyChar] ++ Re.text "DBDELETE".

(** [/USER\s+FUNCTION\s+(\w+)/gi] and [/STATIC\s+FUNCTION\s+(\w+)/gi] *)
Definition functionPattern (keyword : string) : list Re.Item :=
  Re.textI keyword ++ [Re.plus Re.space] ++ Re.textI "FUNCTION"
    ++ [Re.plus Re.space; Re.plus Re.word].

(** [match[1]]: the group is the last element of the pattern. *)
Definition capture (texts : list string) : string := List.last texts EmptyString.

Definition browseKeywords : list string :=
  ["MBROWSE"; "FWMBROWSE"; "FWMARKBROWSE"; "MSSELECT"].

Definition analyzeTableUsage (content tableUpper : string) : TableUsage :=
  let contentUpper := Str.toUpperCase content in
  let references := List.length (Re.matchAll (wholeWord tableUpper) contentUpper) in
  let hasBrowse := existsb (fun kw => Str.includes contentUpper kw) browseKeywords in
  let hasInsert :=
    Re.test (reclockPattern "T") content || Str.includes contentUpper "DBAPPEND" in
  let hasUpdate := Re.test (reclockPattern "F") content in
  let hasDelete :=
    Str.includes contentUpper "DBDELETE"
    || Re.test reclockDeletePattern contentUpper in
  let userFunctions := map capture (Re.matchAll (functionPattern "USER") content) in
  let staticFunctions := map capture (Re.matchAll (functionPattern "STATIC") content) in
  let usageType :=
    if hasBrowse then Browse
    else if hasInsert || hasUpdate || hasDelete then CRUD
    else if Str.includes contentUpper "TCQUERY" || Str.includes contentUpper "SELECT "
    then Query
    else if Str.includes contentUpper "TMSPRINTER" || Str.includes contentUpper "TREPORT"
    then Report
    else if Str.includes contentUpper "WSSERVICE" || Str.includes contentUpper "WSRESTFUL"
    then Integration
    else Other in
  {| usageType := usageType;
     references := references;
     hasBrowse := hasBrowse;
     hasInsert := hasInsert;
     hasUpdate := hasUpdate;
     hasDelete := hasDelete;
     userFunctions := Str.unique userFunctions;
     staticFunctions := Str.unique staticFunctions |}.

(** The [for] loop of [executeSearchByTable]. A file that cannot be read is
    the [catch] of the loop body; [continue] goes on with the rest; the
    [break] is taken right after a push. [maxResults] is a JavaScript
    number, taken here as an integer. *)
Fixpoint searchLoop (fs : FileSystem) (tableUpper : string)
    (includeStandard : bool) (maxResults : Z) (files : list string)
    (st : State) (results : list TableSearchResult)
  : list TableSearchResult * State :=
  match files with
  | [] => (results, st)
  | filePath :: rest =>
      let st0 := logEvent (EvReadFile Latin1 filePath) st in
      match readFile fs Latin1 filePath with
      | None => searchLoop fs tableUpper includeStandard maxResults rest st0 results
      | Some content =>
          let contentUpper := Str.toUpperCase content in
          if negb (hasTableReference contentUpper tableUpper)
          then searchLoop fs tableUpper includeStandard maxResults rest st0 results
          else
            let fileName := Path.basenameWithout filePath (Path.extname filePath) in
            let '(isStandard, st1) :=
              isStandardRoutine fs st0 fileName (Some filePath) in
            if isStandard && negb includeStandard
            then searchLoop fs tableUpper includeStandard maxResults rest st1 results
            else
              let analysis := analyzeTableUsage content tableUpper in
              let results' :=
                results ++ [ {| routine := fileName;
                                file := Path.basename filePath;
                                filePath := filePath;
                                usage := analysis |} ] in
              if (Z.of_nat (List.length results') >=? maxResults)%Z
              then (results', st1)
              else searchLoop fs tableUpper includeStandard maxResults rest st1
                              results'
      end
  end.

(** [typeOrder[t]] *)
Definition typeOrder (t : UsageType) : Z :=
  match t with
  | Browse => 1 | CRUD => 2 | Query => 3
  | Report => 4 | Integration => 5 | Other => 6
  end%Z.

(** [typeOrder[r.usageType] || 99] *)
Definition orderOf (r : TableSearchResult) : Z :=
  let o := typeOrder (usageType (usage r)) in
  if (o =? 0)%Z then 99%Z else o.

(** The comparator handed to [results.sort]. *)
Definition compareRows (a b : TableSearchResult) : Z :=
  let orderA := orderOf a in
  let orderB := orderOf b in
  if negb (orderA =? orderB)%Z then (orderA - orderB)%Z
  else (Z.of_nat (references (usage b)) - Z.of_nat (references (usage a)))%Z.

(** [Array.prototype.sort] is a stable sort: every element is placed
    before the first one that must come after it. *)
Fixpoint insertSorted {A : Type} (cmp : A -> A -> Z) (x : A) (l : list A)
  : list A :=
  match l with
  | [] => [x]
  | y :: r => if (cmp x y <? 0)%Z then x :: y :: r else y :: insertSorted cmp x r
  end.

Definition sortWith {A : Type} (cmp : A -> A -> Z) (l : list A) : list A :=
  fold_left (fun sorted x => insertSorted cmp x sorted) l [].

Record Summary := {
  browseRoutines : nat;
  crudRoutines : nat;
  reportRoutines : nat;
  otherRoutines : nat
}.

Record TableSearchResponse := {
  ok : bool;
  table : string;
  totalFound : nat;
  results : list TableSearchResult;
  summary : Summary
}.

Definition countWhere (p : TableSearchResult -> bool)
    (rows : list TableSearchResult) : nat :=
  List.length (List.filter p rows).

Definition hasType (t : UsageType) (r : TableSearchResult) : bool :=
  bool_decide (usageType (usage r) = t).

Definition executeSearchByTable (fs : FileSystem) (st : State)
    (tableName repoPath : string) (includeStandard : bool) (maxResults : Z)
  : TableSearchResponse * State :=
  let tableUpper := Str.toUpperCase tableName in
  let allFiles := getAllFilesRecursive fs repoPath sourceExtensions 5 0 in
  let '(found, st') :=
    searchLoop fs tableUpper includeStandard maxResults allFiles st [] in
  let sorted := sortWith compareRows found in
  ({| ok := true;
      table := tableName;
      totalFound := List.length sorted;
      results := sorted;
      summary :=
        {| browseRoutines := countWhere (hasType Browse) sorted;
           crudRoutines := countWhere (hasType CRUD) sorted;
           reportRoutines := countWhere (hasType Report) sorted;
           otherRoutines :=
             countWhere
               (fun r => negb (existsb (fun t => hasType t r) [Browse; CRUD; Report]))
               sorted |} |},
   st').

(** ** RepositoryLocator *)

Definition envVarMap : list (string * string) :=
  [ ("HML", "REPO_HML");
    ("PRD", "REPO_PRD");
    ("TOTVS", "REPO_TOTVS_STANDARD");
    ("STANDARD", "REPO_TOTVS_STANDARD");
    ("TOTVS_STANDARD", "REPO_TOTVS_STANDARD") ].

Fixpoint assoc (k : string) (l : list (string * string)) : option string :=
  match l with
  | [] => None
  | (k', v) :: r => if String.eqb k k' then Some v else assoc k r
  end.

(** [processEnv] is [process.env]. *)
Definition getRepoPath (processEnv : gmap string string) (env : string)
  : Thrown string :=
  let envVar := assoc (Str.toUpperCase env) envVarMap in
  let repoPath :=
    match envVar with
    | Some v => default EmptyString (processEnv !! v)
    | None => EmptyString
    end in
  if String.eqb repoPath EmptyString
  then Throws ("Variavel de ambiente " +:+ default "undefined" envVar
               +:+ " nao configurada para ambiente " +:+ env)
  else Returns repoPath.

Definition detectEnvironment (routineName : string) : string :=
  if Str.startsWith routineName "U_" then "HML" else "STANDARD".

(** ** Orchestrator *)

(** The parameters read by the parts modelled here; the remaining ones
    ([baseBranch], [mermaidMode], [includeSource], [maxSourceChars],
    [sourceEncoding]) only reach the action handlers. *)
Record RelatorioRotinaParams := {
  param_routine : option string;
  param_action : option string;
  param_env : option string;
  param_repoPath : option string;
  param_table : option string;
  param_includeStandard : option bool;
  param_maxResults : option Z
}.

(** The payload of the not-found answer of [execute]. *)
Record NotFoundInfo := {
  nf_env : string;
  nf_repoPath : string;
  nf_routine : string;
  nf_message : string;
  nf_normalized : NormalizedRoutine;
  nf_isStandard : bool;
  nf_searchedPath : string;
  nf_searchedVariations : list string
}.

(** What [execute] resolves to. Every constructor but [TableSearch] and
    [ActionResult] is an answer with [ok: false]; [ActionResult] stands for
    the answer of one of the four action handlers (git status, structure
    analysis, report rendering, source reading), which take the located
    file from here. *)
Inductive Outcome :=
| TableRequired
| RoutineRequired
| RepoNotConfigured (env message : string)
| StandardRepoMissing (routineName message : string)
| TableSearch (response : TableSearchResponse) (env repoPath : string)
| NotFound (info : NotFoundInfo)
| InvalidAction (message : string)
| ActionResult (action located env repoPath : string) (isStandard : bool)
| Unexpected (message : string).

Definition dquote : string := String "034" EmptyString.

Definition notFoundMessage (routineName finalEnv finalRepoPath : string)
    (vars : list string) : string :=
  "Rotina " +:+ dquote +:+ routineName +:+ dquote +:+ " nao encontrada em "
    +:+ finalEnv +:+ "." +:+ newline +:+ newline
    +:+ "Caminho pesquisado: " +:+ finalRepoPath +:+ newline
    +:+ "Variacoes procuradas:" +:+ newline
    +:+ Str.join newline (map (fun v => "  - " +:+ v) (firstn 10 vars))
    +:+ newline
    +:+ (if Nat.ltb 10 (List.length vars)
         then "  ... e mais " +:+ pretty (List.length vars - 10) +:+ " variacoes"
         else EmptyString).

Definition knownActions : list string :=
  ["status"; "analyzeRoutine"; "renderReportMarkdown"; "getSourceCode"].

(** What steps 1 and 2 of [execute] leave for the lookup: the normalised
    name, the resolved environment and root, and the classification. *)
Record Resolved := {
  res_routine : string;
  res_action : string;
  res_normalized : NormalizedRoutine;
  res_env : string;
  res_repoPath : string;
  res_isStandard : bool
}.

Definition standardRepoMessage (m : string) : string :=
  "Repositorio de rotinas padrao nao configurado." +:+ newline +:+ newline
    +:+ "Configure a variavel REPO_TOTVS_STANDARD no arquivo .env" +:+ newline
    +:+ "Exemplo: REPO_TOTVS_STANDARD=C:\caminho\para\fontes\totvs"
    +:+ newline +:+ newline
    +:+ "Erro: " +:+ m.

(** Steps 1 and 2 of [execute] for a routine action: validate and normalise
    the name, then determine the repository. An early answer is on the
    left. The discovery pass is started here, guarded by the size of
    [discoveredPrefixes]. *)
Definition resolveRoutine (fs : FileSystem) (processEnv : gmap string string)
    (st : State) (params : RelatorioRotinaParams)
  : (Outcome + Resolved) * State :=
  let env := default "AUTO" (param_env params) in
  let action := default "renderReportMarkdown" (param_action params) in
  match truthy (param_routine params) with
  | None => (inl RoutineRequired, st)
  | Some routineName =>
      match normalizeRoutineName routineName with
      | Throws m => (inl (Unexpected ("Erro inesperado: " +:+ m)), st)
      | Returns normalized =>
          let resolved finalEnv finalRepoPath isStandard :=
            {| res_routine := routineName;
               res_action := action;
               res_normalized := normalized;
               res_env := finalEnv;
               res_repoPath := finalRepoPath;
               res_isStandard := isStandard |} in
          match truthy (param_repoPath params) with
          | Some manualRepoPath =>
              (inr (resolved "MANUAL" manualRepoPath false), st)
          | None =>
              let '(isStandard, st1) :=
                isStandardRoutine fs st (baseNameUpper normalized) None in
              if isStandard
              then
                match getRepoPath processEnv "STANDARD" with
                | Throws m =>
                    (inl (StandardRepoMissing routineName (standardRepoMessage m)),
                     st1)
                | Returns finalRepoPath =>
                    let st2 :=
                      if Nat.eqb (size (discoveredPrefixes st1)) 0
                      then discoverStandardPrefixes fs st1 finalRepoPath
                      else st1 in
                    (inr (resolved "STANDARD" finalRepoPath isStandard), st2)
                end
              else
                let finalEnv :=
                  if String.eqb env "AUTO"
                  then detectEnvironment (baseNameUpper normalized)
                  else env in
                match getRepoPath processEnv finalEnv with
                | Throws m =>
                    (inl (RepoNotConfigured finalEnv
                            ("Repositorio " +:+ finalEnv +:+ " nao configurado: "
                             +:+ m)), st1)
                | Returns finalRepoPath =>
                    (inr (resolved finalEnv finalRepoPath isStandard), st1)
                end
          end
      end
  end.

(** Steps 3 to 5 of [execute]: look the file up and hand it to the
    action. *)
Definition locateAndRun (fs : FileSystem) (st : State) (r : Resolved)
  : Outcome * State :=
  match findRoutineFile fs (res_repoPath r) (res_normalized r) with
  | None =>
      (NotFound
         {| nf_env := res_env r;
            nf_repoPath := res_repoPath r;
            nf_routine := res_routine r;
            nf_message :=
              notFoundMessage (res_routine r) (res_env r) (res_repoPath r)
                              (variations (res_normalized r));
            nf_normalized := res_normalized r;
            nf_isStandard := res_isStandard r;
            nf_searchedPath := res_repoPath r;
            nf_searchedVariations := variations (res_normalized r) |}, st)
  | Some located =>
      if includesString knownActions (res_action r)
      then (ActionResult (res_action r) located (res_env r) (res_repoPath r)
                         (res_isStandard r), st)
      else (InvalidAction ("Acao invalida: " +:+ res_action r), st)
  end.

(** The table branch of [execute]. *)
Definition searchAction (fs : FileSystem) (processEnv : gmap string string)
    (st : State) (params : RelatorioRotinaParams) : Outcome * State :=
  let env := default "AUTO" (param_env params) in
  let includeStandard := default false (param_includeStandard params) in
  let maxResults := default 50%Z (param_maxResults params) in
  match truthy (param_table params) with
  | None => (TableRequired, st)
  | Some tableName =>
      match truthy (param_repoPath params) with
      | Some manualRepoPath =>
          let '(response, st') :=
            executeSearchByTable fs st tableName manualRepoPath includeStandard
                                 maxResults in
          (TableSearch response "MANUAL" manualRepoPath, st')
      | None =>
          let finalEnv := if String.eqb env "AUTO" then "HML" else env in
          match getRepoPath processEnv finalEnv with
          | Throws m =>
              (RepoNotConfigured finalEnv
                 ("Repositorio " +:+ finalEnv +:+ " nao configurado: " +:+ m), st)
          | Returns finalRepoPath =>
              let '(response, st') :=
                executeSearchByTable fs st tableName finalRepoPath includeStandard
                                     maxResults in
              (TableSearch response finalEnv finalRepoPath, st')
          end
      end
  end.

Definition execute (fs : FileSystem) (processEnv : gmap string string)
    (st : State) (params : RelatorioRotinaParams) : Outcome * State :=
  let action := default "renderReportMarkdown" (param_action params) in
  if String.eqb action "searchByTable"
  then searchAction fs processEnv st params
  else
    match resolveRoutine fs processEnv st params with
    | (inl answer, st') => (answer, st')
    | (inr r, st') => locateAndRun fs st' r
    end.

(** ** Structure analysis of one routine *)

(** [[A-Z0-9]] in a pattern with the [i] flag, and without it. *)
Definition alnumI : ascii -> bool :=
  fun x => Str.isUpper (Str.upperChar x) || Str.isDigit x.
Definition alnum : ascii -> bool := fun x => Str.isUpper x || Str.isDigit x.
(** Any character but the double quote. *)
Definition notDoubleQuote : ascii -> bool := fun x => negb (Ascii.eqb x "034").

(** The pattern of an include line, with the [i] flag: [#INCLUDE], white
    space, and between double quotes a group of one or more characters
    that are not double quotes. The group is element 10. *)
Definition includePattern : list Re.Item :=
  Re.textI "#INCLUDE"
    ++ [Re.plus Re.space; Re.one (Re.lit "034"); Re.plus notDoubleQuote;
        Re.one (Re.lit "034")].

(** The pattern of a call of DBSELECTAREA, with the [i] flag: the name,
    an opening parenthesis, a quote of either kind, a group of one or more
    of [[A-Z0-9]], a quote and the closing parenthesis, with optional
    white space around. The group is element 16. *)
Definition selectAreaPattern : list Re.Item :=
  Re.textI "DBSELECTAREA"
    ++ [Re.star Re.space; Re.one (Re.lit "("); Re.star Re.space;
        Re.one Re.quoteChar; Re.plus alnumI; Re.one Re.quoteChar;
        Re.star Re.space; Re.one (Re.lit ")")].

(** The pattern of a quoted alias in parentheses, without flag: a group
    of two or three of [[A-Z0-9]] between quotes of either kind, between
    parentheses. The group is element 2. *)
Definition quotedAliasPattern : list Re.Item :=
  [Re.one (Re.lit "("); Re.one Re.quoteChar; Re.between 2 3 alnum;
   Re.one Re.quoteChar; Re.one (Re.lit ")")].

(** [line.match(re)] for a pattern without the [g] flag, reduced to the
    group that stands at element [group]. *)
Definition matchGroup (items : list Re.Item) (group : nat) (line : string)
  : option string :=
  match Re.search items None line with
  | Some (texts, _) => Some (nth group texts EmptyString)
  | None => None
  end.

Module Analysis.

Record t := {
  totalLines : nat;
  functions : list string;
  includes : list string;
  tables : list string;
  userFunctions : list string;
  staticFunctions : list string
}.

End Analysis.

(** The lists as they grow in the loop of [executeAnalyzeRoutine]. *)
Record Collected := {
  col_includes : list string;
  col_tables : list string;
  col_userFunctions : list string;
  col_staticFunctions : list string
}.

Definition pushIf (found : option string) (l : list string) : list string :=
  match found with Some x => l ++ [x] | None => l end.

(** The body of the loop, for one line of the file. The group of the two
    function patterns is their last element: element 14 after USER and
    element 16 after STATIC. *)
Definition analyzeLine (acc : Collected) (rawLine : string) : Collected :=
  let line := Str.toUpperCase (Str.trim rawLine) in
  let include :=
    if Str.startsWith line "#INCLUDE" then matchGroup includePattern 10 line
    else None in
  let userFunction :=
    if Str.includes line "USER FUNCTION"
    then matchGroup (functionPattern "USER") 14 line
    else None in
  let staticFunction :=
    if Str.includes line "STATIC FUNCTION"
    then matchGroup (functionPattern "STATIC") 16 line
    else None in
  let tableMatch :=
    match matchGroup selectAreaPattern 16 line with
    | Some t => Some t
    | None => matchGroup quotedAliasPattern 2 line
    end in
  let table :=
    match tableMatch with
    | Some t => if Nat.leb (String.length t) 3 then Some t else None
    | None => None
    end in
  {| col_includes := pushIf include (col_includes acc);
     col_tables := pushIf table (col_tables acc);
     col_userFunctions := pushIf userFunction (col_userFunctions acc);
     col_staticFunctions := pushIf staticFunction (col_staticFunctions acc) |}.

(** [executeAnalyzeRoutine]: [None] is the answer with [ok: false] of the
    [catch]. *)
Definition executeAnalyzeRoutine (fs : FileSystem) (filePath : string)
  : option Analysis.t :=
  match readFile fs Utf8 filePath with
  | None => None
  | Some content =>
      let lines := Str.splitLines content in
      let collected :=
        fold_left analyzeLine lines
                  {| col_includes := []; col_tables := [];
                     col_userFunctions := []; col_staticFunctions := [] |} in
      Some {| Analysis.totalLines := List.length lines;
              Analysis.functions := [];
              Analysis.includes := Str.unique (col_includes collected);
              Analysis.tables := Str.unique (col_tables collected);
              Analysis.userFunctions := Str.unique (col_userFunctions collected);
              Analysis.staticFunctions :=
                Str.unique (col_staticFunctions collected) |}
  end.

(** ** The code review tool: which rules are looked up in the normative *)

(** A violation as the review script reports it; an absent field is the
    empty string. *)
Record Violation := { v_id : string; v_descricao : string }.

Definition hasKey (id : string) (entries : list (string * string)) : bool :=
  existsb (fun entry => String.eqb (fst entry) id) entries.

(** The loop that fills the map [unique], which keeps its keys in the
    order of insertion. *)
Fixpoint collectRules (unique : list (string * string)) (violations : list Violation)
  : list (string * string) :=
  match violations with
  | [] => unique
  | v :: rest =>
      let id := Str.trim (v_id v) in
      let desc := Str.trim (v_descricao v) in
      if negb (String.eqb id EmptyString) && negb (hasKey id unique)
      then collectRules
             (unique ++ [(id, if String.eqb desc EmptyString then id else desc)])
             rest
      else collectRules unique rest
  end.

(** One hint of the answer: the rule, the question asked, and what
    [NormativaTool.run] gave or threw. *)
Record Hint (R : Type) := {
  hint_id : string;
  hint_query : string;
  hint_answer : Thrown R
}.
Arguments hint_id {R} h.
Arguments hint_query {R} h.
Arguments hint_answer {R} h.

(** Step 4 of [CodeReviewTool.run]; [ask] is [NormativaTool.run], and
    [violations] is [None] when the script printed no violation block. *)
Definition normativaHints {R : Type} (ask : string -> Thrown R)
    (incluirNormativa : bool) (violations : option (list Violation))
  : list (Hint R) :=
  match violations with
  | Some (v :: vs) =>
      if incluirNormativa
      then map (fun item =>
                  {| hint_id := fst item;
                     hint_query := snd item;
                     hint_answer := ask (snd item) |})
               (firstn 8 (collectRules [] (v :: vs)))
      else []
  | _ => []
  end.

(** ** The code review tool: reading the output of the script *)

(** [s.indexOf(marker)]: where [marker] first occurs. *)
Fixpoint indexOf (s marker : string) : option nat :=
  if Str.startsWith s marker then Some 0
  else match s with
       | EmptyString => None
       | String _ r => option_map S (indexOf r marker)
       end.

Definition isLF (c : ascii) : bool := Ascii.eqb c "010".
Definition isCR (c : ascii) : bool := Ascii.eqb c "013".

Definition consToHead (c : ascii) (pieces : list string) : list string :=
  match pieces with
  | l :: ls => String c l :: ls
  | [] => [String c EmptyString]
  end.

(** [s.split(/\r?\n/)]: the text is cut at every line feed, and a
    carriage return right before it goes with it. *)
Fixpoint splitCRLF (s : string) : list string :=
  match s with
  | EmptyString => [EmptyString]
  | String c r =>
      if isLF c then EmptyString :: splitCRLF r
      else match r with
           | String d r' =>
               if isCR c && isLF d then EmptyString :: splitCRLF r'
               else consToHead c (splitCRLF r)
           | EmptyString => [String c EmptyString]
           end
  end.

(** [extractJsonResult]; [parse] is [JSON.parse] inside its [try], [None]
    when it throws. *)
Definition extractJsonResult {J : Type} (parse : string -> option J)
    (stdout : string) : option J :=
  let marker := "[JSON_RESULT]" in
  match indexOf stdout marker with
  | None => None
  | Some idx =>
      let after := Str.trim (Str.dropChars (idx + String.length marker) stdout) in
      match List.find (fun l => Str.startsWith (Str.trim l) "{") (splitCRLF after) with
      | None => None
      | Some firstLine => parse firstLine
      end
  end.

(** [extractJsonBlock] *)
Definition extractJsonBlock {J : Type} (parse : string -> option J)
    (stdout marker : string) : option J :=
  match indexOf stdout marker with
  | None => None
  | Some idx =>
      let after := Str.trim (Str.dropChars (idx + String.length marker) stdout) in
      match List.find
              (fun l => Str.startsWith (Str.trim l) "["
                        || Str.startsWith (Str.trim l) "{")
              (splitCRLF after) with
      | None => None
      | Some firstJsonLine => parse firstJsonLine
      end
  end.

(** ** Notions used by the statements *)

(** The calls that can change the state of the tool between two
    classifications, each against the file system and environment of its
    moment: the methods that write to the two fields, and [execute], which
    reaches them. *)
Inductive Call :=
| CallClassify (fs : FileSystem) (routineName : string) (path : option string)
| CallDiscover (fs : FileSystem) (repoPath : string)
| CallSearch (fs : FileSystem) (tableName repoPath : string)
             (includeStandard : bool) (maxResults : Z)
| CallExecute (fs : FileSystem) (processEnv : gmap string string)
              (params : RelatorioRotinaParams).

Definition runCall (st : State) (c : Call) : State :=
  match c with
  | CallClassify fs routineName path =>
      snd (isStandardRoutine fs st routineName path)
  | CallDiscover fs repoPath => discoverStandardPrefixes fs st repoPath
  | CallSearch fs tableName repoPath includeStandard maxResults =>
      snd (executeSearchByTable fs st tableName repoPath includeStandard maxResults)
  | CallExecute fs processEnv params => snd (execute fs processEnv st params)
  end.

Definition runCalls (st : State) (calls : list Call) : State :=
  fold_left runCall calls st.

(** [st'] has the discovered prefixes of [st] and as many discovery passes
    behind it. *)
Definition sameDiscovery (st st' : State) : Prop :=
  discoveredPrefixes st' = discoveredPrefixes st
  /\ discoveryCount st' = discoveryCount st.

(** The order a comparator induces: [a] may stand before [b]. *)
Definition before {A : Type} (cmp : A -> A -> Z) (a b : A) : Prop :=
  (cmp a b <= 0)%Z.

(** The character that stands before what follows [pre], [prev] being the
    one before [pre]. *)
Fixpoint charBefore (prev : option ascii) (pre : string) : option ascii :=
  match pre with
  | EmptyString => prev
  | String c r => charBefore (Some c) r
  end.

(** The seven endings of a candidate, the empty one included. *)
Definition endings : list string := EmptyString :: extensions.

(** The candidates built on one base form. *)
Definition candidatesOf (base : string) : list string :=
  map (fun e => base +:+ e) endings.

(** The base name of [p] is one of the candidates, letter case aside. *)
Definition matchesVariation (n : NormalizedRoutine) (p : string) : bool :=
  existsb (fun variation =>
             String.eqb (Str.toUpperCase (Path.basename p))
                        (Str.toUpperCase variation))
          (variations n).

(** What one directory entry adds to a walk with [levels] levels left
    below [dir]: the body of the loop of [getAllFilesRecursive]. *)
Definition walkEntry (fs : FileSystem) (exts : list string) (levels : nat)
    (dir : string) (entry : Dirent) : list string :=
  let fullPath := Path.join dir (name entry) in
  match kind entry with
  | Directory =>
      if negb (includesString ignoreDirs (Str.toLowerCase (name entry)))
      then walk fs exts levels fullPath
      else []
  | RegularFile =>
      let ext := Str.toLowerCase (Path.extname (name entry)) in
      if includesString exts ext then [fullPath] else []
  | OtherEntry => []
  end.

(** Every character of [s] satisfies [p]. *)
Fixpoint allChars (p : ascii -> bool) (s : string) : bool :=
  match s with
  | EmptyString => true
  | String c r => p c && allChars p r
  end.

(** The text [t] is one that the pattern element may take. *)
Definition accepts (item : Re.Item) (t : string) : Prop :=
  match item with
  | Re.Chars p min max =>
      allChars p t = true /\ min <= String.length t
      /\ forall m, max = Some m -> String.length t <= m
  | Re.WordBoundary => t = EmptyString
  end.

Fixpoint concatAll (texts : list string) : string :=
  match texts with
  | [] => EmptyString
  | t :: r => t +:+ concatAll r
  end.

(** The repetition loop of [Re.exec], with what follows the element as
    [cont]. *)
Definition repFrom (p : ascii -> bool) (min : nat) (max : option nat)
    (cont : option ascii -> string -> option (list string * string))
  : nat -> string -> option ascii -> string -> option (list string * string) :=
  fix rep (k : nat) (taken : string) (prev : option ascii) (s : string)
      {struct s} : option (list string * string) :=
    let stop :=
      if Nat.leb min k
      then match cont prev s with
           | Some (texts, remaining) => Some (taken :: texts, remaining)
           | None => None
           end
      else None in
    match s with
    | String c s' =>
        if Re.belowMax k max && p c
        then match rep (S k) (taken +:+ String c EmptyString) (Some c) s' with
             | Some r => Some r
             | None => stop
             end
        else stop
    | EmptyString => stop
    end.

(** A discovered prefix as the pass makes them: three or four capital
    letters. *)
Definition wellFormedPrefix (prefix : string) : Prop :=
  allChars Str.isUpper prefix = true
  /\ (String.length prefix = 3 \/ String.length prefix = 4).

(** From [st] to [st'] the set of discovered prefixes has only grown, and
    by well-formed prefixes. *)
Definition grows (st st' : State) : Prop :=
  discoveredPrefixes st ⊆ discoveredPrefixes st'
  /\ forall prefix, prefix ∈ discoveredPrefixes st' ->
                    prefix ∈ discoveredPrefixes st \/ wellFormedPrefix prefix.

(** The row [r] stands for a file of [allFiles] that could be read, that
    refers to the table, and whose name and analysis the row carries. *)
Definition rowOf (fs : FileSystem) (tableUpper : string) (allFiles : list string)
    (r : TableSearchResult) : Prop :=
  filePath r ∈ allFiles
  /\ routine r = Path.basenameWithout (filePath r) (Path.extname (filePath r))
  /\ file r = Path.basename (filePath r)
  /\ exists content,
       readFile fs Latin1 (filePath r) = Some content
       /\ hasTableReference (Str.toUpperCase content) tableUpper = true
       /\ usage r = analyzeTableUsage content tableUpper.

(** The cache of [st] holds the decision custom for the routine of [r]. *)
Definition cachedCustom (st : State) (r : TableSearchResult) : Prop :=
  standardPrefixCache st !! cacheKey (routine r) = Some false.

(** The number of line feeds in a text. *)
Fixpoint countNewlines (s : string) : nat :=
  match s with
  | EmptyString => 0
  | String c r => (if Ascii.eqb c "010" then 1 else 0) + countNewlines r
  end.

(** What [executeAnalyzeRoutine] keeps true of the four lists while it
    goes through the lines. *)
Definition collectedWell (acc : Collected) : Prop :=
  Forall (fun i => i <> EmptyString /\ allChars notDoubleQuote i = true)
         (col_includes acc)
  /\ Forall (fun t => 1 <= String.length t <= 3) (col_tables acc)
  /\ Forall (fun f => f <> EmptyString /\ allChars Str.isWord f = true)
            (col_userFunctions acc)
  /\ Forall (fun f => f <> EmptyString /\ allChars Str.isWord f = true)
            (col_staticFunctions acc).

(** The entry that the violation [v] puts into the map when its rule is
    new: the trimmed id, with the trimmed description as the question, or
    the id itself when the description is blank. *)
Definition ruleEntry (v : Violation) : string * string :=
  let id := Str.trim (v_id v) in
  let desc := Str.trim (v_descricao v) in
  (id, if String.eqb desc EmptyString then id else desc).

(** What the map keeps true: distinct keys, no empty key and no empty
    question, every entry that of some violation of [vs]. *)
Definition rulesWell (vs : list Violation) (unique : list (string * string))
  : Prop :=
  NoDup (map fst unique)
  /\ Forall (fun entry =>
               fst entry <> EmptyString /\ snd entry <> EmptyString
               /\ exists v, v ∈ vs /\ entry = ruleEntry v) unique.

(** Neither a line feed nor a carriage return. *)
Definition notLineBreak (c : ascii) : bool := negb (isLF c) && negb (isCR c).

(** ** Sample trees and processes used by the examples *)

Module Sample.

(** A file system with nothing in it. *)
Definition noFiles : FileSystem :=
  {| readdir := fun _ => None;
     readFile := fun _ _ => None;
     access := fun _ => false |}.

(** The vendor tree exists and is empty. *)
Definition emptyVendorTree : FileSystem :=
  {| readdir := fun dir => if String.eqb dir "/totvs" then Some [] else None;
     readFile := fun _ _ => None;
     access := fun _ => false |}.

(** A vendor tree with one framework source and one lower-case name. *)
Definition vendorTree : FileSystem :=
  {| readdir := fun dir =>
       if String.eqb dir "/totvs"
       then Some [ {| name := "MATA010.PRW"; kind := RegularFile |};
                   {| name := "fina050.prw"; kind := RegularFile |} ]
       else None;
     readFile := fun _ path =>
       if String.eqb path "/totvs/MATA010.PRW" then Some "Function MATA010()"
       else if String.eqb path "/totvs/fina050.prw" then Some "Function FINA050()"
       else None;
     access := fun path => String.eqb path "/totvs/MATA010.PRW" |}.

Definition vendorEnv : gmap string string :=
  {[ "REPO_TOTVS_STANDARD" := "/totvs" ]}.

Definition lookup (name : string) : RelatorioRotinaParams :=
  {| param_routine := Some name;
     param_action := Some "analyzeRoutine";
     param_env := None;
     param_repoPath := None;
     param_table := None;
     param_includeStandard := None;
     param_maxResults := None |}.

(** Three customer sources that use the table PD3: a browse with one
    mention, a maintenance routine with two and another with three. *)
Definition browseSource : string :=
  "User Function XBRW()" +:+ newline +:+ "  mBrowse(6, 1, 22, 75, 'PD3')".

Definition crudSource2 : string :=
  "User Function XINC()" +:+ newline +:+ "  RecLock('PD3', .T.)" +:+ newline
    +:+ "  PD3->PD3_COD := cCod".

Definition crudSource3 : string :=
  "User Function XALT()" +:+ newline +:+ "  RecLock('PD3', .F.)" +:+ newline
    +:+ "  PD3->PD3_COD := cCod" +:+ newline +:+ "  PD3->(MsUnlock())".

Definition customTree : FileSystem :=
  {| readdir := fun dir =>
       if String.eqb dir "/hml"
       then Some [ {| name := "U_XINC.prw"; kind := RegularFile |};
                   {| name := "U_XBRW.prw"; kind := RegularFile |};
                   {| name := "U_XALT.prw"; kind := RegularFile |} ]
       else None;
     readFile := fun _ path =>
       if String.eqb path "/hml/U_XINC.prw" then Some crudSource2
       else if String.eqb path "/hml/U_XBRW.prw" then Some browseSource
       else if String.eqb path "/hml/U_XALT.prw" then Some crudSource3
       else None;
     access := fun _ => false |}.

Definition manualLookup : RelatorioRotinaParams :=
  {| param_routine := Some "PCMCTF43";
     param_action := None;
     param_env := None;
     param_repoPath := Some "/nowhere";
     param_table := None;
     param_includeStandard := None;
     param_maxResults := None |}.

(** What steps 1 and 2 of [execute] make of [manualLookup]. *)
Definition manualResolved : Resolved :=
  {| res_routine := "PCMCTF43";
     res_action := "renderReportMarkdown";
     res_normalized :=
       {| original := "PCMCTF43";
          baseName := "PCMCTF43";
          baseNameUpper := "PCMCTF43";
          withPrefix := "U_PCMCTF43";
          withoutPrefix := "PCMCTF43";
          variations :=
            ["PCMCTF43"; "U_PCMCTF43";
             "PCMCTF43.prw"; "U_PCMCTF43.prw"; "PCMCTF43.PRW"; "U_PCMCTF43.PRW";
             "PCMCTF43.tlpp"; "U_PCMCTF43.tlpp"; "PCMCTF43.TLPP"; "U_PCMCTF43.TLPP";
             "PCMCTF43.prx"; "U_PCMCTF43.prx"; "PCMCTF43.PRX"; "U_PCMCTF43.PRX"] |};
     res_env := "MANUAL";
     res_repoPath := "/nowhere";
     res_isStandard := false |}.

(** A source tree with the routine right under the root, in upper case. *)
Definition directHit : FileSystem :=
  {| readdir := fun dir =>
       if String.eqb dir "/src"
       then Some [ {| name := "PCMCTF43.PRW"; kind := RegularFile |} ]
       else None;
     readFile := fun _ path =>
       if String.eqb path "/src/PCMCTF43.PRW"
       then Some "User Function PCMCTF43()"
       else None;
     access := fun path => String.eqb path "/src/PCMCTF43.PRW" |}.

Definition lookupIn (env name : string) : RelatorioRotinaParams :=
  {| param_routine := Some name;
     param_action := Some "analyzeRoutine";
     param_env := Some env;
     param_repoPath := None;
     param_table := None;
     param_includeStandard := None;
     param_maxResults := None |}.

Definition manualIn (root name : string) : RelatorioRotinaParams :=
  {| param_routine := Some name;
     param_action := Some "getSourceCode";
     param_env := Some "PRD";
     param_repoPath := Some root;
     param_table := None;
     param_includeStandard := None;
     param_maxResults := None |}.

Definition searchRows (maxResults : Z) : list TableSearchResult :=
  results (fst (executeSearchByTable customTree initialState "PD3" "/hml" false
                                     maxResults)).

End Sample.

(** * Properties *)

(** ** Strings *)

Lemma app_cons (c : ascii) (s t : string) :
  String c s +:+ t = String c (s +:+ t).
Proof. reflexivity. Qed.

Lemma app_empty_l (s : string) : EmptyString +:+ s = s.
Proof. reflexivity. Qed.

Lemma app_empty_r (s : string) : s +:+ EmptyString = s.
Proof. induction s as [|c s IH]; [reflexivity|]. rewrite app_cons. f_equal. exact IH. Qed.

Lemma app_assoc_str (a b c : string) : (a +:+ b) +:+ c = a +:+ (b +:+ c).
Proof.
  induction a as [|x a IH]; [reflexivity|].
  rewrite !app_cons. f_equal. exact IH.
Qed.

Lemma length_app_str (a b : string) :
  String.length (a +:+ b) = String.length a + String.length b.
Proof.
  induction a as [|x a IH]; [reflexivity|].
  rewrite app_cons. simpl. f_equal. exact IH.
Qed.

Lemma startsWith_app (s p : string) :
  Str.startsWith s p = true -> s = p +:+ Str.dropChars (String.length p) s.
Proof.
  revert s. induction p as [|a p IH]; intros s H.
  - reflexivity.
  - destruct s as [|b s]; simpl in H; [discriminate|].
    apply andb_true_iff in H as [Hab Hrest].
    apply Ascii.eqb_eq in Hab. subst b.
    rewrite app_cons. simpl. f_equal. apply IH. exact Hrest.
Qed.

Lemma trim_empty : Str.trim EmptyString = EmptyString.
Proof. reflexivity. Qed.

(** ** De-duplication keeps the first occurrences and nothing else *)

Lemma uniqueInto_elem (xs seen : list string) (x : string) :
  x ∈ Str.uniqueInto seen xs <-> x ∈ seen \/ x ∈ xs.
Proof.
  revert seen. induction xs as [|y xs IH]; intros seen; simpl.
  - rewrite elem_of_nil. tauto.
  - case_bool_decide as Hy; rewrite IH, ?elem_of_app, !elem_of_cons,
      ?elem_of_nil.
    + intuition (subst; auto).
    + tauto.
Qed.

Lemma uniqueInto_NoDup (xs seen : list string) :
  NoDup seen -> NoDup (Str.uniqueInto seen xs).
Proof.
  revert seen. induction xs as [|y xs IH]; intros seen Hseen; simpl.
  - exact Hseen.
  - case_bool_decide as Hy.
    + apply IH. exact Hseen.
    + apply IH. apply NoDup_app. split; [exact Hseen|]. split.
      * intros z Hz Hz'. apply list_elem_of_singleton in Hz'. subst z. contradiction.
      * apply NoDup_singleton.
Qed.

Lemma unique_NoDup (xs : list string) : NoDup (Str.unique xs).
Proof. apply uniqueInto_NoDup. constructor. Qed.

Lemma unique_elem (xs : list string) (x : string) : x ∈ Str.unique xs <-> x ∈ xs.
Proof. unfold Str.unique. rewrite uniqueInto_elem, elem_of_nil. tauto. Qed.

(** ** NameResolver *)

Lemma ending_lengths (e : string) :
  e ∈ endings ->
  String.length e = 0 \/ String.length e = 4 \/ String.length e = 5.
Proof.
  unfold endings, extensions. intros H.
  repeat (apply elem_of_cons in H as [-> | H]; [simpl; lia|]).
  inversion H.
Qed.

Lemma candidates_NoDup (w : string) :
  NoDup (candidatesOf w ++ candidatesOf ("U_" +:+ w)).
Proof.
  assert (Hend : NoDup endings).
  { apply (bool_decide_unpack (NoDup endings)). vm_compute. exact I. }
  apply NoDup_app. split; [|split].
  - apply (NoDup_fmap_2 (String.append w)). exact Hend.
  - intros x Hx Hx'.
    apply list_elem_of_fmap in Hx as [e1 [-> He1]].
    apply list_elem_of_fmap in Hx' as [e2 [Heq He2]].
    apply (f_equal String.length) in Heq.
    rewrite !length_app_str in Heq. simpl in Heq.
    apply ending_lengths in He1, He2. lia.
  - apply (NoDup_fmap_2 (String.append ("U_" +:+ w))). exact Hend.
Qed.

Lemma normalize_returns (routineName : string) :
  Str.trim routineName <> EmptyString ->
  exists n, normalizeRoutineName routineName = Returns n
    /\ original n = Str.trim routineName
    /\ withPrefix n = "U_" +:+ withoutPrefix n
    /\ variations n =
         Str.unique
           ([baseName n; baseNameUpper n; withPrefix n; withoutPrefix n]
            ++ flat_map
                 (fun ext =>
                    map (fun b => b +:+ ext)
                        [baseName n; baseNameUpper n; withPrefix n; withoutPrefix n])
                 extensions).
Proof.
  intros Htrim. unfold normalizeRoutineName.
  destruct (String.eqb_spec routineName EmptyString) as [-> | _].
  { exfalso. apply Htrim. reflexivity. }
  destruct (String.eqb_spec (Str.trim routineName) EmptyString) as [E | _]; [contradiction|].
  eexists. split; [reflexivity|]. cbn [original withPrefix withoutPrefix variations
                                       baseName baseNameUpper].
  split; [reflexivity|]. split; [|reflexivity].
  destruct (Str.startsWith _ "U_") eqn:Hp; [|reflexivity].
  apply startsWith_app in Hp. exact Hp.
Qed.

Lemma candidates_in_variations (n : NormalizedRoutine) (routineName x : string) :
  normalizeRoutineName routineName = Returns n ->
  x ∈ candidatesOf (withoutPrefix n) ++ candidatesOf (withPrefix n) ->
  x ∈ variations n.
Proof.
  intros Hn Hx.
  assert (Htrim : Str.trim routineName <> EmptyString).
  { unfold normalizeRoutineName in Hn.
    destruct (String.eqb_spec routineName EmptyString); [discriminate|].
    destruct (String.eqb_spec (Str.trim routineName) EmptyString); [discriminate|assumption]. }
  destruct (normalize_returns routineName Htrim) as (n' & Hn' & _ & _ & Hvars).
  rewrite Hn in Hn'. injection Hn' as <-.
  rewrite Hvars. apply unique_elem.
  unfold candidatesOf, endings, extensions in Hx. simpl in Hx.
  rewrite !app_empty_r in Hx.
  simpl. rewrite !elem_of_cons in *. rewrite elem_of_nil in *. tauto.
Qed.

(** There are always at least fourteen distinct candidates. *)
Lemma variations_length (n : NormalizedRoutine) (routineName : string) :
  normalizeRoutineName routineName = Returns n ->
  14 <= List.length (variations n).
Proof.
  intros Hn.
  assert (Htrim : Str.trim routineName <> EmptyString).
  { unfold normalizeRoutineName in Hn.
    destruct (String.eqb_spec routineName EmptyString); [discriminate|].
    destruct (String.eqb_spec (Str.trim routineName) EmptyString); [discriminate|assumption]. }
  destruct (normalize_returns routineName Htrim) as (n' & Hn' & _ & Hwith & _).
  rewrite Hn in Hn'. injection Hn' as <-.
  pose proof (candidates_NoDup (withoutPrefix n)) as Hnd.
  rewrite <- Hwith in Hnd.
  apply NoDup_submseteq with (k := variations n) in Hnd.
  - apply submseteq_length in Hnd. rewrite length_app in Hnd.
    unfold candidatesOf in Hnd. rewrite !length_map in Hnd. simpl in Hnd. lia.
  - intros x Hx. eapply candidates_in_variations; eauto.
Qed.

(** C5, as the code has it. A name with something left after trimming is
    normalised, and its list of candidate file names is not empty and has
    no duplicate; the method reads no state, so two calls on one name give
    one list. The name [U_PCMCTF43.prw] has base name [U_PCMCTF43],
    prefix-stripped form [PCMCTF43], and both [PCMCTF43.prw] and
    [U_PCMCTF43.PRW] among its candidates. *)
Theorem normalizeRoutineName_variations :
  (forall routineName : string,
      Str.trim routineName <> EmptyString ->
      exists n,
        normalizeRoutineName routineName = Returns n
        /\ variations n <> []
        /\ NoDup (variations n)
        /\ forall n', normalizeRoutineName routineName = Returns n' ->
                      variations n' = variations n)
  /\ exists n,
       normalizeRoutineName "U_PCMCTF43.prw" = Returns n
       /\ baseName n = "U_PCMCTF43"
       /\ withoutPrefix n = "PCMCTF43"
       /\ "PCMCTF43.prw" ∈ variations n
       /\ "U_PCMCTF43.PRW" ∈ variations n.
Proof.
  split.
  - intros routineName Htrim.
    destruct (normalize_returns routineName Htrim) as (n & Hn & _ & _ & Hvars).
    exists n. split; [exact Hn|]. split; [|split].
    + pose proof (variations_length n routineName Hn) as Hlen.
      intros E. rewrite E in Hlen. simpl in Hlen. lia.
    + rewrite Hvars. apply unique_NoDup.
    + intros n' Hn'. rewrite Hn in Hn'. injection Hn' as <-. reflexivity.
  - eexists. split; [vm_compute; reflexivity|].
    cbn [baseName withoutPrefix variations].
    repeat split; apply (bool_decide_unpack _); vm_compute; exact I.
Qed.

Lemma normalizeRoutineName_variations_witness :
  Str.trim "mata010.TLPP" <> EmptyString
  /\ exists n,
       normalizeRoutineName "mata010.TLPP" = Returns n
       /\ variations n <> []
       /\ NoDup (variations n)
       /\ forall n', normalizeRoutineName "mata010.TLPP" = Returns n' ->
                     variations n' = variations n.
Proof.
  split.
  - vm_compute. discriminate.
  - apply (proj1 normalizeRoutineName_variations "mata010.TLPP").
    vm_compute. discriminate.
Defined.

(** C5 as stated fails on a name made of white space: it is not the empty
    string, and the method throws instead of giving a list. *)
Lemma normalizeRoutineName_blank_throws :
  " " <> EmptyString
  /\ normalizeRoutineName " " = Throws "Nome da rotina nao pode ser vazio."
  /\ ~ exists n, normalizeRoutineName " " = Returns n.
Proof.
  split; [discriminate|]. split; [vm_compute; reflexivity|].
  intros [n Hn]. vm_compute in Hn. discriminate.
Qed.

(** ** Orchestrator: the not-found answer *)

Lemma join_map_contains (f : string -> string) (sep v : string) (l : list string) :
  v ∈ l -> exists pre post, Str.join sep (map f l) = pre +:+ f v +:+ post.
Proof.
  induction l as [|x l IH]; intros Hv.
  - inversion Hv.
  - apply elem_of_cons in Hv as [-> | Hv].
    + destruct l as [|y l].
      * exists EmptyString, EmptyString. simpl. rewrite app_empty_r. reflexivity.
      * exists EmptyString, (sep +:+ Str.join sep (map f (y :: l))). reflexivity.
    + destruct (IH Hv) as (pre & post & E).
      destruct l as [|y l]; [inversion Hv|].
      exists (f x +:+ sep +:+ pre), post.
      change (Str.join sep (map f (x :: y :: l)))
        with (f x +:+ sep +:+ Str.join sep (map f (y :: l))).
      rewrite E, !app_assoc_str. reflexivity.
Qed.

Lemma notFoundMessage_lists (routineName finalEnv root v : string)
    (vars : list string) :
  v ∈ firstn 10 vars ->
  exists pre post,
    notFoundMessage routineName finalEnv root vars = pre +:+ "  - " +:+ v +:+ post.
Proof.
  intros Hv.
  destruct (join_map_contains (fun v => "  - " +:+ v) newline v _ Hv)
    as (pre & post & E).
  unfold notFoundMessage. rewrite E.
  exists ("Rotina " +:+ dquote +:+ routineName +:+ dquote +:+ " nao encontrada em "
            +:+ finalEnv +:+ "." +:+ newline +:+ newline
            +:+ "Caminho pesquisado: " +:+ root +:+ newline
            +:+ "Variacoes procuradas:" +:+ newline +:+ pre),
         (post +:+ newline
            +:+ (if Nat.ltb 10 (List.length vars)
                 then "  ... e mais " +:+ pretty (List.length vars - 10)
                      +:+ " variacoes"
                 else EmptyString)).
  rewrite !app_assoc_str. reflexivity.
Qed.

Lemma resolveRoutine_normalized (fs : FileSystem) (processEnv : gmap string string)
    (st st1 : State) (params : RelatorioRotinaParams) (r : Resolved) :
  resolveRoutine fs processEnv st params = (inr r, st1) ->
  normalizeRoutineName (res_routine r) = Returns (res_normalized r).
Proof.
  unfold resolveRoutine. intros H.
  destruct (truthy (param_routine params)) as [routineName|]; [|discriminate].
  destruct (normalizeRoutineName routineName) as [n|m] eqn:Hn; [|discriminate].
  destruct (truthy (param_repoPath params)).
  { injection H as <- _. exact Hn. }
  destruct (isStandardRoutine fs st (baseNameUpper n) None) as [isStd st'].
  destruct isStd.
  - destruct (getRepoPath processEnv "STANDARD"); [|discriminate].
    injection H as <- _. exact Hn.
  - destruct (getRepoPath processEnv _); [|discriminate].
    injection H as <- _. exact Hn.
Qed.

(** C9. When the root has been resolved and the lookup under it finds no
    file, [execute] answers with the not-found value (it does not throw):
    the answer carries the searched root, its diagnostic payload holds the
    whole list of candidates, there are at least ten of them, and the
    message has a line for each of the first ten. *)
Theorem execute_not_found (fs : FileSystem) (processEnv : gmap string string)
    (st st1 : State) (params : RelatorioRotinaParams) (r : Resolved) :
  default "renderReportMarkdown" (param_action params) <> "searchByTable" ->
  resolveRoutine fs processEnv st params = (inr r, st1) ->
  findRoutineFile fs (res_repoPath r) (res_normalized r) = None ->
  exists info,
    execute fs processEnv st params = (NotFound info, st1)
    /\ nf_repoPath info = res_repoPath r
    /\ nf_searchedPath info = res_repoPath r
    /\ nf_searchedVariations info = variations (res_normalized r)
    /\ variations (nf_normalized info) = nf_searchedVariations info
    /\ 10 <= List.length (nf_searchedVariations info)
    /\ forall (i : nat) (v : string),
         i < 10 -> nf_searchedVariations info !! i = Some v ->
         exists pre post, nf_message info = pre +:+ "  - " +:+ v +:+ post.
Proof.
  intros Haction Hres Hfind.
  unfold execute.
  destruct (String.eqb_spec (default "renderReportMarkdown" (param_action params))
                            "searchByTable") as [E | _]; [contradiction|].
  rewrite Hres. unfold locateAndRun. rewrite Hfind.
  eexists. split; [reflexivity|].
  cbn [nf_repoPath nf_searchedPath nf_searchedVariations nf_normalized nf_message].
  repeat split.
  - pose proof (variations_length _ _ (resolveRoutine_normalized _ _ _ _ _ _ Hres)).
    lia.
  - intros i v Hi Hv. apply notFoundMessage_lists.
    apply list_elem_of_lookup. exists i.
    rewrite lookup_take_lt by exact Hi. exact Hv.
Qed.

Lemma execute_not_found_witness :
  exists info,
    execute Sample.noFiles ∅ initialState Sample.manualLookup
      = (NotFound info, initialState)
    /\ nf_repoPath info = res_repoPath Sample.manualResolved
    /\ nf_searchedPath info = res_repoPath Sample.manualResolved
    /\ nf_searchedVariations info = variations (res_normalized Sample.manualResolved)
    /\ variations (nf_normalized info) = nf_searchedVariations info
    /\ 10 <= List.length (nf_searchedVariations info)
    /\ forall (i : nat) (v : string),
         i < 10 -> nf_searchedVariations info !! i = Some v ->
         exists pre post, nf_message info = pre +:+ "  - " +:+ v +:+ post.
Proof.
  apply (execute_not_found Sample.noFiles ∅ initialState initialState
                           Sample.manualLookup Sample.manualResolved).
  - vm_compute. discriminate.
  - vm_compute. reflexivity.
  - vm_compute. reflexivity.
Defined.

(** ** RoutineClassifier: the cache *)

Lemma isStandardRoutine_hit (fs : FileSystem) (st : State) (routineName : string)
    (path : option string) (b : bool) :
  standardPrefixCache st !! cacheKey routineName = Some b ->
  isStandardRoutine fs st routineName path = (b, st).
Proof. intros H. unfold isStandardRoutine. rewrite H. reflexivity. Qed.

Lemma analyzeFileContent_cache (fs : FileSystem) (st : State) (p : string) :
  standardPrefixCache (snd (analyzeFileContent fs st p)) = standardPrefixCache st.
Proof. unfold analyzeFileContent. destruct (readFile fs Utf8 p); reflexivity. Qed.

(** The cache after a miss: the old one with the new decision added. *)
Lemma isStandardRoutine_miss (fs : FileSystem) (st : State) (routineName : string)
    (path : option string) :
  standardPrefixCache st !! cacheKey routineName = None ->
  standardPrefixCache (snd (isStandardRoutine fs st routineName path))
  = <[cacheKey routineName := fst (isStandardRoutine fs st routineName path)]>
      (standardPrefixCache st).
Proof.
  intros H. unfold isStandardRoutine. rewrite H.
  destruct (Str.startsWith (Str.toUpperCase routineName) "U_"); [reflexivity|].
  destruct (matchesKnownPrefix st (cacheKey routineName)); [reflexivity|].
  destruct (truthy path) as [p|].
  - pose proof (analyzeFileContent_cache fs st p) as Hc.
    destruct (analyzeFileContent fs st p) as [b st1]. simpl in *.
    rewrite Hc. reflexivity.
  - destruct (Re.testAtStart namingPattern (cacheKey routineName)); reflexivity.
Qed.

Lemma isStandardRoutine_records (fs : FileSystem) (st : State)
    (routineName : string) (path : option string) :
  standardPrefixCache (snd (isStandardRoutine fs st routineName path))
    !! cacheKey routineName
  = Some (fst (isStandardRoutine fs st routineName path)).
Proof.
  destruct (standardPrefixCache st !! cacheKey routineName) as [b|] eqn:H.
  - rewrite (isStandardRoutine_hit _ _ _ _ _ H). exact H.
  - rewrite (isStandardRoutine_miss _ _ _ _ H). apply lookup_insert_eq.
Qed.

Lemma isStandardRoutine_keeps (fs : FileSystem) (st : State)
    (routineName : string) (path : option string) (k : string) (b : bool) :
  standardPrefixCache st !! k = Some b ->
  standardPrefixCache (snd (isStandardRoutine fs st routineName path)) !! k = Some b.
Proof.
  intros Hk.
  destruct (standardPrefixCache st !! cacheKey routineName) as [b'|] eqn:H.
  - rewrite (isStandardRoutine_hit _ _ _ _ _ H). exact Hk.
  - rewrite (isStandardRoutine_miss _ _ _ _ H).
    rewrite lookup_insert_ne; [exact Hk|]. intros E. rewrite E in H. congruence.
Qed.

Lemma discoverStandardPrefixes_cache (fs : FileSystem) (st : State)
    (repoPath : string) :
  standardPrefixCache (discoverStandardPrefixes fs st repoPath)
  = standardPrefixCache st.
Proof.
  unfold discoverStandardPrefixes.
  generalize (getAllFilesRecursive fs repoPath sourceExtensions 5 0).
  intros files.
  change (standardPrefixCache st)
    with (standardPrefixCache (logEvent (EvDiscovery repoPath) st)).
  generalize (logEvent (EvDiscovery repoPath) st). clear st.
  induction files as [|file files IH]; intros st; simpl; [reflexivity|].
  rewrite IH. unfold discoverFile.
  pose proof (analyzeFileContent_cache fs st file) as Hc.
  destruct (analyzeFileContent fs st file) as [isStandard st1]. simpl in Hc.
  destruct isStandard; [|exact Hc].
  destruct (Re.matchAtStart prefixPattern _) as [[|prefix texts]|]; exact Hc.
Qed.

Lemma searchLoop_keeps (fs : FileSystem) (tableUpper : string)
    (includeStandard : bool) (maxResults : Z) (files : list string) (st : State)
    (rows : list TableSearchResult) (k : string) (b : bool) :
  standardPrefixCache st !! k = Some b ->
  standardPrefixCache
    (snd (searchLoop fs tableUpper includeStandard maxResults files st rows)) !! k
  = Some b.
Proof.
  revert st rows. induction files as [|filePath rest IH]; intros st rows Hk; simpl.
  - exact Hk.
  - destruct (readFile fs Latin1 filePath) as [content|]; [|apply IH; exact Hk].
    destruct (hasTableReference _ tableUpper); simpl; [|apply IH; exact Hk].
    pose proof (isStandardRoutine_keeps fs (logEvent (EvReadFile Latin1 filePath) st)
                  (Path.basenameWithout filePath (Path.extname filePath))
                  (Some filePath) k b Hk) as Hk1.
    destruct (isStandardRoutine fs _ _ _) as [isStandard st1]. simpl in Hk1.
    destruct (isStandard && negb includeStandard); [apply IH; exact Hk1|].
    destruct (_ >=? maxResults)%Z; [exact Hk1 | apply IH; exact Hk1].
Qed.

Lemma executeSearchByTable_keeps (fs : FileSystem) (st : State)
    (tableName repoPath : string) (includeStandard : bool) (maxResults : Z)
    (k : string) (b : bool) :
  standardPrefixCache st !! k = Some b ->
  standardPrefixCache
    (snd (executeSearchByTable fs st tableName repoPath includeStandard maxResults))
    !! k = Some b.
Proof.
  intros Hk. unfold executeSearchByTable.
  pose proof (searchLoop_keeps fs (Str.toUpperCase tableName) includeStandard
                maxResults (getAllFilesRecursive fs repoPath sourceExtensions 5 0)
                st [] k b Hk) as H.
  destruct (searchLoop _ _ _ _ _ _ _) as [found st']. exact H.
Qed.

Lemma locateAndRun_state (fs : FileSystem) (st : State) (r : Resolved) :
  snd (locateAndRun fs st r) = st.
Proof.
  unfold locateAndRun. destruct (findRoutineFile fs _ _); [|reflexivity].
  destruct (includesString knownActions _); reflexivity.
Qed.

Lemma execute_keeps (fs : FileSystem) (processEnv : gmap string string)
    (st : State) (params : RelatorioRotinaParams) (k : string) (b : bool) :
  standardPrefixCache st !! k = Some b ->
  standardPrefixCache (snd (execute fs processEnv st params)) !! k = Some b.
Proof.
  intros Hk. unfold execute.
  destruct (String.eqb _ "searchByTable").
  - unfold searchAction.
    destruct (truthy (param_table params)) as [tableName|]; [|exact Hk].
    destruct (truthy (param_repoPath params)) as [manual|].
    + pose proof (executeSearchByTable_keeps fs st tableName manual
                    (default false (param_includeStandard params))
                    (default 50%Z (param_maxResults params)) k b Hk) as H.
      destruct (executeSearchByTable _ _ _ _ _ _). exact H.
    + destruct (getRepoPath processEnv _) as [root|]; [|exact Hk].
      pose proof (executeSearchByTable_keeps fs st tableName root
                    (default false (param_includeStandard params))
                    (default 50%Z (param_maxResults params)) k b Hk) as H.
      destruct (executeSearchByTable _ _ _ _ _ _). exact H.
  - assert (H : standardPrefixCache (snd (resolveRoutine fs processEnv st params))
                  !! k = Some b).
    { unfold resolveRoutine.
      destruct (truthy (param_routine params)) as [routineName|]; [|exact Hk].
      destruct (normalizeRoutineName routineName) as [n|]; [|exact Hk].
      destruct (truthy (param_repoPath params)); [exact Hk|].
      pose proof (isStandardRoutine_keeps fs st (baseNameUpper n) None k b Hk) as H1.
      destruct (isStandardRoutine fs st (baseNameUpper n) None) as [isStandard st1].
      simpl in H1. destruct isStandard.
      - destruct (getRepoPath processEnv "STANDARD"); [|exact H1]. simpl.
        destruct (Nat.eqb _ 0); [|exact H1].
        rewrite discoverStandardPrefixes_cache. exact H1.
      - destruct (getRepoPath processEnv _); exact H1. }
    destruct (resolveRoutine fs processEnv st params) as [[answer | r] st1];
      [exact H|].
    rewrite locateAndRun_state. exact H.
Qed.

Lemma runCalls_keeps (calls : list Call) (st : State) (k : string) (b : bool) :
  standardPrefixCache st !! k = Some b ->
  standardPrefixCache (runCalls st calls) !! k = Some b.
Proof.
  revert st. induction calls as [|c calls IH]; intros st Hk.
  - exact Hk.
  - simpl. apply IH. destruct c; simpl.
    + apply isStandardRoutine_keeps. exact Hk.
    + rewrite discoverStandardPrefixes_cache. exact Hk.
    + apply executeSearchByTable_keeps. exact Hk.
    + apply execute_keeps. exact Hk.
Qed.

(** C4. Once a name has been classified, a later call whose stripped,
    upper-cased name is the same returns the same boolean, whatever rule
    produced it and whatever the tool was asked in between, and leaves the
    state as it was: nothing is added to the trace, so no file is read. *)
Theorem isStandardRoutine_memoized (fs1 fs2 : FileSystem) (st : State)
    (name1 name2 : string) (path1 path2 : option string) (calls : list Call) :
  cacheKey name2 = cacheKey name1 ->
  let first := isStandardRoutine fs1 st name1 path1 in
  let st2 := runCalls (snd first) calls in
  isStandardRoutine fs2 st2 name2 path2 = (fst first, st2)
  /\ readCount (snd (isStandardRoutine fs2 st2 name2 path2)) = readCount st2.
Proof.
  intros Hkey first st2.
  assert (H : isStandardRoutine fs2 st2 name2 path2 = (fst first, st2)).
  { apply isStandardRoutine_hit. rewrite Hkey.
    apply runCalls_keeps. apply isStandardRoutine_records. }
  split; [exact H|]. rewrite H. reflexivity.
Qed.

Lemma isStandardRoutine_memoized_witness :
  cacheKey "u_xalt" = cacheKey "XALT"
  /\ fst (isStandardRoutine Sample.noFiles
            (runCalls
               (snd (isStandardRoutine Sample.customTree initialState "XALT"
                                       (Some "/hml/U_XALT.prw")))
               [CallClassify Sample.noFiles "MATA010" None;
                CallExecute Sample.emptyVendorTree Sample.vendorEnv
                            (Sample.lookup "MATA010")])
            "u_xalt" (Some "/hml/U_XALT.prw"))
     = false.
Proof.
  split; [vm_compute; reflexivity|].
  rewrite (proj1 (isStandardRoutine_memoized Sample.customTree Sample.noFiles
                    initialState "XALT" "u_xalt" (Some "/hml/U_XALT.prw")
                    (Some "/hml/U_XALT.prw")
                    [CallClassify Sample.noFiles "MATA010" None;
                     CallExecute Sample.emptyVendorTree Sample.vendorEnv
                                 (Sample.lookup "MATA010")]
                    ltac:(vm_compute; reflexivity))).
  vm_compute. reflexivity.
Defined.

(** A name with the custom prefix is classified custom on a cache miss;
    on a hit it gets what the cache holds for the stripped name. *)
Lemma isStandardRoutine_custom_prefix (fs : FileSystem) (st : State)
    (routineName : string) (path : option string) :
  Str.startsWith (Str.toUpperCase routineName) "U_" = true ->
  fst (isStandardRoutine fs st routineName path)
  = default false (standardPrefixCache st !! cacheKey routineName).
Proof.
  intros Hp. unfold isStandardRoutine.
  destruct (standardPrefixCache st !! cacheKey routineName); [reflexivity|].
  rewrite Hp. reflexivity.
Qed.

(** C1 at its failing input. In a fresh process [MATA010] is classified
    first (standard, by the prefix table); the cache entry it leaves is
    keyed by the stripped name, so the following call for [U_MATA010],
    which carries the custom prefix, is answered [true] from the cache. *)
Theorem isStandardRoutine_prefixed_after_plain :
  let first := isStandardRoutine Sample.noFiles initialState "MATA010" None in
  let second := isStandardRoutine Sample.noFiles (snd first) "U_MATA010" None in
  Str.startsWith (Str.toUpperCase "U_MATA010") "U_" = true
  /\ fst first = true
  /\ fst second = true.
Proof. vm_compute. auto. Qed.

(** The same through [execute]: after a lookup of [MATA010], the lookup of
    [U_MATA010] is sent to the vendor tree as a standard routine. *)
Example execute_prefixed_after_plain :
  let first :=
    execute Sample.emptyVendorTree Sample.vendorEnv initialState
            (Sample.lookup "MATA010") in
  match execute Sample.emptyVendorTree Sample.vendorEnv (snd first)
                (Sample.lookup "U_MATA010") with
  | (NotFound info, _) => nf_isStandard info = true /\ nf_env info = "STANDARD"
  | _ => False
  end.
Proof. vm_compute. auto. Qed.

(** ** The discovery pass *)

Lemma sameDiscovery_refl (st : State) : sameDiscovery st st.
Proof. split; reflexivity. Qed.

Lemma sameDiscovery_trans (st1 st2 st3 : State) :
  sameDiscovery st1 st2 -> sameDiscovery st2 st3 -> sameDiscovery st1 st3.
Proof. intros [H1 H2] [H3 H4]. split; congruence. Qed.

Lemma sameDiscovery_read (enc : Encoding) (path : string) (st : State) :
  sameDiscovery st (logEvent (EvReadFile enc path) st).
Proof.
  split; [reflexivity|]. unfold discoveryCount, logEvent. simpl.
  rewrite List.filter_app. simpl. rewrite app_nil_r. reflexivity.
Qed.

Lemma sameDiscovery_cacheSet (k : string) (v : bool) (st : State) :
  sameDiscovery st (cacheSet k v st).
Proof. split; reflexivity. Qed.

Lemma analyzeFileContent_sameDiscovery (fs : FileSystem) (st : State) (p : string) :
  sameDiscovery st (snd (analyzeFileContent fs st p)).
Proof.
  unfold analyzeFileContent.
  destruct (readFile fs Utf8 p); apply sameDiscovery_read.
Qed.

Lemma isStandardRoutine_sameDiscovery (fs : FileSystem) (st : State)
    (routineName : string) (path : option string) :
  sameDiscovery st (snd (isStandardRoutine fs st routineName path)).
Proof.
  unfold isStandardRoutine.
  destruct (standardPrefixCache st !! cacheKey routineName);
    [apply sameDiscovery_refl|].
  destruct (Str.startsWith (Str.toUpperCase routineName) "U_");
    [apply sameDiscovery_cacheSet|].
  destruct (matchesKnownPrefix st (cacheKey routineName));
    [apply sameDiscovery_cacheSet|].
  destruct (truthy path) as [p|].
  - pose proof (analyzeFileContent_sameDiscovery fs st p) as H.
    destruct (analyzeFileContent fs st p) as [b st1]. simpl in *.
    eapply sameDiscovery_trans; [exact H | apply sameDiscovery_cacheSet].
  - destruct (Re.testAtStart namingPattern _); apply sameDiscovery_cacheSet.
Qed.

Lemma searchLoop_sameDiscovery (fs : FileSystem) (tableUpper : string)
    (includeStandard : bool) (maxResults : Z) (files : list string) (st : State)
    (rows : list TableSearchResult) :
  sameDiscovery st
    (snd (searchLoop fs tableUpper includeStandard maxResults files st rows)).
Proof.
  revert st rows. induction files as [|filePath rest IH]; intros st rows; simpl.
  - apply sameDiscovery_refl.
  - pose proof (sameDiscovery_read Latin1 filePath st) as H0.
    destruct (readFile fs Latin1 filePath) as [content|];
      [|eapply sameDiscovery_trans; [exact H0 | apply IH]].
    destruct (hasTableReference _ tableUpper); simpl;
      [|eapply sameDiscovery_trans; [exact H0 | apply IH]].
    pose proof (isStandardRoutine_sameDiscovery fs
                  (logEvent (EvReadFile Latin1 filePath) st)
                  (Path.basenameWithout filePath (Path.extname filePath))
                  (Some filePath)) as H1.
    destruct (isStandardRoutine fs _ _ _) as [isStandard st1]. simpl in H1.
    pose proof (sameDiscovery_trans _ _ _ H0 H1) as H2.
    destruct (isStandard && negb includeStandard);
      [eapply sameDiscovery_trans; [exact H2 | apply IH]|].
    destruct (_ >=? maxResults)%Z;
      [exact H2 | eapply sameDiscovery_trans; [exact H2 | apply IH]].
Qed.

Lemma executeSearchByTable_sameDiscovery (fs : FileSystem) (st : State)
    (tableName repoPath : string) (includeStandard : bool) (maxResults : Z) :
  sameDiscovery st
    (snd (executeSearchByTable fs st tableName repoPath includeStandard maxResults)).
Proof.
  unfold executeSearchByTable.
  pose proof (searchLoop_sameDiscovery fs (Str.toUpperCase tableName)
                includeStandard maxResults
                (getAllFilesRecursive fs repoPath sourceExtensions 5 0) st []) as H.
  destruct (searchLoop _ _ _ _ _ _ _) as [found st']. exact H.
Qed.

(** The guard as it is written: once [discoveredPrefixes] holds a prefix,
    no call of [execute] runs the discovery pass or changes the set. *)
Lemma execute_discovery_guard (fs : FileSystem) (processEnv : gmap string string)
    (st : State) (params : RelatorioRotinaParams) :
  size (discoveredPrefixes st) <> 0 ->
  sameDiscovery st (snd (execute fs processEnv st params)).
Proof.
  intros Hsize. unfold execute.
  destruct (String.eqb _ "searchByTable").
  - unfold searchAction.
    destruct (truthy (param_table params)) as [tableName|];
      [|apply sameDiscovery_refl].
    destruct (truthy (param_repoPath params)) as [manual|].
    + pose proof (executeSearchByTable_sameDiscovery fs st tableName manual
                    (default false (param_includeStandard params))
                    (default 50%Z (param_maxResults params))) as H.
      destruct (executeSearchByTable _ _ _ _ _ _). exact H.
    + destruct (getRepoPath processEnv _) as [root|]; [|apply sameDiscovery_refl].
      pose proof (executeSearchByTable_sameDiscovery fs st tableName root
                    (default false (param_includeStandard params))
                    (default 50%Z (param_maxResults params))) as H.
      destruct (executeSearchByTable _ _ _ _ _ _). exact H.
  - assert (H : sameDiscovery st (snd (resolveRoutine fs processEnv st params))).
    { unfold resolveRoutine.
      destruct (truthy (param_routine params)) as [routineName|];
        [|apply sameDiscovery_refl].
      destruct (normalizeRoutineName routineName) as [n|];
        [|apply sameDiscovery_refl].
      destruct (truthy (param_repoPath params)); [apply sameDiscovery_refl|].
      pose proof (isStandardRoutine_sameDiscovery fs st (baseNameUpper n) None) as H1.
      destruct (isStandardRoutine fs st (baseNameUpper n) None) as [isStandard st1].
      simpl in H1. destruct isStandard.
      - destruct (getRepoPath processEnv "STANDARD"); [|exact H1]. simpl.
        destruct (Nat.eqb_spec (size (discoveredPrefixes st1)) 0) as [E | _];
          [|exact H1].
        destruct H1 as [Hd _]. rewrite Hd in E. contradiction.
      - destruct (getRepoPath processEnv _); exact H1. }
    destruct (resolveRoutine fs processEnv st params) as [[answer | r] st1];
      [exact H|].
    rewrite locateAndRun_state. exact H.
Qed.

(** C2 at its failing input. The vendor tree is configured and holds no
    source file, so the first pass leaves [discoveredPrefixes] empty; the
    guard of [execute] tests the size of that set, and the second lookup of
    a standard routine runs the pass again. *)
Theorem discovery_runs_again_on_empty_tree :
  let first :=
    execute Sample.emptyVendorTree Sample.vendorEnv initialState
            (Sample.lookup "MATA010") in
  let second :=
    execute Sample.emptyVendorTree Sample.vendorEnv (snd first)
            (Sample.lookup "MATA010") in
  discoveryCount (snd first) = 1
  /\ size (discoveredPrefixes (snd first)) = 0
  /\ discoveryCount (snd second) = 2.
Proof. vm_compute. auto. Qed.

(** ** Table search: the cap on the number of rows *)

Section StableSort.
Context {A : Type} (cmp : A -> A -> Z).

Lemma insertSorted_perm (x : A) (l : list A) : insertSorted cmp x l ≡ₚ x :: l.
Proof.
  induction l as [|y l IH]; simpl; [reflexivity|].
  destruct (cmp x y <? 0)%Z; [reflexivity|].
  rewrite IH. apply Permutation_swap.
Qed.

Lemma sortInto_perm (l acc : list A) :
  fold_left (fun sorted x => insertSorted cmp x sorted) l acc ≡ₚ acc ++ l.
Proof.
  revert acc. induction l as [|x l IH]; intros acc; simpl.
  - rewrite app_nil_r. reflexivity.
  - rewrite IH, insertSorted_perm. apply Permutation_middle.
Qed.

Lemma sortWith_perm (l : list A) : sortWith cmp l ≡ₚ l.
Proof. unfold sortWith. rewrite sortInto_perm. reflexivity. Qed.

Lemma sortWith_length (l : list A) : List.length (sortWith cmp l) = List.length l.
Proof. apply Permutation_length, sortWith_perm. Qed.

Hypothesis cmp_trans :
  forall a b c, (cmp a b <= 0 -> cmp b c <= 0 -> cmp a c <= 0)%Z.
Hypothesis cmp_flip : forall a b, (0 <= cmp a b -> cmp b a <= 0)%Z.

Lemma insertSorted_sorted (x : A) (l : list A) :
  StronglySorted (before cmp) l -> StronglySorted (before cmp) (insertSorted cmp x l).
Proof.
  induction 1 as [|y l Hl IH Hy]; simpl.
  - repeat constructor.
  - destruct (Z.ltb_spec (cmp x y) 0) as [Hlt | Hge].
    + constructor; [constructor; assumption|].
      constructor; [unfold before; lia|].
      eapply Forall_impl; [exact Hy|].
      intros z Hz. unfold before in *. apply (cmp_trans x y z); lia.
    + constructor; [exact IH|].
      rewrite insertSorted_perm. constructor; [|exact Hy].
      apply cmp_flip. exact Hge.
Qed.

Lemma sortInto_sorted (l acc : list A) :
  StronglySorted (before cmp) acc ->
  StronglySorted (before cmp)
    (fold_left (fun sorted x => insertSorted cmp x sorted) l acc).
Proof.
  revert acc. induction l as [|x l IH]; intros acc Hacc; simpl.
  - exact Hacc.
  - apply IH, insertSorted_sorted, Hacc.
Qed.

Lemma sortWith_sorted (l : list A) : StronglySorted (before cmp) (sortWith cmp l).
Proof. apply sortInto_sorted. constructor. Qed.
End StableSort.

Lemma StronglySorted_lookup {A : Type} (R : A -> A -> Prop) (l : list A)
    (i j : nat) (a b : A) :
  StronglySorted R l -> i < j -> l !! i = Some a -> l !! j = Some b -> R a b.
Proof.
  intros Hs. revert i j. induction Hs as [|x l Hl IH Hx]; intros i j Hij Ha Hb.
  - rewrite lookup_nil in Ha. discriminate.
  - destruct j as [|j]; [lia|]. destruct i as [|i]; simpl in *.
    + injection Ha as <-. rewrite Forall_forall in Hx. apply Hx.
      apply list_elem_of_lookup. exists j. exact Hb.
    + apply (IH i j); [lia | exact Ha | exact Hb].
Qed.

Lemma searchLoop_bound (fs : FileSystem) (tableUpper : string)
    (includeStandard : bool) (maxResults : Z) (files : list string) (st : State)
    (rows : list TableSearchResult) :
  (Z.of_nat (List.length rows) < Z.max 1 maxResults)%Z ->
  (Z.of_nat (List.length (fst (searchLoop fs tableUpper includeStandard maxResults
                                          files st rows)))
   <= Z.max 1 maxResults)%Z.
Proof.
  revert st rows. induction files as [|filePath rest IH]; intros st rows Hlt; simpl.
  - lia.
  - destruct (readFile fs Latin1 filePath) as [content|]; [|apply IH; exact Hlt].
    destruct (hasTableReference _ tableUpper); simpl; [|apply IH; exact Hlt].
    destruct (isStandardRoutine fs _ _ _) as [isStandard st1].
    destruct (isStandard && negb includeStandard); [apply IH; exact Hlt|].
    destruct (_ >=? maxResults)%Z eqn:Hcap; rewrite Z.geb_leb in Hcap.
    + apply Z.leb_le in Hcap. simpl. rewrite length_app. simpl. lia.
    + apply Z.leb_gt in Hcap. apply IH. rewrite length_app in *. simpl in *. lia.
Qed.

(** The cap as the loop enforces it: the test comes after the push, so a
    search returns at most [maxResults] rows when that is at least one,
    and at most one row otherwise. *)
Lemma executeSearchByTable_bound (fs : FileSystem) (st : State)
    (tableName repoPath : string) (includeStandard : bool) (maxResults : Z) :
  (Z.of_nat (List.length
               (results (fst (executeSearchByTable fs st tableName repoPath
                                                   includeStandard maxResults))))
   <= Z.max 1 maxResults)%Z.
Proof.
  unfold executeSearchByTable.
  pose proof (searchLoop_bound fs (Str.toUpperCase tableName) includeStandard
                maxResults
                (getAllFilesRecursive fs repoPath sourceExtensions 5 0) st [])
    as Hb.
  destruct (searchLoop _ _ _ _ _ _ _) as [found st']. simpl in *.
  rewrite sortWith_length. apply Hb. lia.
Qed.

(** Three qualifying files and a cap of one: exactly one row. *)
Example search_cap_one : List.length (Sample.searchRows 1) = 1.
Proof. vm_compute. reflexivity. Qed.

(** C3 at its failing input. With [maxResults = 0] the first qualifying
    file is pushed before the length is compared with the cap, and the
    search returns one row. *)
Theorem search_cap_zero_returns_row :
  List.length (Sample.searchRows 50) = 3
  /\ List.length (Sample.searchRows 0) = 1
  /\ (Z.of_nat (List.length (Sample.searchRows 0)) > 0)%Z.
Proof. vm_compute. auto. Qed.

(** ** Table search: the order of the rows *)

Lemma orderOf_typeOrder (r : TableSearchResult) :
  orderOf r = typeOrder (usageType (usage r)).
Proof. unfold orderOf. destruct (usageType (usage r)); reflexivity. Qed.

Lemma typeOrder_inj (t u : UsageType) : typeOrder t = typeOrder u -> t = u.
Proof. destruct t, u; simpl; intros H; try reflexivity; discriminate. Qed.

Lemma compareRows_before (a b : TableSearchResult) :
  before compareRows a b <->
  (typeOrder (usageType (usage a)) < typeOrder (usageType (usage b)))%Z
  \/ (usageType (usage a) = usageType (usage b)
      /\ references (usage b) <= references (usage a)).
Proof.
  unfold before, compareRows. rewrite !orderOf_typeOrder.
  destruct (Z.eqb_spec (typeOrder (usageType (usage a)))
                       (typeOrder (usageType (usage b)))) as [E | N]; simpl.
  - apply typeOrder_inj in E. rewrite E. split.
    + intros H. right. split; [reflexivity | lia].
    + intros [H | [_ H]]; lia.
  - split.
    + intros H. left. lia.
    + intros [H | [E _]]; [lia|]. rewrite E in N. contradiction.
Qed.

Lemma compareRows_trans (a b c : TableSearchResult) :
  (compareRows a b <= 0 -> compareRows b c <= 0 -> compareRows a c <= 0)%Z.
Proof.
  intros Hab Hbc.
  apply (compareRows_before a b) in Hab. apply (compareRows_before b c) in Hbc.
  apply (compareRows_before a c).
  destruct Hab as [Hab | [Eab Rab]], Hbc as [Hbc | [Ebc Rbc]].
  - left. lia.
  - left. rewrite <- Ebc. exact Hab.
  - left. rewrite Eab. exact Hbc.
  - right. split; [congruence | lia].
Qed.

Lemma compareRows_flip (a b : TableSearchResult) :
  (0 <= compareRows a b -> compareRows b a <= 0)%Z.
Proof.
  unfold compareRows. rewrite (Z.eqb_sym (orderOf b)).
  destruct (orderOf a =? orderOf b)%Z; simpl; lia.
Qed.

Lemma executeSearchByTable_sorted (fs : FileSystem) (st : State)
    (tableName repoPath : string) (includeStandard : bool) (maxResults : Z) :
  StronglySorted (before compareRows)
    (results (fst (executeSearchByTable fs st tableName repoPath includeStandard
                                        maxResults))).
Proof.
  unfold executeSearchByTable.
  destruct (searchLoop _ _ _ _ _ _ _) as [found st']. simpl.
  apply sortWith_sorted; [exact compareRows_trans | exact compareRows_flip].
Qed.

(** C7. The ranks are Browse 1, CRUD 2, Query 3, Report 4, Integration 5,
    Other 6. In the rows of a table search, an earlier row never has a
    larger rank than a later one, and of two rows of one category the
    earlier has at least as many occurrences. Hence a row of smaller rank
    stands before every row of larger rank (a Browse row before every CRUD
    row), and within a category a row with more occurrences stands before
    one with fewer. *)
Theorem search_results_ordered (fs : FileSystem) (st : State)
    (tableName repoPath : string) (includeStandard : bool) (maxResults : Z)
    (i j : nat) (a b : TableSearchResult) :
  let rows :=
    results (fst (executeSearchByTable fs st tableName repoPath includeStandard
                                       maxResults)) in
  rows !! i = Some a ->
  rows !! j = Some b ->
  map typeOrder [Browse; CRUD; Query; Report; Integration; Other]
    = [1; 2; 3; 4; 5; 6]%Z
  /\ (i < j ->
      (typeOrder (usageType (usage a)) <= typeOrder (usageType (usage b)))%Z
      /\ (usageType (usage a) = usageType (usage b) ->
          references (usage b) <= references (usage a)))
  /\ ((typeOrder (usageType (usage a)) < typeOrder (usageType (usage b)))%Z ->
      i < j)
  /\ (usageType (usage a) = Browse -> usageType (usage b) = CRUD -> i < j)
  /\ (usageType (usage a) = usageType (usage b) ->
      references (usage b) < references (usage a) -> i < j).
Proof.
  intros rows Ha Hb.
  pose proof (executeSearchByTable_sorted fs st tableName repoPath includeStandard
                maxResults) as Hs.
  fold rows in Hs.
  assert (Hfwd : forall i j a b, i < j -> rows !! i = Some a -> rows !! j = Some b ->
                 (typeOrder (usageType (usage a)) <= typeOrder (usageType (usage b)))%Z
                 /\ (usageType (usage a) = usageType (usage b) ->
                     references (usage b) <= references (usage a))).
  { intros i' j' a' b' Hij Ha' Hb'.
    pose proof (StronglySorted_lookup _ _ _ _ _ _ Hs Hij Ha' Hb') as H.
    apply compareRows_before in H. destruct H as [H | [E H]].
    - split; [lia|]. intros E. rewrite E in H. lia.
    - split; [rewrite E; lia | intros _; exact H]. }
  assert (Hrank : (typeOrder (usageType (usage a)) < typeOrder (usageType (usage b)))%Z
                  -> i < j).
  { intros Hlt. destruct (Nat.lt_trichotomy i j) as [Hij | [-> | Hji]].
    - exact Hij.
    - rewrite Ha in Hb. injection Hb as <-. lia.
    - destruct (Hfwd j i b a Hji Hb Ha) as [H _]. lia. }
  split; [reflexivity|]. split; [|split; [|split]].
  - intros Hij. exact (Hfwd i j a b Hij Ha Hb).
  - exact Hrank.
  - intros Ea Eb. apply Hrank. rewrite Ea, Eb. simpl. lia.
  - intros E Hlt. destruct (Nat.lt_trichotomy i j) as [Hij | [-> | Hji]].
    + exact Hij.
    + rewrite Ha in Hb. injection Hb as <-. lia.
    + destruct (Hfwd j i b a Hji Hb Ha) as [_ H]. symmetry in E. specialize (H E). lia.
Qed.

Lemma search_results_ordered_witness :
  exists a b,
    Sample.searchRows 50 !! 1 = Some a
    /\ Sample.searchRows 50 !! 2 = Some b
    /\ (1 < 2 ->
        (typeOrder (usageType (usage a)) <= typeOrder (usageType (usage b)))%Z
        /\ (usageType (usage a) = usageType (usage b) ->
            references (usage b) <= references (usage a))).
Proof.
  eexists _, _.
  split; [vm_compute; reflexivity|]. split; [vm_compute; reflexivity|].
  refine (proj1 (proj2 (search_results_ordered Sample.customTree initialState "PD3"
                          "/hml" false 50 1 2 _ _ _ _))).
  - vm_compute. reflexivity.
  - vm_compute. reflexivity.
Defined.

(** ** Table search: the summary *)

Lemma count_partition (rows : list TableSearchResult) :
  countWhere (hasType Browse) rows + countWhere (hasType CRUD) rows
  + countWhere (hasType Report) rows
  + countWhere
      (fun r => negb (existsb (fun t => hasType t r) [Browse; CRUD; Report])) rows
  = List.length rows.
Proof.
  unfold countWhere, hasType. induction rows as [|r rows IH]; [reflexivity|].
  cbn [List.filter existsb].
  destruct (usageType (usage r));
    repeat case_bool_decide; try discriminate; try congruence; simpl in *; lia.
Qed.

Lemma count_other (rows : list TableSearchResult) :
  countWhere
    (fun r => negb (existsb (fun t => hasType t r) [Browse; CRUD; Report])) rows
  = countWhere (hasType Query) rows + countWhere (hasType Integration) rows
    + countWhere (hasType Other) rows.
Proof.
  unfold countWhere, hasType. induction rows as [|r rows IH]; [reflexivity|].
  cbn [List.filter existsb].
  destruct (usageType (usage r));
    repeat case_bool_decide; try discriminate; try congruence; simpl in *; lia.
Qed.

(** C10. A table search answers with [ok: true]; [totalFound] is the
    number of rows returned; the four counts of the summary add up to it;
    and [otherRoutines] counts the rows that are neither Browse nor CRUD
    nor Report, that is the Query, Integration and Other rows. *)
Theorem search_summary_partition (fs : FileSystem) (st : State)
    (tableName repoPath : string) (includeStandard : bool) (maxResults : Z) :
  let response :=
    fst (executeSearchByTable fs st tableName repoPath includeStandard maxResults) in
  ok response = true
  /\ totalFound response = List.length (results response)
  /\ browseRoutines (summary response) + crudRoutines (summary response)
     + reportRoutines (summary response) + otherRoutines (summary response)
     = totalFound response
  /\ browseRoutines (summary response)
     = countWhere (hasType Browse) (results response)
  /\ crudRoutines (summary response) = countWhere (hasType CRUD) (results response)
  /\ reportRoutines (summary response)
     = countWhere (hasType Report) (results response)
  /\ otherRoutines (summary response)
     = countWhere (hasType Query) (results response)
       + countWhere (hasType Integration) (results response)
       + countWhere (hasType Other) (results response).
Proof.
  unfold executeSearchByTable.
  destruct (searchLoop _ _ _ _ _ _ _) as [found st']. simpl.
  repeat split.
  - apply count_partition.
  - apply count_other.
Qed.

(** ** RoutineClassifier: content inspection *)

(** C8. A file that cannot be read is classified custom, and the failure
    stays inside [analyzeFileContent]. For a file that is read, only the
    upper-cased first 200 lines are tested: a custom marker there gives
    custom whatever else is present; without one, a standard marker gives
    standard; with neither the file is standard. Two files with the same
    first 200 lines get the same answer. *)
Theorem analyzeFileContent_decision (fs : FileSystem) (st : State) (p : string) :
  (readFile fs Utf8 p = None -> fst (analyzeFileContent fs st p) = false)
  /\ (forall content : string,
         readFile fs Utf8 p = Some content ->
         let inspected := first200Upper content in
         let custom :=
           existsb (fun indicator => Re.test indicator inspected) customIndicators in
         let standard :=
           existsb (fun indicator => Re.test indicator inspected) standardIndicators in
         (custom = true -> fst (analyzeFileContent fs st p) = false)
         /\ (custom = false -> standard = true ->
             fst (analyzeFileContent fs st p) = true)
         /\ (custom = false -> standard = false ->
             fst (analyzeFileContent fs st p) = true))
  /\ (forall (fs' : FileSystem) (st' : State) (p' content content' : string),
         readFile fs Utf8 p = Some content ->
         readFile fs' Utf8 p' = Some content' ->
         firstn 200 (Str.splitLines content) = firstn 200 (Str.splitLines content') ->
         fst (analyzeFileContent fs st p) = fst (analyzeFileContent fs' st' p')).
Proof.
  unfold analyzeFileContent. split; [|split].
  - intros ->. reflexivity.
  - intros content ->. unfold inspectContent. simpl.
    repeat split; intros; repeat match goal with H : _ = _ |- _ => rewrite H end;
      reflexivity.
  - intros fs' st' p' content content' -> -> Hlines.
    unfold inspectContent, first200Upper. simpl. rewrite Hlines. reflexivity.
Qed.

Lemma analyzeFileContent_decision_witness :
  (readFile Sample.noFiles Utf8 "/hml/U_XBRW.prw" = None
   /\ fst (analyzeFileContent Sample.noFiles initialState "/hml/U_XBRW.prw") = false)
  /\ (readFile Sample.customTree Utf8 "/hml/U_XBRW.prw" = Some Sample.browseSource
      /\ existsb (fun indicator =>
                    Re.test indicator (first200Upper Sample.browseSource))
                 customIndicators = true
      /\ fst (analyzeFileContent Sample.customTree initialState "/hml/U_XBRW.prw")
         = false).
Proof.
  split.
  - split; [reflexivity|].
    apply (proj1 (analyzeFileContent_decision Sample.noFiles initialState
                    "/hml/U_XBRW.prw")).
    reflexivity.
  - split; [reflexivity|]. split; [vm_compute; reflexivity|].
    apply (proj1 (proj1 (proj2 (analyzeFileContent_decision Sample.customTree
                                  initialState "/hml/U_XBRW.prw"))
                        Sample.browseSource ltac:(reflexivity))).
    vm_compute. reflexivity.
Defined.

(** A user function on line 201 is out of sight: the file is standard;
    on line 200 it makes the file custom. *)
Example inspectContent_line_201 :
  inspectContent (Str.join newline (repeat "// nota" 200 ++ ["User Function X()"]))
    = true
  /\ inspectContent (Str.join newline (repeat "// nota" 199 ++ ["User Function X()"]))
     = false.
Proof. vm_compute. auto. Qed.

(** A custom marker wins over a standard one. *)
Example inspectContent_custom_first :
  inspectContent ("#INCLUDE " +:+ dquote +:+ "PROTHEUS.CH" +:+ dquote +:+ newline
                  +:+ "User Function X()") = false
  /\ inspectContent ("#INCLUDE " +:+ dquote +:+ "PROTHEUS.CH" +:+ dquote) = true
  /\ inspectContent "Local x := 1" = true.
Proof. vm_compute. auto. Qed.

(** ** TableUsageAnalyzer: references to a table *)

Lemma search_cons (items : list Re.Item) (prev : option ascii) (c : ascii)
    (s : string) :
  Re.search items prev (String c s)
  = match Re.exec items prev (String c s) with
    | Some r => Some r
    | None => Re.search items (Some c) s
    end.
Proof. reflexivity. Qed.

Lemma search_here (items : list Re.Item) (prev : option ascii) (s : string) :
  is_Some (Re.exec items prev s) -> is_Some (Re.search items prev s).
Proof.
  intros [r Hr]. destruct s; simpl; rewrite Hr; eexists; reflexivity.
Qed.

(** A match that starts after [pre] is found by the scan from the start,
    unless an earlier one is. *)
Lemma search_after (items : list Re.Item) (pre s : string) (prev : option ascii) :
  is_Some (Re.exec items (charBefore prev pre) s) ->
  is_Some (Re.search items prev (pre +:+ s)).
Proof.
  revert prev. induction pre as [|c pre IH]; intros prev H.
  - apply search_here. exact H.
  - rewrite app_cons, search_cons.
    destruct (Re.exec items prev _); [eexists; reflexivity|].
    apply IH. exact H.
Qed.

Lemma test_after (items : list Re.Item) (pre s : string) :
  is_Some (Re.exec items (charBefore None pre) s) ->
  Re.test items (pre +:+ s) = true.
Proof.
  intros H. unfold Re.test.
  destruct (search_after items pre s None H) as [r ->]. reflexivity.
Qed.

Lemma hasTableReference_by (pattern : list Re.Item) (content tableUpper : string) :
  In pattern (tablePatterns tableUpper) ->
  Re.test pattern content = true ->
  hasTableReference content tableUpper = true.
Proof.
  intros Hin Ht. unfold hasTableReference. apply existsb_exists.
  exists pattern. split; assumption.
Qed.

Lemma exec_quoted_in_parens (prev : option ascii) (post : string) :
  is_Some (Re.exec
             ([Re.one (Re.lit "("); Re.one Re.quoteChar]
                ++ Re.text "PD3" ++ [Re.one Re.quoteChar; Re.one (Re.lit ")")])
             prev ("(" +:+ dquote +:+ "PD3" +:+ dquote +:+ ")" +:+ post)).
Proof. destruct post; vm_compute; eexists; reflexivity. Qed.

Lemma exec_arrow (prev : option ascii) (post : string) :
  is_Some (Re.exec (Re.text "PD3" ++ Re.text "->") prev ("PD3->FIELD" +:+ post)).
Proof. vm_compute; eexists; reflexivity. Qed.

Lemma exec_one_some (p : ascii -> bool) (items : list Re.Item)
    (prev : option ascii) (c : ascii) (s : string) :
  p c = true ->
  is_Some (Re.exec items (Some c) s) ->
  is_Some (Re.exec (Re.one p :: items) prev (String c s)).
Proof.
  intros Hp [[texts remaining] Hr]. simpl. rewrite Hp.
  destruct s; simpl; rewrite Hr; eexists; reflexivity.
Qed.

Lemma exec_boundary_some (items : list Re.Item) (prev : option ascii) (s : string) :
  Re.atBoundary prev s = true ->
  is_Some (Re.exec items prev s) ->
  is_Some (Re.exec (Re.WordBoundary :: items) prev s).
Proof.
  intros Hb [[texts remaining] Hr]. simpl. rewrite Hb, Hr. eexists; reflexivity.
Qed.

Lemma exec_whole_word (prev : option ascii) (post : string) :
  Re.isWordAt prev = false ->
  Re.isWordAt (Re.headChar post) = false ->
  is_Some (Re.exec (wholeWord "PD3") prev ("PD3" +:+ post)).
Proof.
  intros Hprev Hpost.
  unfold wholeWord. cbv [String.append Re.text app].
  apply exec_boundary_some.
  { unfold Re.atBoundary. rewrite Hprev. reflexivity. }
  do 3 (apply exec_one_some; [reflexivity|]).
  apply exec_boundary_some.
  { unfold Re.atBoundary. rewrite Hpost. reflexivity. }
  eexists; reflexivity.
Qed.

(** C6. For the table PD3, [hasTableReference] answers [true] on any text
    that holds PD3 as a word of its own, or the call of DBSELECTAREA on the
    quoted name, or the quoted name in parentheses, or [PD3->FIELD]; and it
    answers [false] on the texts [PD30] and [APD3]. *)
Theorem hasTableReference_PD3 :
  (forall pre post : string,
      Re.isWordAt (charBefore None pre) = false ->
      Re.isWordAt (Re.headChar post) = false ->
      hasTableReference (pre +:+ "PD3" +:+ post) "PD3" = true)
  /\ (forall pre post : string,
         hasTableReference
           (pre +:+ "DBSELECTAREA(" +:+ dquote +:+ "PD3" +:+ dquote +:+ ")" +:+ post)
           "PD3" = true)
  /\ hasTableReference
       (Str.toUpperCase ("DbSelectArea(" +:+ dquote +:+ "PD3" +:+ dquote +:+ ")"))
       "PD3" = true
  /\ (forall pre post : string,
         hasTableReference
           (pre +:+ "(" +:+ dquote +:+ "PD3" +:+ dquote +:+ ")" +:+ post) "PD3"
         = true)
  /\ (forall pre post : string,
         hasTableReference (pre +:+ "PD3->FIELD" +:+ post) "PD3" = true)
  /\ hasTableReference "PD3" "PD3" = true
  /\ hasTableReference "PD30" "PD3" = false
  /\ hasTableReference "APD3" "PD3" = false.
Proof.
  repeat split; try (vm_compute; reflexivity).
  - intros pre post Hpre Hpost.
    apply (hasTableReference_by (wholeWord "PD3")); [simpl; auto|].
    apply test_after, exec_whole_word; assumption.
  - intros pre post.
    apply (hasTableReference_by
             ([Re.one (Re.lit "("); Re.one Re.quoteChar]
                ++ Re.text "PD3" ++ [Re.one Re.quoteChar; Re.one (Re.lit ")")]));
      [simpl; auto|].
    replace (pre +:+ "DBSELECTAREA(" +:+ dquote +:+ "PD3" +:+ dquote +:+ ")" +:+ post)
      with ((pre +:+ "DBSELECTAREA")
              +:+ "(" +:+ dquote +:+ "PD3" +:+ dquote +:+ ")" +:+ post)
      by (rewrite app_assoc_str; reflexivity).
    apply test_after, exec_quoted_in_parens.
  - intros pre post.
    apply (hasTableReference_by
             ([Re.one (Re.lit "("); Re.one Re.quoteChar]
                ++ Re.text "PD3" ++ [Re.one Re.quoteChar; Re.one (Re.lit ")")]));
      [simpl; auto|].
    apply test_after, exec_quoted_in_parens.
  - intros pre post.
    apply (hasTableReference_by (Re.text "PD3" ++ Re.text "->")); [simpl; auto|].
    apply test_after, exec_arrow.
Qed.

Lemma hasTableReference_PD3_witness :
  Re.isWordAt (charBefore None "DbSeek(xFilial(") = false
  /\ Re.isWordAt (Re.headChar ") + cCod)") = false
  /\ hasTableReference ("DbSeek(xFilial(" +:+ "PD3" +:+ ") + cCod)") "PD3" = true.
Proof.
  split; [reflexivity|]. split; [reflexivity|].
  apply (proj1 hasTableReference_PD3); reflexivity.
Defined.

(** * Further properties of the scanning core *)

(** ** NameResolver: the shape of the result *)

Lemma uniqueInto_extends (xs seen : list string) :
  exists added, Str.uniqueInto seen xs = seen ++ added
                /\ List.length added <= List.length xs.
Proof.
  revert seen. induction xs as [|x xs IH]; intros seen; simpl.
  - exists []. rewrite app_nil_r. split; [reflexivity | simpl; lia].
  - case_bool_decide.
    + destruct (IH seen) as (added & E & L). exists added. split; [exact E | lia].
    + destruct (IH (seen ++ [x])) as (added & E & L).
      exists (x :: added). rewrite E, <- app_assoc. split; [reflexivity | simpl; lia].
Qed.

Lemma unique_head (x : string) (xs : list string) :
  Str.unique (x :: xs) !! 0 = Some x.
Proof.
  unfold Str.unique. cbn [Str.uniqueInto].
  case_bool_decide as H; [inversion H|].
  destruct (uniqueInto_extends xs ([] ++ [x])) as (added & E & _).
  rewrite E. reflexivity.
Qed.

Lemma candidates_elem (bases exts : list string) (v : string) :
  v ∈ bases ++ flat_map (fun ext => map (fun b => b +:+ ext) bases) exts <->
  exists b e, b ∈ bases /\ e ∈ EmptyString :: exts /\ v = b +:+ e.
Proof.
  rewrite elem_of_app. split.
  - intros [H | H].
    + exists v, EmptyString. rewrite app_empty_r.
      split; [exact H|]. split; [left | reflexivity].
    + apply list_elem_of_In, in_flat_map in H as (ext & Hext & Hv).
      apply in_map_iff in Hv as (b & <- & Hb).
      exists b, ext. rewrite elem_of_cons, !list_elem_of_In. auto.
  - intros (b & e & Hb & He & ->). apply elem_of_cons in He as [-> | He].
    + left. rewrite app_empty_r. exact Hb.
    + right. apply list_elem_of_In, in_flat_map.
      exists e. split; [apply list_elem_of_In; exact He|].
      apply in_map_iff. exists b. split; [reflexivity | apply list_elem_of_In; exact Hb].
Qed.

Lemma normalize_inversion (routineName : string) (n : NormalizedRoutine) :
  normalizeRoutineName routineName = Returns n ->
  Str.trim routineName <> EmptyString.
Proof.
  unfold normalizeRoutineName. intros H.
  destruct (String.eqb_spec routineName EmptyString); [discriminate|].
  destruct (String.eqb_spec (Str.trim routineName) EmptyString);
    [discriminate | assumption].
Qed.

(** What a normalised name looks like. The upper-cased base is the upper
    case of the base; the form with the prefix is [U_] followed by the form
    without it; the candidates are exactly the four forms followed by one
    of the seven endings, the base name as typed comes first, and there are
    at most twenty-eight of them. *)
Theorem normalizeRoutineName_shape (routineName : string) (n : NormalizedRoutine) :
  normalizeRoutineName routineName = Returns n ->
  original n = Str.trim routineName
  /\ baseName n = stripExtension (original n)
  /\ baseNameUpper n = Str.toUpperCase (baseName n)
  /\ withPrefix n = "U_" +:+ withoutPrefix n
  /\ variations n !! 0 = Some (baseName n)
  /\ (forall v : string,
         v ∈ variations n <->
         exists b e,
           b ∈ [baseName n; baseNameUpper n; withPrefix n; withoutPrefix n]
           /\ e ∈ endings /\ v = b +:+ e)
  /\ List.length (variations n) <= 28.
Proof.
  intros Hn. pose proof (normalize_inversion _ _ Hn) as Htrim.
  destruct (normalize_returns routineName Htrim) as (n' & Hn' & Ho & Hw & Hv).
  rewrite Hn in Hn'. injection Hn' as <-.
  assert (Hb : baseName n = stripExtension (original n)
               /\ baseNameUpper n = Str.toUpperCase (baseName n)).
  { unfold normalizeRoutineName in Hn.
    destruct (String.eqb routineName EmptyString); [discriminate|].
    destruct (String.eqb (Str.trim routineName) EmptyString); [discriminate|].
    injection Hn as <-. split; reflexivity. }
  destruct Hb as [Hb1 Hb2].
  split; [exact Ho|]. split; [exact Hb1|]. split; [exact Hb2|].
  split; [exact Hw|]. split; [|split].
  - rewrite Hv. apply unique_head.
  - intros v. rewrite Hv, unique_elem. apply candidates_elem.
  - rewrite Hv. unfold Str.unique.
    destruct (uniqueInto_extends
                ([baseName n; baseNameUpper n; withPrefix n; withoutPrefix n]
                   ++ flat_map
                        (fun ext =>
                           map (fun b => b +:+ ext)
                               [baseName n; baseNameUpper n; withPrefix n;
                                withoutPrefix n]) extensions)
                []) as (added & E & L).
    rewrite E. simpl in L. simpl. lia.
Qed.

Lemma normalizeRoutineName_shape_witness :
  exists n,
    normalizeRoutineName "  u_pcmacd05.PRX " = Returns n
    /\ original n = "u_pcmacd05.PRX"
    /\ baseName n = "u_pcmacd05"
    /\ withPrefix n = "U_PCMACD05"
    /\ withoutPrefix n = "PCMACD05"
    /\ variations n !! 0 = Some "u_pcmacd05"
    /\ List.length (variations n) <= 28.
Proof.
  eexists. split; [vm_compute; reflexivity|].
  pose proof (normalizeRoutineName_shape "  u_pcmacd05.PRX " _
                ltac:(vm_compute; reflexivity)) as (H1 & H2 & H3 & H4 & H5 & H6 & H7).
  split; [exact H1|]. split; [exact H2|].
  split; [reflexivity|]. split; [reflexivity|].
  split; [exact H5 | exact H7].
Defined.

(** ** FileIndexer *)

Lemma startsWith_prefix (p t : string) : Str.startsWith (p +:+ t) p = true.
Proof.
  induction p as [|c p IH]; [destruct t; reflexivity|].
  rewrite app_cons. simpl. rewrite Ascii.eqb_refl. exact IH.
Qed.

Lemma startsWith_iff (s p : string) :
  Str.startsWith s p = true <-> exists t, s = p +:+ t.
Proof.
  split.
  - intros H. eexists. apply startsWith_app. exact H.
  - intros [t ->]. apply startsWith_prefix.
Qed.

(** What one directory entry contributes to the walk. *)
Lemma walk_S (fs : FileSystem) (exts : list string) (levels : nat) (dir : string) :
  walk fs exts (S levels) dir
  = match readdir fs dir with
    | None => []
    | Some entries => flat_map (walkEntry fs exts levels dir) entries
    end.
Proof. reflexivity. Qed.

Lemma walk_elem (fs : FileSystem) (exts : list string) (levels : nat)
    (dir p : string) :
  p ∈ walk fs exts (S levels) dir <->
  exists entries entry,
    readdir fs dir = Some entries /\ entry ∈ entries
    /\ ((kind entry = RegularFile
         /\ includesString exts (Str.toLowerCase (Path.extname (name entry))) = true
         /\ p = Path.join dir (name entry))
        \/ (kind entry = Directory
            /\ includesString ignoreDirs (Str.toLowerCase (name entry)) = false
            /\ p ∈ walk fs exts levels (Path.join dir (name entry)))).
Proof.
  rewrite walk_S. destruct (readdir fs dir) as [entries|].
  - rewrite list_elem_of_In, in_flat_map. split.
    + intros (entry & Hin & Hp). exists entries, entry.
      split; [reflexivity|]. split; [apply list_elem_of_In; exact Hin|].
      unfold walkEntry in Hp. destruct (kind entry).
      * right. destruct (includesString ignoreDirs _); [destruct Hp|].
        split; [reflexivity|]. split; [reflexivity|]. apply list_elem_of_In. exact Hp.
      * left. destruct (includesString exts _); [|destruct Hp].
        destruct Hp as [<- | []]. auto.
      * destruct Hp.
    + intros (entries' & entry & E & Hin & H). injection E as <-.
      exists entry. split; [apply list_elem_of_In; exact Hin|].
      unfold walkEntry.
      destruct H as [(Hk & He & ->) | (Hk & Hi & Hp)]; rewrite Hk.
      * rewrite He. left. reflexivity.
      * rewrite Hi. apply list_elem_of_In. exact Hp.
  - split.
    + intros H. inversion H.
    + intros (entries & entry & E & _). discriminate.
Qed.

Lemma walk_extension (fs : FileSystem) (exts : list string) (levels : nat)
    (dir p : string) :
  p ∈ walk fs exts levels dir ->
  exists d entry,
    p = Path.join d (name entry)
    /\ Str.startsWith d dir = true
    /\ kind entry = RegularFile
    /\ (exists entries, readdir fs d = Some entries /\ entry ∈ entries)
    /\ includesString exts (Str.toLowerCase (Path.extname (name entry))) = true.
Proof.
  revert dir. induction levels as [|levels IH]; intros dir Hp.
  - inversion Hp.
  - apply walk_elem in Hp as (entries & entry & E & Hin & H).
    destruct H as [(Hk & He & ->) | (Hk & Hi & Hp)].
    + exists dir, entry. split; [reflexivity|].
      split; [rewrite <- (app_empty_r dir) at 1; apply startsWith_prefix|].
      split; [exact Hk|]. split; [exists entries; auto | exact He].
    + destruct (IH _ Hp) as (d & entry' & -> & Hd & Hk' & Hr & He).
      exists d, entry'. split; [reflexivity|]. split; [|auto].
      apply startsWith_iff in Hd as [t ->]. unfold Path.join.
      rewrite !app_assoc_str. apply startsWith_prefix.
Qed.

(** The walk only returns regular files with one of the requested
    extensions (compared in lower case), each listed by [readdir] in a
    directory at or below the starting one; and it returns nothing when
    started beyond the depth limit. *)
Theorem getAllFilesRecursive_files (fs : FileSystem) (dir : string)
    (exts : list string) (maxDepth currentDepth : nat) (p : string) :
  p ∈ getAllFilesRecursive fs dir exts maxDepth currentDepth ->
  currentDepth <= maxDepth
  /\ exists d entry entries,
       p = Path.join d (name entry)
       /\ Str.startsWith d dir = true
       /\ readdir fs d = Some entries /\ entry ∈ entries
       /\ kind entry = RegularFile
       /\ includesString exts (Str.toLowerCase (Path.extname (name entry))) = true.
Proof.
  unfold getAllFilesRecursive. intros Hp. split.
  - destruct (le_gt_dec currentDepth maxDepth) as [H | H]; [exact H|].
    replace (S maxDepth - currentDepth) with 0 in Hp by lia. inversion Hp.
  - destruct (walk_extension _ _ _ _ _ Hp) as (d & entry & E & Hd & Hk & (es & Hr & Hin) & He).
    exists d, entry, es. auto 10.
Qed.

Lemma getAllFilesRecursive_files_witness :
  0 <= 5
  /\ exists d entry entries,
       "/hml/U_XBRW.prw" = Path.join d (name entry)
       /\ Str.startsWith d "/hml" = true
       /\ readdir Sample.customTree d = Some entries /\ entry ∈ entries
       /\ kind entry = RegularFile
       /\ includesString sourceExtensions
            (Str.toLowerCase (Path.extname (name entry))) = true.
Proof.
  apply (getAllFilesRecursive_files Sample.customTree "/hml" sourceExtensions 5 0).
  apply (bool_decide_unpack _). vm_compute. exact I.
Defined.

Lemma walk_deeper (fs : FileSystem) (exts : list string) (levels extra : nat)
    (dir p : string) :
  p ∈ walk fs exts levels dir -> p ∈ walk fs exts (levels + extra) dir.
Proof.
  revert dir. induction levels as [|levels IH]; intros dir Hp.
  - inversion Hp.
  - change (S levels + extra) with (S (levels + extra)).
    apply walk_elem in Hp as (entries & entry & E & Hin & H).
    apply walk_elem. exists entries, entry. split; [exact E|]. split; [exact Hin|].
    destruct H as [H | (Hk & Hi & Hp)]; [left; exact H|].
    right. split; [exact Hk|]. split; [exact Hi|]. apply IH. exact Hp.
Qed.

(** Raising the depth limit never loses a file: whatever a walk finds, a
    deeper walk from the same place finds too. In particular every file
    the routine finder can reach (depth 3) is seen by the table search
    and by the discovery pass (depth 5). *)
Theorem getAllFilesRecursive_deeper (fs : FileSystem) (dir : string)
    (exts : list string) (maxDepth maxDepth' currentDepth : nat) (p : string) :
  maxDepth <= maxDepth' ->
  p ∈ getAllFilesRecursive fs dir exts maxDepth currentDepth ->
  p ∈ getAllFilesRecursive fs dir exts maxDepth' currentDepth.
Proof.
  unfold getAllFilesRecursive. intros Hle Hp.
  destruct (le_gt_dec currentDepth maxDepth) as [H | H].
  - replace (S maxDepth' - currentDepth)
      with ((S maxDepth - currentDepth) + (maxDepth' - maxDepth)) by lia.
    apply walk_deeper. exact Hp.
  - replace (S maxDepth - currentDepth) with 0 in Hp by lia. inversion Hp.
Qed.

Lemma getAllFilesRecursive_deeper_witness :
  3 <= 5
  /\ "/hml/U_XALT.prw" ∈ getAllFilesRecursive Sample.customTree "/hml"
                           sourceExtensions 5 0.
Proof.
  split; [lia|].
  apply (getAllFilesRecursive_deeper Sample.customTree "/hml" sourceExtensions 3 5 0);
    [lia|].
  apply (bool_decide_unpack _). vm_compute. exact I.
Defined.

(** ** RoutineFinder *)

Lemma matchesVariation_iff (n : NormalizedRoutine) (p : string) :
  matchesVariation n p = true <->
  exists v, v ∈ variations n
            /\ Str.toUpperCase (Path.basename p) = Str.toUpperCase v.
Proof.
  unfold matchesVariation. rewrite existsb_exists. split.
  - intros (v & Hin & E). exists v. split; [apply list_elem_of_In; exact Hin|].
    apply String.eqb_eq. exact E.
  - intros (v & Hin & E). exists v. split; [apply list_elem_of_In; exact Hin|].
    apply String.eqb_eq. exact E.
Qed.

(** What the finder returns is a real hit. Either it is a candidate
    joined to the root that [access] accepts, or no candidate is
    accessible at the root and it is a file of the depth-3 walk whose base
    name is a candidate up to letter case. A file directly under the root
    therefore always wins over one found by walking. *)
Theorem findRoutineFile_sound (fs : FileSystem) (repoPath : string)
    (n : NormalizedRoutine) (p : string) :
  findRoutineFile fs repoPath n = Some p ->
  (exists v, v ∈ variations n /\ p = Path.join repoPath v /\ access fs p = true)
  \/ ((forall v, v ∈ variations n -> access fs (Path.join repoPath v) = false)
      /\ p ∈ getAllFilesRecursive fs repoPath sourceExtensions 3 0
      /\ exists v, v ∈ variations n
                   /\ Str.toUpperCase (Path.basename p) = Str.toUpperCase v).
Proof.
  unfold findRoutineFile. intros H.
  destruct (List.find _ (variations n)) as [v|] eqn:Hdirect.
  - injection H as <-. apply find_some in Hdirect as [Hin Hacc].
    left. exists v. split; [apply list_elem_of_In; exact Hin | auto].
  - right. split.
    + intros v Hv. apply list_elem_of_In in Hv.
      exact (find_none _ _ Hdirect v Hv).
    + apply find_some in H as [Hin Hm]. split; [apply list_elem_of_In; exact Hin|].
      apply (matchesVariation_iff n p). exact Hm.
Qed.

Lemma findRoutineFile_sound_witness :
  (exists v, v ∈ variations (res_normalized Sample.manualResolved)
             /\ "/src/PCMCTF43.PRW" = Path.join "/src" v
             /\ access Sample.directHit "/src/PCMCTF43.PRW" = true)
  \/ ((forall v, v ∈ variations (res_normalized Sample.manualResolved) ->
                 access Sample.directHit (Path.join "/src" v) = false)
      /\ "/src/PCMCTF43.PRW" ∈ getAllFilesRecursive Sample.directHit "/src"
                                 sourceExtensions 3 0
      /\ exists v, v ∈ variations (res_normalized Sample.manualResolved)
                   /\ Str.toUpperCase (Path.basename "/src/PCMCTF43.PRW")
                      = Str.toUpperCase v).
Proof.
  apply (findRoutineFile_sound Sample.directHit "/src"
           (res_normalized Sample.manualResolved) "/src/PCMCTF43.PRW").
  vm_compute. reflexivity.
Defined.

(** The finder misses only when there is nothing to find: it answers
    [null] exactly when no candidate is accessible at the root and no file
    of the depth-3 walk has a candidate as its base name, letter case
    aside. *)
Theorem findRoutineFile_none (fs : FileSystem) (repoPath : string)
    (n : NormalizedRoutine) :
  findRoutineFile fs repoPath n = None <->
  (forall v, v ∈ variations n -> access fs (Path.join repoPath v) = false)
  /\ (forall p v,
         p ∈ getAllFilesRecursive fs repoPath sourceExtensions 3 0 ->
         v ∈ variations n ->
         Str.toUpperCase (Path.basename p) <> Str.toUpperCase v).
Proof.
  unfold findRoutineFile. split.
  - intros H.
    destruct (List.find _ (variations n)) as [v|] eqn:Hdirect; [discriminate|].
    split.
    + intros v Hv. apply list_elem_of_In in Hv.
      exact (find_none _ _ Hdirect v Hv).
    + intros p v Hp Hv E. apply list_elem_of_In in Hp.
      pose proof (find_none _ _ H p Hp) as Hm. simpl in Hm.
      assert (Ht : matchesVariation n p = true).
      { apply matchesVariation_iff. exists v. auto. }
      unfold matchesVariation in Ht. rewrite Ht in Hm. discriminate.
  - intros [Hdirect Hwalk].
    destruct (List.find _ (variations n)) as [v|] eqn:Hf.
    + apply find_some in Hf as [Hin Hacc].
      apply list_elem_of_In in Hin. rewrite (Hdirect v Hin) in Hacc. discriminate.
    + destruct (List.find _ (getAllFilesRecursive _ _ _ _ _)) as [p|] eqn:Hw;
        [|reflexivity].
      apply find_some in Hw as [Hin Hm]. apply list_elem_of_In in Hin.
      apply (matchesVariation_iff n p) in Hm as (v & Hv & E).
      exfalso. exact (Hwalk p v Hin Hv E).
Qed.

(** ** RepositoryLocator *)

Lemma upperChar_idem (c : ascii) : Str.upperChar (Str.upperChar c) = Str.upperChar c.
Proof. destruct c as [[] [] [] [] [] [] [] []]; reflexivity. Qed.

Lemma upperChar_lower (c : ascii) : Str.upperChar (Str.lowerChar c) = Str.upperChar c.
Proof. destruct c as [[] [] [] [] [] [] [] []]; reflexivity. Qed.

Lemma toUpperCase_idem (s : string) :
  Str.toUpperCase (Str.toUpperCase s) = Str.toUpperCase s.
Proof.
  induction s as [|c s IH]; [reflexivity|].
  unfold Str.toUpperCase in *. simpl. rewrite upperChar_idem, IH. reflexivity.
Qed.

Lemma toUpperCase_lower (s : string) :
  Str.toUpperCase (Str.toLowerCase s) = Str.toUpperCase s.
Proof.
  induction s as [|c s IH]; [reflexivity|].
  unfold Str.toUpperCase, Str.toLowerCase in *. simpl.
  rewrite upperChar_lower, IH. reflexivity.
Qed.

Lemma assoc_envVar (k v : string) :
  assoc k envVarMap = Some v ->
  v ∈ ["REPO_HML"; "REPO_PRD"; "REPO_TOTVS_STANDARD"].
Proof.
  unfold envVarMap. simpl.
  repeat (destruct (String.eqb k _);
          [intros E; injection E as <-; rewrite !elem_of_cons; tauto|]).
  discriminate.
Qed.

(** What [getRepoPath] gives for any token and environment. A path that is
    returned is not empty and is the value of one of the three repository
    variables, and the token is read without regard to letter case. When
    it throws, the token is unknown or its variable is unset or empty, and
    the message ends with the token as it was given. *)
Theorem getRepoPath_answer (processEnv : gmap string string) (env : string) :
  match getRepoPath processEnv env with
  | Returns p =>
      p <> EmptyString
      /\ (exists var,
             var ∈ ["REPO_HML"; "REPO_PRD"; "REPO_TOTVS_STANDARD"]
             /\ processEnv !! var = Some p)
      /\ getRepoPath processEnv (Str.toUpperCase env) = Returns p
      /\ getRepoPath processEnv (Str.toLowerCase env) = Returns p
  | Throws m =>
      (forall var, assoc (Str.toUpperCase env) envVarMap = Some var ->
                   processEnv !! var = None \/ processEnv !! var = Some EmptyString)
      /\ exists pre, m = pre +:+ " nao configurada para ambiente " +:+ env
  end.
Proof.
  unfold getRepoPath. rewrite toUpperCase_idem, toUpperCase_lower.
  destruct (assoc (Str.toUpperCase env) envVarMap) as [var|] eqn:Hvar; simpl.
  - destruct (processEnv !! var) as [p|] eqn:Hp; simpl.
    + destruct (String.eqb_spec p EmptyString) as [-> | Hne].
      * split; [intros v E; injection E as <-; auto|].
        eexists. rewrite <- app_assoc_str. reflexivity.
      * split; [exact Hne|]. split; [|split; reflexivity].
        exists var. split; [eapply assoc_envVar; eauto | exact Hp].
    + split; [intros v E; injection E as <-; auto|].
      eexists. rewrite <- app_assoc_str. reflexivity.
  - split; [intros v E; discriminate|].
    eexists. rewrite <- app_assoc_str. reflexivity.
Qed.

(** The three vendor tokens are one: in any letter case, TOTVS, STANDARD
    and TOTVS_STANDARD give what STANDARD gives; and AUTO, which names no
    repository, always throws. *)
Theorem getRepoPath_aliases (processEnv : gmap string string) (env : string) :
  (Str.toUpperCase env ∈ ["TOTVS"; "STANDARD"; "TOTVS_STANDARD"] ->
   forall p, getRepoPath processEnv env = Returns p <->
             getRepoPath processEnv "STANDARD" = Returns p)
  /\ (Str.toUpperCase env = "AUTO" ->
      exists m, getRepoPath processEnv env = Throws m).
Proof.
  split.
  - intros Hin p. unfold getRepoPath.
    rewrite !elem_of_cons, elem_of_nil in Hin.
    destruct Hin as [-> | [-> | [-> | []]]]; simpl;
      destruct (String.eqb (default EmptyString (processEnv !! "REPO_TOTVS_STANDARD"))
                           EmptyString);
      split; intros H; first [discriminate | exact H].
  - intros E. unfold getRepoPath. rewrite E. simpl. eexists. reflexivity.
Qed.

Lemma getRepoPath_aliases_witness :
  Str.toUpperCase "totvs" ∈ ["TOTVS"; "STANDARD"; "TOTVS_STANDARD"]
  /\ (getRepoPath Sample.vendorEnv "totvs" = Returns "/totvs" <->
      getRepoPath Sample.vendorEnv "STANDARD" = Returns "/totvs").
Proof.
  split.
  - apply (bool_decide_unpack _). vm_compute. exact I.
  - apply (proj1 (getRepoPath_aliases Sample.vendorEnv "totvs")).
    apply (bool_decide_unpack _). vm_compute. exact I.
Defined.

(** ** Orchestrator: which repository is searched *)

(** Without an explicit path, the root that is searched is the configured
    path of the resolved environment. A routine classified standard is
    always looked up in the vendor tree, whatever environment was asked
    for; a custom one goes to the environment asked for, and under AUTO to
    HML when its upper-cased name starts with [U_] and to the vendor tree
    otherwise. PRD is never chosen by AUTO. *)
Theorem resolveRoutine_environment (fs : FileSystem)
    (processEnv : gmap string string) (st st1 : State)
    (params : RelatorioRotinaParams) (r : Resolved) :
  truthy (param_repoPath params) = None ->
  resolveRoutine fs processEnv st params = (inr r, st1) ->
  getRepoPath processEnv (res_env r) = Returns (res_repoPath r)
  /\ res_isStandard r
     = fst (isStandardRoutine fs st (baseNameUpper (res_normalized r)) None)
  /\ (res_isStandard r = true -> res_env r = "STANDARD")
  /\ (res_isStandard r = false ->
      res_env r
      = if String.eqb (default "AUTO" (param_env params)) "AUTO"
        then if Str.startsWith (baseNameUpper (res_normalized r)) "U_"
             then "HML" else "STANDARD"
        else default "AUTO" (param_env params)).
Proof.
  unfold resolveRoutine. intros Hman H. rewrite Hman in H.
  destruct (truthy (param_routine params)) as [routineName|]; [|discriminate].
  destruct (normalizeRoutineName routineName) as [n|m]; [|discriminate].
  destruct (isStandardRoutine fs st (baseNameUpper n) None) as [isStandard st'] eqn:Hc.
  destruct isStandard.
  - destruct (getRepoPath processEnv "STANDARD") as [root|] eqn:Hroot; [|discriminate].
    injection H as <- _. simpl. rewrite Hc.
    split; [exact Hroot|]. split; [reflexivity|]. split; [reflexivity|].
    intros F. discriminate F.
  - destruct (getRepoPath processEnv _) as [root|] eqn:Hroot; [|discriminate].
    injection H as <- _. simpl. rewrite Hc.
    split; [exact Hroot|]. split; [reflexivity|].
    split; [intros F; discriminate F | reflexivity].
Qed.

Lemma resolveRoutine_environment_witness :
  exists r,
    resolveRoutine Sample.emptyVendorTree Sample.vendorEnv initialState
                   (Sample.lookupIn "prd" "MATA010")
    = (inr r, snd (resolveRoutine Sample.emptyVendorTree Sample.vendorEnv
                                  initialState (Sample.lookupIn "prd" "MATA010")))
    /\ getRepoPath Sample.vendorEnv (res_env r) = Returns (res_repoPath r)
    /\ res_isStandard r = true
    /\ res_env r = "STANDARD".
Proof.
  eexists. split; [vm_compute; reflexivity|].
  match goal with
  | |- getRepoPath _ (res_env ?r) = _ /\ _ =>
      pose proof (resolveRoutine_environment Sample.emptyVendorTree
                    Sample.vendorEnv initialState _
                    (Sample.lookupIn "prd" "MATA010") r eq_refl
                    ltac:(vm_compute; reflexivity)) as (H1 & H2 & H3 & _)
  end.
  split; [exact H1|]. split; [reflexivity | exact (H3 eq_refl)].
Defined.

(** An explicit path overrides everything: the root is the path given and
    the environment is MANUAL; the routine is not classified (the answer
    says it is not standard), and the state of the tool is left as it was,
    so nothing is cached, no file is read for classification and no
    discovery pass runs. *)
Theorem execute_manual_override (fs : FileSystem)
    (processEnv : gmap string string) (st : State)
    (params : RelatorioRotinaParams) (manualRepoPath : string) :
  default "renderReportMarkdown" (param_action params) <> "searchByTable" ->
  truthy (param_repoPath params) = Some manualRepoPath ->
  snd (execute fs processEnv st params) = st
  /\ match fst (execute fs processEnv st params) with
     | NotFound info =>
         nf_repoPath info = manualRepoPath /\ nf_env info = "MANUAL"
         /\ nf_isStandard info = false
     | ActionResult _ located env root isStandard =>
         root = manualRepoPath /\ env = "MANUAL" /\ isStandard = false
         /\ exists n, findRoutineFile fs manualRepoPath n = Some located
     | InvalidAction _ | RoutineRequired | Unexpected _ => True
     | _ => False
     end.
Proof.
  intros Haction Hman. unfold execute.
  destruct (String.eqb_spec (default "renderReportMarkdown" (param_action params))
                            "searchByTable") as [E | _]; [contradiction|].
  unfold resolveRoutine. rewrite Hman.
  destruct (truthy (param_routine params)) as [routineName|]; [|split; reflexivity].
  destruct (normalizeRoutineName routineName) as [n|m]; [|split; reflexivity].
  unfold locateAndRun.
  cbn [res_repoPath res_normalized res_action res_env res_isStandard res_routine].
  destruct (findRoutineFile fs manualRepoPath n) as [located|] eqn:Hf.
  - destruct (includesString knownActions
                (default "renderReportMarkdown" (param_action params)));
      cbn [fst snd]; [|split; reflexivity].
    split; [reflexivity|]. repeat split. exists n. exact Hf.
  - cbn [fst snd nf_repoPath nf_env nf_isStandard]. repeat split.
Qed.

Lemma execute_manual_override_witness :
  snd (execute Sample.directHit Sample.vendorEnv initialState
               (Sample.manualIn "/src" "MATA010")) = initialState
  /\ match fst (execute Sample.directHit Sample.vendorEnv initialState
                        (Sample.manualIn "/src" "MATA010")) with
     | NotFound info =>
         nf_repoPath info = "/src" /\ nf_env info = "MANUAL"
         /\ nf_isStandard info = false
     | ActionResult _ located env root isStandard =>
         root = "/src" /\ env = "MANUAL" /\ isStandard = false
         /\ exists n, findRoutineFile Sample.directHit "/src" n = Some located
     | InvalidAction _ | RoutineRequired | Unexpected _ => True
     | _ => False
     end.
Proof.
  apply (execute_manual_override Sample.directHit Sample.vendorEnv initialState
           (Sample.manualIn "/src" "MATA010") "/src").
  - vm_compute. discriminate.
  - reflexivity.
Defined.

(** ** The pattern matcher takes what its elements allow *)

Lemma exec_chars (p : ascii -> bool) (min : nat) (max : option nat)
    (rest : list Re.Item) (prev : option ascii) (s : string) :
  Re.exec (Re.Chars p min max :: rest) prev s
  = repFrom p min max (Re.exec rest) 0 EmptyString prev s.
Proof. reflexivity. Qed.

Lemma allChars_snoc (p : ascii -> bool) (t : string) (c : ascii) :
  allChars p (t +:+ String c EmptyString) = allChars p t && p c.
Proof.
  induction t as [|x t IH]; simpl.
  - rewrite ?app_empty_l. simpl. rewrite andb_true_r. reflexivity.
  - rewrite ?app_cons. simpl. rewrite IH, andb_assoc. reflexivity.
Qed.

Lemma length_snoc (t : string) (c : ascii) :
  String.length (t +:+ String c EmptyString) = S (String.length t).
Proof. rewrite length_app_str. simpl. lia. Qed.

Lemma repFrom_sound (p : ascii -> bool) (min : nat) (max : option nat)
    (cont : option ascii -> string -> option (list string * string))
    (Q : list string -> Prop) :
  (forall prev s texts remaining,
      cont prev s = Some (texts, remaining) ->
      Q texts /\ s = concatAll texts +:+ remaining) ->
  forall (s : string) (k : nat) (taken : string) (prev : option ascii)
         (texts : list string) (remaining : string),
    allChars p taken = true ->
    String.length taken = k ->
    (forall m, max = Some m -> k <= m) ->
    repFrom p min max cont k taken prev s = Some (texts, remaining) ->
    exists t texts',
      texts = t :: texts'
      /\ accepts (Re.Chars p min max) t
      /\ Q texts'
      /\ taken +:+ s = t +:+ concatAll texts' +:+ remaining.
Proof.
  intros Hcont.
  assert (Hstop : forall s k taken prev texts remaining,
             allChars p taken = true -> String.length taken = k ->
             (forall m, max = Some m -> k <= m) ->
             (if Nat.leb min k
              then match cont prev s with
                   | Some (texts, remaining) => Some (taken :: texts, remaining)
                   | None => None
                   end
              else None) = Some (texts, remaining) ->
             exists t texts',
               texts = t :: texts' /\ accepts (Re.Chars p min max) t /\ Q texts'
               /\ taken +:+ s = t +:+ concatAll texts' +:+ remaining).
  { intros s k taken prev texts remaining Hall Hlen Hmax H.
    destruct (Nat.leb_spec min k) as [Hmin | _]; [|discriminate].
    destruct (cont prev s) as [[texts' rem]|] eqn:Hc; [|discriminate].
    injection H as <- <-. destruct (Hcont _ _ _ _ Hc) as [HQ ->].
    exists taken, texts'. split; [reflexivity|]. split; [|split; [exact HQ | reflexivity]].
    simpl. split; [exact Hall|]. split; [lia|]. intros m Hm. rewrite Hlen. auto. }
  induction s as [|c s IH]; intros k taken prev texts remaining Hall Hlen Hmax H.
  - simpl in H. eapply Hstop; eauto.
  - simpl in H.
    destruct (Re.belowMax k max && p c) eqn:Htake; [|eapply Hstop; eauto].
    apply andb_true_iff in Htake as [Hbelow Hp].
    destruct (repFrom p min max cont (S k) _ (Some c) s) as [[texts1 rem1]|] eqn:Hrec.
    + injection H as <- <-.
      destruct (IH (S k) (taken +:+ String c EmptyString) (Some c) texts1 rem1)
        as (t & texts' & E & Ha & HQ & Hs).
      * rewrite allChars_snoc, Hall, Hp. reflexivity.
      * rewrite length_snoc, Hlen. reflexivity.
      * intros m Hm. unfold Re.belowMax in Hbelow. rewrite Hm in Hbelow.
        apply Nat.ltb_lt in Hbelow. lia.
      * exact Hrec.
      * exists t, texts'. split; [exact E|]. split; [exact Ha|]. split; [exact HQ|].
        rewrite <- Hs, app_assoc_str. reflexivity.
    + eapply Hstop; eauto.
Qed.

(** A successful match splits the input: the texts taken by the elements,
    put end to end and followed by what is left, are the input, and every
    text is one its element allows. *)
Lemma exec_sound (items : list Re.Item) :
  forall (prev : option ascii) (s : string) (texts : list string)
         (remaining : string),
    Re.exec items prev s = Some (texts, remaining) ->
    Forall2 accepts items texts /\ s = concatAll texts +:+ remaining.
Proof.
  induction items as [|item rest IH]; intros prev s texts remaining H.
  - simpl in H. injection H as <- <-. split; [constructor | reflexivity].
  - destruct item as [p min max|].
    + rewrite exec_chars in H.
      destruct (repFrom_sound p min max (Re.exec rest) (Forall2 accepts rest) IH
                  s 0 EmptyString prev texts remaining)
        as (t & texts' & -> & Ha & HQ & Hs); [reflexivity | reflexivity | | exact H |].
      * intros m _. lia.
      * split; [constructor; assumption|]. rewrite app_empty_l in Hs.
        simpl. rewrite app_assoc_str. exact Hs.
    + simpl in H. destruct (Re.atBoundary prev s); [|discriminate].
      destruct (Re.exec rest prev s) as [[texts' rem]|] eqn:Hr; [|discriminate].
      injection H as <- <-. destruct (IH _ _ _ _ Hr) as [HQ Hs].
      split; [constructor; [reflexivity | exact HQ]|]. simpl. exact Hs.
Qed.

(** ** The discovered prefixes *)

Lemma grows_refl (st : State) : grows st st.
Proof. split; [reflexivity | auto]. Qed.

Lemma grows_trans (st1 st2 st3 : State) :
  grows st1 st2 -> grows st2 st3 -> grows st1 st3.
Proof.
  intros [H1 W1] [H2 W2]. split; [etrans; eassumption|].
  intros prefix H. destruct (W2 _ H) as [H' | H']; auto.
Qed.

Lemma sameDiscovery_grows (st st' : State) : sameDiscovery st st' -> grows st st'.
Proof. intros [E _]. split; rewrite E; [reflexivity | auto]. Qed.

Lemma matchAtStart_prefix (fileName prefix : string) (texts : list string) :
  Re.matchAtStart prefixPattern fileName = Some (prefix :: texts) ->
  wellFormedPrefix prefix /\ exists rest, fileName = prefix +:+ rest.
Proof.
  unfold Re.matchAtStart. intros H.
  destruct (Re.exec prefixPattern None fileName) as [[texts' rem]|] eqn:E;
    [|discriminate].
  injection H as ->. apply exec_sound in E as [Ha Hs].
  unfold prefixPattern in Ha.
  apply Forall2_cons_1 in Ha as [Hacc Hrest].
  apply Forall2_nil_inv_l in Hrest. rewrite Hrest in Hs.
  simpl in Hacc. destruct Hacc as (Hall & Hmin & Hmax).
  specialize (Hmax 4 eq_refl). split.
  - split; [exact Hall | lia].
  - exists rem. simpl in Hs. rewrite app_empty_r in Hs. exact Hs.
Qed.

Lemma discoverFile_grows (fs : FileSystem) (st : State) (file : string) :
  grows st (discoverFile fs st file).
Proof.
  unfold discoverFile.
  pose proof (sameDiscovery_grows _ _ (analyzeFileContent_sameDiscovery fs st file))
    as H.
  destruct (analyzeFileContent fs st file) as [isStandard st1]. simpl in H.
  destruct isStandard; [|exact H].
  destruct (Re.matchAtStart prefixPattern _) as [[|prefix texts]|] eqn:Hm;
    try exact H.
  apply matchAtStart_prefix in Hm as [Hwf _].
  eapply grows_trans; [exact H|]. split; simpl.
  - apply union_subseteq_r.
  - intros q Hq. apply elem_of_union in Hq as [Hq | Hq]; [|auto].
    apply elem_of_singleton in Hq. subst q. auto.
Qed.

Lemma discoverStandardPrefixes_grows (fs : FileSystem) (st : State)
    (repoPath : string) :
  grows st (discoverStandardPrefixes fs st repoPath).
Proof.
  unfold discoverStandardPrefixes.
  generalize (getAllFilesRecursive fs repoPath sourceExtensions 5 0). intros files.
  apply grows_trans with (logEvent (EvDiscovery repoPath) st).
  { split; [reflexivity | auto]. }
  generalize (logEvent (EvDiscovery repoPath) st). clear st.
  induction files as [|file files IH]; intros st; simpl; [apply grows_refl|].
  eapply grows_trans; [apply discoverFile_grows | apply IH].
Qed.

Lemma execute_grows (fs : FileSystem) (processEnv : gmap string string)
    (st : State) (params : RelatorioRotinaParams) :
  grows st (snd (execute fs processEnv st params)).
Proof.
  unfold execute. destruct (String.eqb _ "searchByTable").
  - unfold searchAction.
    destruct (truthy (param_table params)) as [tableName|]; [|apply grows_refl].
    destruct (truthy (param_repoPath params)) as [manual|].
    + pose proof (executeSearchByTable_sameDiscovery fs st tableName manual
                    (default false (param_includeStandard params))
                    (default 50%Z (param_maxResults params))) as H.
      destruct (executeSearchByTable _ _ _ _ _ _). apply sameDiscovery_grows, H.
    + destruct (getRepoPath processEnv _) as [root|]; [|apply grows_refl].
      pose proof (executeSearchByTable_sameDiscovery fs st tableName root
                    (default false (param_includeStandard params))
                    (default 50%Z (param_maxResults params))) as H.
      destruct (executeSearchByTable _ _ _ _ _ _). apply sameDiscovery_grows, H.
  - assert (H : grows st (snd (resolveRoutine fs processEnv st params))).
    { unfold resolveRoutine.
      destruct (truthy (param_routine params)) as [routineName|]; [|apply grows_refl].
      destruct (normalizeRoutineName routineName) as [n|]; [|apply grows_refl].
      destruct (truthy (param_repoPath params)); [apply grows_refl|].
      pose proof (sameDiscovery_grows _ _
                    (isStandardRoutine_sameDiscovery fs st (baseNameUpper n) None))
        as H1.
      destruct (isStandardRoutine fs st (baseNameUpper n) None) as [isStandard st1].
      simpl in H1. destruct isStandard.
      - destruct (getRepoPath processEnv "STANDARD"); [|exact H1]. simpl.
        destruct (Nat.eqb _ 0); [|exact H1].
        eapply grows_trans; [exact H1 | apply discoverStandardPrefixes_grows].
      - destruct (getRepoPath processEnv _); exact H1. }
    destruct (resolveRoutine fs processEnv st params) as [[answer | r] st1];
      [exact H|].
    rewrite locateAndRun_state. exact H.
Qed.

Lemma runCalls_grows (calls : list Call) (st : State) : grows st (runCalls st calls).
Proof.
  revert st. induction calls as [|c calls IH]; intros st; [apply grows_refl|].
  simpl. eapply grows_trans; [|apply IH]. destruct c; simpl.
  - apply sameDiscovery_grows, isStandardRoutine_sameDiscovery.
  - apply discoverStandardPrefixes_grows.
  - apply sameDiscovery_grows, executeSearchByTable_sameDiscovery.
  - apply execute_grows.
Qed.

Lemma matchesKnownPrefix_iff (st : State) (routineName : string) :
  matchesKnownPrefix st routineName = true <->
  exists prefix,
    (In prefix KNOWN_STANDARD_PREFIXES \/ prefix ∈ discoveredPrefixes st)
    /\ Str.startsWith routineName (Str.toUpperCase prefix) = true.
Proof.
  unfold matchesKnownPrefix. rewrite existsb_exists. split.
  - intros (prefix & Hin & Hs). exists prefix. split; [|exact Hs].
    apply in_app_or in Hin as [H | H]; [left; exact H|].
    right. apply elem_of_elements, list_elem_of_In. exact H.
  - intros (prefix & [H | H] & Hs); exists prefix; (split; [|exact Hs]);
      apply in_or_app; [left; exact H|].
    right. apply list_elem_of_In, elem_of_elements. exact H.
Qed.

(** The set of discovered prefixes never shrinks, whatever the tool is
    asked to do; so a name that the prefix tables match keeps being
    matched for the rest of the process. *)
Theorem discoveredPrefixes_only_grow (st : State) (calls : list Call) :
  discoveredPrefixes st ⊆ discoveredPrefixes (runCalls st calls)
  /\ forall routineName,
       matchesKnownPrefix st routineName = true ->
       matchesKnownPrefix (runCalls st calls) routineName = true.
Proof.
  destruct (runCalls_grows calls st) as [Hsub _]. split; [exact Hsub|].
  intros routineName H. apply matchesKnownPrefix_iff in H as (prefix & Hin & Hs).
  apply matchesKnownPrefix_iff. exists prefix. split; [|exact Hs].
  destruct Hin as [Hin | Hin]; [left; exact Hin | right; apply Hsub; exact Hin].
Qed.

(** In a process started with a fresh tool, every discovered prefix is
    made of three or four capital letters, whatever trees were scanned. *)
Theorem discoveredPrefixes_well_formed (calls : list Call) (prefix : string) :
  prefix ∈ discoveredPrefixes (runCalls initialState calls) ->
  wellFormedPrefix prefix.
Proof.
  intros H. destruct (runCalls_grows calls initialState) as [_ Hwf].
  destruct (Hwf prefix H) as [Hin | Hw]; [|exact Hw].
  simpl in Hin. apply not_elem_of_empty in Hin. contradiction.
Qed.

Lemma discoveredPrefixes_well_formed_witness :
  "MATA" ∈ discoveredPrefixes
             (runCalls initialState
                [CallExecute Sample.vendorTree Sample.vendorEnv
                             (Sample.lookup "MATA010")])
  /\ wellFormedPrefix "MATA".
Proof.
  assert (H : "MATA" ∈ discoveredPrefixes
                         (runCalls initialState
                            [CallExecute Sample.vendorTree Sample.vendorEnv
                                         (Sample.lookup "MATA010")])).
  { apply (bool_decide_unpack _). vm_compute. exact I. }
  split; [exact H|].
  exact (discoveredPrefixes_well_formed _ _ H).
Defined.

Lemma discoverFiles_grows (fs : FileSystem) (files : list string) (st : State) :
  grows st (fold_left (discoverFile fs) files st).
Proof.
  revert st. induction files as [|file files IH]; intros st; simpl;
    [apply grows_refl|].
  eapply grows_trans; [apply discoverFile_grows | apply IH].
Qed.

Lemma discoverFiles_adds (fs : FileSystem) (files : list string) (st : State)
    (file content prefix : string) (texts : list string) :
  file ∈ files ->
  readFile fs Utf8 file = Some content ->
  inspectContent content = true ->
  Re.matchAtStart prefixPattern (Path.basenameWithout file (Path.extname file))
    = Some (prefix :: texts) ->
  prefix ∈ discoveredPrefixes (fold_left (discoverFile fs) files st).
Proof.
  intros Hin Hread Hstd Hm. revert st.
  induction files as [|f files IH]; intros st; [inversion Hin|].
  apply elem_of_cons in Hin as [<- | Hin]; [|simpl; apply IH; exact Hin].
  simpl. apply (proj1 (discoverFiles_grows fs files _)).
  unfold discoverFile, analyzeFileContent. rewrite Hread, Hstd, Hm. simpl.
  apply elem_of_union_l, elem_of_singleton. reflexivity.
Qed.

Lemma toUpperCase_app (a b : string) :
  Str.toUpperCase (a +:+ b) = Str.toUpperCase a +:+ Str.toUpperCase b.
Proof.
  unfold Str.toUpperCase. induction a as [|c a IH]; [reflexivity|].
  rewrite app_cons. simpl. rewrite IH. reflexivity.
Qed.

Lemma upperChar_upper (c : ascii) : Str.isUpper c = true -> Str.upperChar c = c.
Proof. destruct c as [[] [] [] [] [] [] [] []]; intros H; try reflexivity; discriminate H. Qed.

Lemma toUpperCase_capitals (s : string) :
  allChars Str.isUpper s = true -> Str.toUpperCase s = s.
Proof.
  unfold Str.toUpperCase. induction s as [|c s IH]; [reflexivity|].
  simpl. intros H. apply andb_true_iff in H as [Hc Hs].
  rewrite (upperChar_upper c Hc), (IH Hs). reflexivity.
Qed.

Lemma capitals_not_custom (prefix rest : string) :
  wellFormedPrefix prefix ->
  Str.startsWith (prefix +:+ rest) "U_" = false.
Proof.
  intros [Hall Hlen].
  destruct prefix as [|c1 [|c2 prefix]]; cbn [String.length] in Hlen; try lia.
  rewrite !app_cons.
  change (Str.startsWith (String c1 (String c2 (prefix +:+ rest))) "U_")
    with (Ascii.eqb "U" c1
          && (Ascii.eqb "_" c2 && Str.startsWith (prefix +:+ rest) EmptyString)).
  cbn [allChars] in Hall.
  apply andb_true_iff in Hall as [_ Hall]. apply andb_true_iff in Hall as [H2 _].
  assert (E : Ascii.eqb "_" c2 = false).
  { apply Ascii.eqb_neq. intros <-. discriminate H2. }
  rewrite E. destruct (Ascii.eqb "U" c1); reflexivity.
Qed.

(** The pass teaches what it saw. After a discovery pass over a tree, take
    any source file of that tree that was read and judged standard by its
    content, and whose name begins with three capital letters: its leading
    three or four capitals are a discovered prefix, the prefix tables match
    the file's name, and the name is classified standard from then on,
    without any file being read, unless the cache already holds a decision
    for it. *)
Theorem discovery_learns (fs : FileSystem) (st : State)
    (repoPath file content prefix : string) (texts : list string) :
  file ∈ getAllFilesRecursive fs repoPath sourceExtensions 5 0 ->
  readFile fs Utf8 file = Some content ->
  inspectContent content = true ->
  Re.matchAtStart prefixPattern (Path.basenameWithout file (Path.extname file))
    = Some (prefix :: texts) ->
  let st' := discoverStandardPrefixes fs st repoPath in
  let fileName := Path.basenameWithout file (Path.extname file) in
  prefix ∈ discoveredPrefixes st'
  /\ matchesKnownPrefix st' (cacheKey fileName) = true
  /\ forall (fs' : FileSystem) (path : option string),
       standardPrefixCache st' !! cacheKey fileName = None ->
       isStandardRoutine fs' st' fileName path
       = (true, cacheSet (cacheKey fileName) true st').
Proof.
  intros Hin Hread Hstd Hm st' fileName.
  assert (Hp : prefix ∈ discoveredPrefixes st').
  { unfold st', discoverStandardPrefixes.
    eapply discoverFiles_adds; eauto. }
  destruct (matchAtStart_prefix _ _ _ Hm) as [Hwf [rest Hname]].
  fold fileName in Hname.
  assert (Hupper : Str.toUpperCase fileName = prefix +:+ Str.toUpperCase rest).
  { rewrite Hname, toUpperCase_app, (toUpperCase_capitals prefix); [reflexivity|].
    apply Hwf. }
  assert (Hcustom : Str.startsWith (Str.toUpperCase fileName) "U_" = false).
  { rewrite Hupper. apply capitals_not_custom. exact Hwf. }
  assert (Hkey : cacheKey fileName = Str.toUpperCase fileName).
  { unfold cacheKey. rewrite Hcustom. reflexivity. }
  assert (Hmatch : matchesKnownPrefix st' (cacheKey fileName) = true).
  { apply matchesKnownPrefix_iff. exists prefix. split; [right; exact Hp|].
    rewrite Hkey, Hupper, (toUpperCase_capitals prefix) by apply Hwf.
    apply startsWith_prefix. }
  split; [exact Hp|]. split; [exact Hmatch|].
  intros fs' path Hmiss. unfold isStandardRoutine.
  rewrite Hmiss, Hcustom, Hmatch. reflexivity.
Qed.

Lemma discovery_learns_witness :
  "MATA" ∈ discoveredPrefixes
             (discoverStandardPrefixes Sample.vendorTree initialState "/totvs")
  /\ matchesKnownPrefix
       (discoverStandardPrefixes Sample.vendorTree initialState "/totvs")
       (cacheKey (Path.basenameWithout "/totvs/MATA010.PRW"
                                       (Path.extname "/totvs/MATA010.PRW")))
     = true.
Proof.
  pose proof (discovery_learns Sample.vendorTree initialState "/totvs"
                "/totvs/MATA010.PRW" "Function MATA010()" "MATA" []
                ltac:(apply (bool_decide_unpack _); vm_compute; exact I)
                ltac:(reflexivity)
                ltac:(vm_compute; reflexivity)
                ltac:(vm_compute; reflexivity)) as (H1 & H2 & _).
  split; [exact H1 | exact H2].
Defined.

(** ** RoutineClassifier: letter case *)


(** ** Table search: what the rows are *)

Lemma searchLoop_rows (fs : FileSystem) (tableUpper : string)
    (includeStandard : bool) (maxResults : Z) (allFiles files : list string)
    (st : State) (rows : list TableSearchResult) :
  (forall f, f ∈ files -> f ∈ allFiles) ->
  Forall (rowOf fs tableUpper allFiles) rows ->
  Forall (rowOf fs tableUpper allFiles)
         (fst (searchLoop fs tableUpper includeStandard maxResults files st rows)).
Proof.
  revert st rows. induction files as [|f rest IH]; intros st rows Hsub Hrows;
    [exact Hrows|].
  assert (Hrest : forall g, g ∈ rest -> g ∈ allFiles).
  { intros g Hg. apply Hsub. right. exact Hg. }
  cbn [searchLoop].
  destruct (readFile fs Latin1 f) as [content|] eqn:Hread; [|apply IH; assumption].
  destruct (hasTableReference (Str.toUpperCase content) tableUpper) eqn:Href;
    cbn [negb]; [|apply IH; assumption].
  destruct (isStandardRoutine fs _ _ _) as [isStandard st1].
  destruct (isStandard && negb includeStandard); [apply IH; assumption|].
  assert (Hnew : Forall (rowOf fs tableUpper allFiles)
                   (rows ++ [ {| routine := Path.basenameWithout f (Path.extname f);
                                 file := Path.basename f;
                                 filePath := f;
                                 usage := analyzeTableUsage content tableUpper |} ])).
  { apply Forall_app. split; [exact Hrows|]. constructor; [|constructor].
    split; [apply Hsub; left|]. split; [reflexivity|]. split; [reflexivity|].
    exists content. auto. }
  destruct (_ >=? maxResults)%Z; [exact Hnew | apply IH; assumption].
Qed.

(** Every row of a table search stands for a file that the depth-5 walk
    of the root found, that could be read, and whose upper-cased content
    refers to the table; the row carries the name of that file and the
    analysis of its content. No row is made up, and none is given for a
    file that does not mention the table. *)
Theorem search_rows_sound (fs : FileSystem) (st : State)
    (tableName repoPath : string) (includeStandard : bool) (maxResults : Z)
    (r : TableSearchResult) :
  r ∈ results (fst (executeSearchByTable fs st tableName repoPath includeStandard
                                         maxResults)) ->
  rowOf fs (Str.toUpperCase tableName)
        (getAllFilesRecursive fs repoPath sourceExtensions 5 0) r.
Proof.
  unfold executeSearchByTable.
  pose proof (searchLoop_rows fs (Str.toUpperCase tableName) includeStandard
                maxResults (getAllFilesRecursive fs repoPath sourceExtensions 5 0)
                (getAllFilesRecursive fs repoPath sourceExtensions 5 0) st []
                (fun f H => H) (Forall_nil_2 _)) as H.
  destruct (searchLoop _ _ _ _ _ _ _) as [found st']. cbn [fst snd results] in *.
  intros Hr. rewrite (sortWith_perm compareRows found) in Hr.
  rewrite Forall_forall in H. apply H. exact Hr.
Qed.

Lemma search_rows_sound_witness :
  exists r,
    Sample.searchRows 50 !! 0 = Some r
    /\ rowOf Sample.customTree "PD3"
             (getAllFilesRecursive Sample.customTree "/hml" sourceExtensions 5 0) r.
Proof.
  eexists. split; [vm_compute; reflexivity|].
  apply (search_rows_sound Sample.customTree initialState "PD3" "/hml" false 50).
  apply (list_elem_of_lookup_2 _ 0). vm_compute. reflexivity.
Defined.

Lemma cachedCustom_keeps (fs : FileSystem) (st : State) (routineName : string)
    (path : option string) (rows : list TableSearchResult) :
  Forall (cachedCustom st) rows ->
  Forall (cachedCustom (snd (isStandardRoutine fs st routineName path))) rows.
Proof.
  intros Hrows. eapply Forall_impl; [exact Hrows|].
  intros r H. apply isStandardRoutine_keeps. exact H.
Qed.

Lemma searchLoop_custom (fs : FileSystem) (tableUpper : string)
    (maxResults : Z) (files : list string) (st : State)
    (rows : list TableSearchResult) :
  Forall (cachedCustom st) rows ->
  Forall (cachedCustom (snd (searchLoop fs tableUpper false maxResults files st rows)))
         (fst (searchLoop fs tableUpper false maxResults files st rows)).
Proof.
  revert st rows. induction files as [|f rest IH]; intros st rows Hrows;
    [exact Hrows|].
  cbn [searchLoop].
  assert (H0 : Forall (cachedCustom (logEvent (EvReadFile Latin1 f) st)) rows)
    by exact Hrows.
  destruct (readFile fs Latin1 f) as [content|]; [|apply IH; exact H0].
  destruct (hasTableReference (Str.toUpperCase content) tableUpper);
    cbn [negb]; [|apply IH; exact H0].
  pose proof (cachedCustom_keeps fs (logEvent (EvReadFile Latin1 f) st)
                (Path.basenameWithout f (Path.extname f)) (Some f) rows H0) as H1.
  pose proof (isStandardRoutine_records fs (logEvent (EvReadFile Latin1 f) st)
                (Path.basenameWithout f (Path.extname f)) (Some f)) as Hrec.
  destruct (isStandardRoutine fs _ _ _) as [isStandard st1]. cbn [fst snd] in *.
  destruct isStandard; cbn [andb negb]; [apply IH; exact H1|].
  assert (Hnew : Forall (cachedCustom st1)
                   (rows ++ [ {| routine := Path.basenameWithout f (Path.extname f);
                                 file := Path.basename f;
                                 filePath := f;
                                 usage := analyzeTableUsage content tableUpper |} ])).
  { apply Forall_app. split; [exact H1|]. constructor; [exact Hrec | constructor]. }
  destruct (_ >=? maxResults)%Z; [exact Hnew | apply IH; exact Hnew].
Qed.

(** A search that leaves the standard routines out returns custom
    routines only: when it ends, the cache holds the decision custom for
    the routine of every row. *)
Theorem search_excludes_standard (fs : FileSystem) (st : State)
    (tableName repoPath : string) (maxResults : Z) (r : TableSearchResult) :
  let answer := executeSearchByTable fs st tableName repoPath false maxResults in
  r ∈ results (fst answer) ->
  standardPrefixCache (snd answer) !! cacheKey (routine r) = Some false.
Proof.
  unfold executeSearchByTable.
  pose proof (searchLoop_custom fs (Str.toUpperCase tableName) maxResults
                (getAllFilesRecursive fs repoPath sourceExtensions 5 0) st []
                (Forall_nil_2 _)) as H.
  destruct (searchLoop _ _ _ _ _ _ _) as [found st']. cbn [fst snd results] in *.
  intros Hr. rewrite (sortWith_perm compareRows found) in Hr.
  rewrite Forall_forall in H. apply H. exact Hr.
Qed.

Lemma search_excludes_standard_witness :
  exists r,
    Sample.searchRows 50 !! 0 = Some r
    /\ standardPrefixCache
         (snd (executeSearchByTable Sample.customTree initialState "PD3" "/hml"
                                    false 50))
         !! cacheKey (routine r) = Some false.
Proof.
  eexists. split; [vm_compute; reflexivity|].
  apply (search_excludes_standard Sample.customTree initialState "PD3" "/hml" 50).
  apply (list_elem_of_lookup_2 _ 0). vm_compute. reflexivity.
Defined.

(** ** TableUsageAnalyzer: the analysis of one file *)

Lemma allMatches_search (items : list Re.Item) (s : string) (prev : option ascii) :
  Re.allMatches items 0 prev s <> [] -> is_Some (Re.search items prev s).
Proof.
  revert prev. induction s as [|c s IH]; intros prev H.
  - cbn [Re.allMatches] in H. apply search_here.
    destruct (Re.exec items prev EmptyString) as [r|]; [eexists; reflexivity|].
    contradiction.
  - cbn [Re.allMatches] in H. rewrite search_cons.
    destruct (Re.exec items prev (String c s)) as [[texts remaining]|];
      [eexists; reflexivity|].
    apply IH. exact H.
Qed.

Lemma allMatches_sound (items : list Re.Item) (texts : list string) (s : string) :
  forall (skip : nat) (prev : option ascii),
    In texts (Re.allMatches items skip prev s) ->
    exists prev' s' remaining, Re.exec items prev' s' = Some (texts, remaining).
Proof.
  induction s as [|c s IH]; intros skip prev H.
  - destruct skip; cbn [Re.allMatches] in H; [|destruct H].
    destruct (Re.exec items prev EmptyString) as [[texts' remaining]|] eqn:E;
      [|destruct H].
    destruct H as [<- | []]. eauto.
  - destruct skip; cbn [Re.allMatches] in H; [|eapply IH; exact H].
    destruct (Re.exec items prev (String c s)) as [[texts' remaining]|] eqn:E;
      [|eapply IH; exact H].
    destruct H as [<- | H]; [eauto | eapply IH; exact H].
Qed.

Lemma functionPattern_capture (keyword : string) (texts : list string)
    (prev : option ascii) (s remaining : string) :
  Re.exec (functionPattern keyword) prev s = Some (texts, remaining) ->
  capture texts <> EmptyString /\ allChars Str.isWord (capture texts) = true.
Proof.
  intros H. apply exec_sound in H as [Ha _].
  unfold functionPattern in Ha.
  replace (Re.textI keyword ++ [Re.plus Re.space] ++ Re.textI "FUNCTION"
             ++ [Re.plus Re.space; Re.plus Re.word])
    with ((Re.textI keyword ++ [Re.plus Re.space] ++ Re.textI "FUNCTION"
             ++ [Re.plus Re.space]) ++ [Re.plus Re.word]) in Ha
    by (rewrite <- !app_assoc; reflexivity).
  apply Forall2_app_inv_l in Ha as (k1 & k2 & _ & H2 & ->).
  apply Forall2_cons_inv_l in H2 as (t & k3 & Hacc & H3 & ->).
  apply Forall2_nil_inv_l in H3 as ->.
  unfold capture. rewrite last_last.
  cbn [accepts Re.plus] in Hacc. destruct Hacc as (Hall & Hmin & _).
  split; [|exact Hall]. intros ->. simpl in Hmin. lia.
Qed.

Lemma functionNames_identifiers (keyword content f : string) :
  f ∈ Str.unique (map capture (Re.matchAll (functionPattern keyword) content)) ->
  f <> EmptyString /\ allChars Str.isWord f = true.
Proof.
  rewrite unique_elem, list_elem_of_In, in_map_iff.
  intros (texts & <- & Hin).
  apply allMatches_sound in Hin as (prev' & s' & remaining & E).
  eapply functionPattern_capture. exact E.
Qed.

(** What the analysis of a file says hangs together. The category is
    Browse exactly when the browse flag is set, and CRUD exactly when it is
    not and one of the insert, update and delete flags is; the two lists of
    function names have no duplicates and hold nothing but non-empty
    identifiers. *)
Theorem analyzeTableUsage_result (content tableUpper : string) :
  let u := analyzeTableUsage content tableUpper in
  (usageType u = Browse <-> hasBrowse u = true)
  /\ (usageType u = CRUD <->
      hasBrowse u = false /\ (hasInsert u || hasUpdate u || hasDelete u) = true)
  /\ NoDup (userFunctions u)
  /\ NoDup (staticFunctions u)
  /\ forall f, f ∈ userFunctions u \/ f ∈ staticFunctions u ->
               f <> EmptyString /\ allChars Str.isWord f = true.
Proof.
  unfold analyzeTableUsage.
  cbn [usageType hasBrowse hasInsert hasUpdate hasDelete userFunctions staticFunctions].
  split; [|split; [|split; [|split]]].
  - repeat match goal with
           | |- context [if ?b then _ else _] => destruct b
           end; split; intros H; first [reflexivity | discriminate H].
  - repeat match goal with
           | |- context [if ?b then _ else _] => destruct b
           end; split; intros H;
      first [ discriminate H | exfalso; destruct H; discriminate
            | split; reflexivity | reflexivity ].
  - apply unique_NoDup.
  - apply unique_NoDup.
  - intros f [H | H]; eapply functionNames_identifiers; exact H.
Qed.

(** The count and the filter agree in one direction: a file with at least
    one whole-word occurrence of the table is always taken as referring to
    it. (A file can refer to the table with a count of zero, through the
    member-access pattern.) *)
Theorem references_imply_reference (content tableUpper : string) :
  0 < references (analyzeTableUsage content tableUpper) ->
  hasTableReference (Str.toUpperCase content) tableUpper = true.
Proof.
  unfold analyzeTableUsage. cbn [references]. intros H.
  apply (hasTableReference_by (wholeWord tableUpper)); [left; reflexivity|].
  unfold Re.test.
  destruct (allMatches_search (wholeWord tableUpper) (Str.toUpperCase content) None)
    as [r ->]; [|reflexivity].
  unfold Re.matchAll in H. intros E. rewrite E in H. simpl in H. lia.
Qed.

Lemma references_imply_reference_witness :
  0 < references (analyzeTableUsage Sample.crudSource3 "PD3")
  /\ hasTableReference (Str.toUpperCase Sample.crudSource3) "PD3" = true.
Proof.
  assert (H : 0 < references (analyzeTableUsage Sample.crudSource3 "PD3")).
  { vm_compute. lia. }
  split; [exact H|].
  exact (references_imply_reference Sample.crudSource3 "PD3" H).
Defined.

(** The member-access pattern alone: the text refers to the table and its
    occurrence count is zero. *)
Example reference_without_count :
  hasTableReference "APD3->PD3_COD" "PD3" = true
  /\ references (analyzeTableUsage "APD3->PD3_COD" "PD3") = 0.
Proof. vm_compute. auto. Qed.

(** ** Structure analysis of one routine *)

Lemma search_sound (items : list Re.Item) (s : string) :
  forall (prev : option ascii) (r : list string * string),
    Re.search items prev s = Some r ->
    exists prev' s', Re.exec items prev' s' = Some r.
Proof.
  induction s as [|c s IH]; intros prev r H.
  - cbn [Re.search] in H.
    destruct (Re.exec items prev EmptyString) as [r'|] eqn:E; [|discriminate].
    injection H as <-. eauto.
  - rewrite search_cons in H.
    destruct (Re.exec items prev (String c s)) as [r'|] eqn:E.
    + injection H as <-. eauto.
    + eapply IH. exact H.
Qed.

Lemma matchGroup_accepts (items : list Re.Item) (group : nat) (item : Re.Item)
    (line t : string) :
  items !! group = Some item ->
  matchGroup items group line = Some t ->
  accepts item t.
Proof.
  unfold matchGroup. intros Hitem H.
  destruct (Re.search items None line) as [[texts remaining]|] eqn:E; [|discriminate].
  injection H as <-.
  apply search_sound in E as (prev' & s' & E). apply exec_sound in E as [Ha _].
  destruct (Forall2_lookup_l _ _ _ _ _ Ha Hitem) as (y & Hy & Hacc).
  rewrite nth_lookup, Hy. exact Hacc.
Qed.

Lemma pushIf_Forall (P : string -> Prop) (found : option string) (l : list string) :
  Forall P l -> (forall x, found = Some x -> P x) -> Forall P (pushIf found l).
Proof.
  intros Hl Hf. destruct found as [x|]; [|exact Hl].
  apply Forall_app. split; [exact Hl|]. constructor; [auto | constructor].
Qed.

Lemma plus_accepts_nonempty (p : ascii -> bool) (t : string) :
  accepts (Re.plus p) t -> t <> EmptyString /\ allChars p t = true.
Proof.
  intros (Hall & Hmin & _). split; [|exact Hall]. intros ->. simpl in Hmin. lia.
Qed.

Lemma analyzeLine_well (acc : Collected) (rawLine : string) :
  collectedWell acc -> collectedWell (analyzeLine acc rawLine).
Proof.
  intros (Hi & Ht & Hu & Hs). unfold analyzeLine.
  set (line := Str.toUpperCase (Str.trim rawLine)).
  split; [|split; [|split]]; cbn [col_includes col_tables col_userFunctions
                                   col_staticFunctions].
  - apply pushIf_Forall; [exact Hi|]. intros x Hx.
    destruct (Str.startsWith line "#INCLUDE"); [|discriminate].
    apply plus_accepts_nonempty.
    eapply (matchGroup_accepts includePattern 10); [reflexivity | exact Hx].
  - apply pushIf_Forall; [exact Ht|]. intros x Hx.
    destruct (matchGroup selectAreaPattern 16 line) as [t|] eqn:E1.
    + destruct (Nat.leb_spec (String.length t) 3) as [Hle | _]; [|discriminate].
      injection Hx as <-.
      pose proof (matchGroup_accepts selectAreaPattern 16 _ line t eq_refl E1)
        as (_ & Hmin & _).
      simpl in Hmin. lia.
    + destruct (matchGroup quotedAliasPattern 2 line) as [t|] eqn:E2; [|discriminate].
      destruct (Nat.leb_spec (String.length t) 3) as [Hle | _]; [|discriminate].
      injection Hx as <-.
      pose proof (matchGroup_accepts quotedAliasPattern 2 _ line t eq_refl E2)
        as (_ & Hmin & _).
      simpl in Hmin. lia.
  - apply pushIf_Forall; [exact Hu|]. intros x Hx.
    destruct (Str.includes line "USER FUNCTION"); [|discriminate].
    apply plus_accepts_nonempty.
    eapply (matchGroup_accepts (functionPattern "USER") 14); [reflexivity | exact Hx].
  - apply pushIf_Forall; [exact Hs|]. intros x Hx.
    destruct (Str.includes line "STATIC FUNCTION"); [|discriminate].
    apply plus_accepts_nonempty.
    eapply (matchGroup_accepts (functionPattern "STATIC") 16); [reflexivity | exact Hx].
Qed.

Lemma analyzeLines_well (lines : list string) (acc : Collected) :
  collectedWell acc -> collectedWell (fold_left analyzeLine lines acc).
Proof.
  revert acc. induction lines as [|l lines IH]; intros acc H; [exact H|].
  simpl. apply IH, analyzeLine_well, H.
Qed.

Lemma splitLines_length (s : string) :
  List.length (Str.splitLines s) = S (countNewlines s).
Proof.
  induction s as [|c s IH]; [reflexivity|].
  cbn [Str.splitLines countNewlines].
  destruct (Ascii.eqb c "010").
  - cbn [List.length]. rewrite IH. reflexivity.
  - destruct (Str.splitLines s) as [|l ls]; [discriminate IH|].
    cbn [List.length] in *. exact IH.
Qed.

Lemma unique_Forall (P : string -> Prop) (l : list string) :
  Forall P l -> Forall P (Str.unique l).
Proof.
  rewrite !Forall_forall. intros H x Hx. apply H, unique_elem, Hx.
Qed.

(** The structure analysis fails exactly when the file cannot be read.
    When it answers, the line count is one more than the number of line
    feeds (an empty file has one line); the list [functions] is empty; the
    four other lists have no duplicates; every table alias has one to
    three characters; every function name is a non-empty identifier; and
    every include is a non-empty text without a double quote. *)
Theorem executeAnalyzeRoutine_result (fs : FileSystem) (filePath : string) :
  match executeAnalyzeRoutine fs filePath with
  | None => readFile fs Utf8 filePath = None
  | Some a =>
      exists content,
        readFile fs Utf8 filePath = Some content
        /\ Analysis.totalLines a = S (countNewlines content)
        /\ Analysis.functions a = []
        /\ NoDup (Analysis.includes a) /\ NoDup (Analysis.tables a)
        /\ NoDup (Analysis.userFunctions a) /\ NoDup (Analysis.staticFunctions a)
        /\ Forall (fun t => 1 <= String.length t <= 3) (Analysis.tables a)
        /\ Forall (fun f => f <> EmptyString /\ allChars Str.isWord f = true)
                  (Analysis.userFunctions a ++ Analysis.staticFunctions a)
        /\ Forall (fun i => i <> EmptyString /\ allChars notDoubleQuote i = true)
                  (Analysis.includes a)
  end.
Proof.
  unfold executeAnalyzeRoutine.
  destruct (readFile fs Utf8 filePath) as [content|]; [|reflexivity].
  exists content. split; [reflexivity|].
  cbn [Analysis.totalLines Analysis.functions Analysis.includes Analysis.tables
       Analysis.userFunctions Analysis.staticFunctions].
  assert (Hw : collectedWell
                 (fold_left analyzeLine (Str.splitLines content)
                    {| col_includes := []; col_tables := [];
                       col_userFunctions := []; col_staticFunctions := [] |})).
  { apply analyzeLines_well. repeat split; constructor. }
  destruct Hw as (Hi & Ht & Hu & Hs).
  split; [apply splitLines_length|]. split; [reflexivity|].
  repeat (split; [apply unique_NoDup|]).
  split; [apply unique_Forall, Ht|].
  split; [apply Forall_app; split; apply unique_Forall; assumption|].
  apply unique_Forall, Hi.
Qed.

(** ** The code review tool: which rules are looked up in the normative *)

Lemma hasKey_false (id : string) (unique : list (string * string)) :
  hasKey id unique = false -> id ∉ map fst unique.
Proof.
  unfold hasKey. intros H Hin.
  apply list_elem_of_In, in_map_iff in Hin as (entry & E & Hin).
  assert (Ht : existsb (fun entry => String.eqb (fst entry) id) unique = true).
  { apply existsb_exists. exists entry. split; [exact Hin|].
    apply String.eqb_eq. exact E. }
  rewrite Ht in H. discriminate.
Qed.

Lemma collectRules_well (all : list Violation) (violations : list Violation)
    (unique : list (string * string)) :
  (forall v, v ∈ violations -> v ∈ all) ->
  rulesWell all unique ->
  rulesWell all (collectRules unique violations).
Proof.
  revert unique. induction violations as [|v rest IH]; intros unique Hsub Hw;
    [exact Hw|].
  assert (Hrest : forall w, w ∈ rest -> w ∈ all).
  { intros w Hin. apply Hsub. right. exact Hin. }
  cbn [collectRules].
  destruct (String.eqb_spec (Str.trim (v_id v)) EmptyString) as [E | Hid];
    cbn [negb andb]; [apply IH; assumption|].
  destruct (hasKey (Str.trim (v_id v)) unique) eqn:Hkey;
    cbn [negb]; [apply IH; assumption|].
  apply IH; [assumption|].
  destruct Hw as [Hnd Hall]. split.
  - rewrite map_app. apply NoDup_app. split; [exact Hnd|]. split.
    + intros x Hx Hx'. cbn [map fst] in Hx'.
      apply list_elem_of_singleton in Hx'. subst x.
      exact (hasKey_false _ _ Hkey Hx).
    + apply NoDup_singleton.
  - apply Forall_app. split; [exact Hall|]. constructor; [|constructor].
    cbn [fst snd]. split; [exact Hid|]. split.
    + destruct (String.eqb_spec (Str.trim (v_descricao v)) EmptyString);
        assumption.
    + exists v. split; [apply Hsub; left | reflexivity].
Qed.

(** The normative is asked about at most eight rules, each once. The hints
    carry pairwise different, non-empty rule ids and non-empty questions;
    each is the entry of one of the violations (its trimmed id, and its
    trimmed description or, failing that, its id) with what the lookup of
    that question gave or threw, so a failing lookup does not stop the
    others. Without violations, or with the option off, there is no
    hint. *)
Theorem normativaHints_bounded {R : Type} (ask : string -> Thrown R)
    (incluirNormativa : bool) (violations : option (list Violation)) :
  let hints := normativaHints ask incluirNormativa violations in
  List.length hints <= 8
  /\ NoDup (map hint_id hints)
  /\ Forall (fun h =>
               hint_id h <> EmptyString
               /\ hint_query h <> EmptyString
               /\ hint_answer h = ask (hint_query h)
               /\ exists vs v,
                    violations = Some vs /\ v ∈ vs
                    /\ (hint_id h, hint_query h) = ruleEntry v) hints
  /\ (incluirNormativa = false \/ violations = None \/ violations = Some [] ->
      hints = []).
Proof.
  unfold normativaHints.
  destruct violations as [[|v vs]|]; cbn zeta.
  1, 3: (split; [simpl; lia|]; split; [constructor|]; split; [constructor | reflexivity]).
  destruct incluirNormativa; cbn zeta.
  2: { split; [simpl; lia|]. split; [constructor|]. split; [constructor | reflexivity]. }
  pose proof (collectRules_well (v :: vs) (v :: vs) [] (fun w H => H)
                (conj (NoDup_nil_2 : NoDup (map fst [])) (Forall_nil_2 _)))
    as [Hnd Hall].
  set (rules := collectRules [] (v :: vs)) in *.
  split; [rewrite length_map, length_take; lia|]. split; [|split].
  - rewrite map_map. cbn [hint_id].
    change (map (fun x : string * string => fst x) (take 8 rules))
      with (fst <$> take 8 rules).
    rewrite fmap_take. eapply sublist_NoDup; [exact Hnd | apply sublist_take].
  - apply Forall_fmap. eapply Forall_impl; [apply Forall_take; exact Hall|].
    intros [id query] (Hid & Hq & w & Hw & E). cbn [hint_id hint_query hint_answer
                                                   fst snd] in *.
    split; [exact Hid|]. split; [exact Hq|]. split; [reflexivity|].
    exists (v :: vs), w. auto.
  - intros [F | [F | F]]; discriminate F.
Qed.

(** The first violation of a rule decides the question asked for it:
    later violations with the same trimmed id add nothing. *)
Theorem collectRules_first_wins (before after : list Violation) (v : Violation) :
  Str.trim (v_id v) <> EmptyString ->
  (forall w, w ∈ before -> Str.trim (v_id w) <> Str.trim (v_id v)) ->
  ruleEntry v ∈ collectRules [] (before ++ v :: after)
  /\ forall query,
       (Str.trim (v_id v), query) ∈ collectRules [] (before ++ v :: after) ->
       query = snd (ruleEntry v).
Proof.
  intros Hid Hbefore.
  assert (Hext : forall vs unique, exists added,
               collectRules unique vs = unique ++ added).
  { induction vs as [|w vs IH]; intros unique; cbn [collectRules].
    - exists []. rewrite app_nil_r. reflexivity.
    - destruct (_ && _).
      + destruct (IH (unique ++ [ruleEntry w])) as [added E].
        exists (ruleEntry w :: added). unfold ruleEntry in *. cbn zeta in *.
        rewrite E, <- app_assoc. reflexivity.
      + apply IH. }
  assert (Hin : forall unique,
             Str.trim (v_id v) ∉ map fst unique ->
             ruleEntry v ∈ collectRules unique (before ++ v :: after)).
  { induction before as [|w before IH]; intros unique Hnew.
    - cbn [app collectRules].
      destruct (String.eqb_spec (Str.trim (v_id v)) EmptyString) as [E | _];
        [contradiction|].
      assert (Hk : hasKey (Str.trim (v_id v)) unique = false).
      { unfold hasKey. destruct (existsb _ unique) eqn:Ex; [|reflexivity].
        apply existsb_exists in Ex as (entry & Hentry & E).
        apply String.eqb_eq in E. exfalso. apply Hnew.
        apply list_elem_of_In, in_map_iff. exists entry. auto. }
      rewrite Hk. cbn [negb andb].
      destruct (Hext after (unique ++ [(Str.trim (v_id v),
                                         if String.eqb (Str.trim (v_descricao v))
                                                       EmptyString
                                         then Str.trim (v_id v)
                                         else Str.trim (v_descricao v))]))
        as [added ->].
      rewrite !elem_of_app. left. right. apply list_elem_of_singleton. reflexivity.
    - cbn [app collectRules].
      assert (Hw : Str.trim (v_id w) <> Str.trim (v_id v)).
      { apply Hbefore. left. }
      assert (Hb' : forall x, x ∈ before -> Str.trim (v_id x) <> Str.trim (v_id v)).
      { intros x Hx. apply Hbefore. right. exact Hx. }
      destruct (_ && _); apply (IH Hb'); [|exact Hnew].
      rewrite map_app, elem_of_app. intros [H | H]; [contradiction|].
      cbn [map fst] in H. apply list_elem_of_singleton in H. congruence. }
  specialize (Hin [] ltac:(cbn [map]; apply not_elem_of_nil)).
  split; [exact Hin|].
  intros query Hq.
  pose proof (collectRules_well (before ++ v :: after) (before ++ v :: after) []
                (fun w H => H)
                (conj (NoDup_nil_2 : NoDup (map fst [])) (Forall_nil_2 _)))
    as [Hnd _].
  set (rules := collectRules [] (before ++ v :: after)) in *.
  destruct (ruleEntry v) as [id q] eqn:Ev.
  assert (Eid : id = Str.trim (v_id v)).
  { unfold ruleEntry in Ev. cbn zeta in Ev. injection Ev as <- _. reflexivity. }
  subst id. cbn [snd].
  apply list_elem_of_lookup in Hin as [i Hi]. apply list_elem_of_lookup in Hq as [j Hj].
  assert (i = j).
  { eapply NoDup_lookup; [exact Hnd | |].
    - rewrite list_lookup_fmap, Hi. reflexivity.
    - change (map fst rules) with (fst <$> rules).
      rewrite list_lookup_fmap, Hj. reflexivity. }
  subst j. rewrite Hi in Hj. injection Hj as <-. reflexivity.
Qed.

Lemma collectRules_first_wins_witness :
  ruleEntry {| v_id := " W001 "; v_descricao := "Uso de RecLock" |}
    ∈ collectRules []
        ([ {| v_id := "E010"; v_descricao := EmptyString |} ]
           ++ {| v_id := " W001 "; v_descricao := "Uso de RecLock" |}
           :: [ {| v_id := "W001"; v_descricao := "Outra" |} ])
  /\ forall query,
       (Str.trim " W001 ", query)
         ∈ collectRules []
             ([ {| v_id := "E010"; v_descricao := EmptyString |} ]
                ++ {| v_id := " W001 "; v_descricao := "Uso de RecLock" |}
                :: [ {| v_id := "W001"; v_descricao := "Outra" |} ]) ->
       query = snd (ruleEntry {| v_id := " W001 "; v_descricao := "Uso de RecLock" |}).
Proof.
  apply (collectRules_first_wins
           [ {| v_id := "E010"; v_descricao := EmptyString |} ]
           [ {| v_id := "W001"; v_descricao := "Outra" |} ]
           {| v_id := " W001 "; v_descricao := "Uso de RecLock" |}).
  - vm_compute. discriminate.
  - intros w Hw. apply list_elem_of_singleton in Hw. subst w.
    vm_compute. discriminate.
Defined.

(** ** How many files are read *)

Lemma readCount_log_read (enc : Encoding) (path : string) (st : State) :
  readCount (logEvent (EvReadFile enc path) st) = S (readCount st).
Proof.
  unfold readCount, logEvent. cbn [trace].
  rewrite List.filter_app, length_app. simpl. lia.
Qed.

Lemma readCount_cacheSet (k : string) (v : bool) (st : State) :
  readCount (cacheSet k v st) = readCount st.
Proof. reflexivity. Qed.

Lemma analyzeFileContent_reads (fs : FileSystem) (st : State) (p : string) :
  readCount (snd (analyzeFileContent fs st p)) = S (readCount st).
Proof.
  unfold analyzeFileContent.
  destruct (readFile fs Utf8 p); apply readCount_log_read.
Qed.

Lemma isStandardRoutine_reads_bound (fs : FileSystem) (st : State)
    (routineName : string) (path : option string) :
  readCount st <= readCount (snd (isStandardRoutine fs st routineName path))
  <= S (readCount st).
Proof.
  unfold isStandardRoutine.
  destruct (standardPrefixCache st !! cacheKey routineName) as [b|];
    cbn [snd]; [lia|].
  destruct (Str.startsWith (Str.toUpperCase routineName) "U_");
    [cbn [snd]; rewrite readCount_cacheSet; lia|].
  destruct (matchesKnownPrefix st (cacheKey routineName));
    [cbn [snd]; rewrite readCount_cacheSet; lia|].
  destruct (truthy path) as [p|].
  - pose proof (analyzeFileContent_reads fs st p) as Hr.
    destruct (analyzeFileContent fs st p) as [b st1]. cbn [snd] in *.
    rewrite readCount_cacheSet, Hr. lia.
  - destruct (Re.testAtStart namingPattern _); cbn [snd];
      rewrite readCount_cacheSet; lia.
Qed.

(** A classification reads at most one file, and none at all when the
    decision is in the cache, when the name carries the custom prefix, when
    the prefix tables match the stripped name, or when no file path is
    given: in those cases the content of a file, even one that is
    supplied, plays no part. *)
Theorem isStandardRoutine_reads (fs : FileSystem) (st : State)
    (routineName : string) (path : option string) :
  let st' := snd (isStandardRoutine fs st routineName path) in
  readCount st <= readCount st' <= S (readCount st)
  /\ (is_Some (standardPrefixCache st !! cacheKey routineName)
      \/ Str.startsWith (Str.toUpperCase routineName) "U_" = true
      \/ matchesKnownPrefix st (cacheKey routineName) = true
      \/ truthy path = None ->
      readCount st' = readCount st).
Proof.
  unfold isStandardRoutine.
  destruct (standardPrefixCache st !! cacheKey routineName) as [b|] eqn:Hc;
    cbn [snd]; [split; [lia | reflexivity]|].
  destruct (Str.startsWith (Str.toUpperCase routineName) "U_");
    [cbn [snd]; rewrite readCount_cacheSet; split; [lia | reflexivity]|].
  destruct (matchesKnownPrefix st (cacheKey routineName));
    [cbn [snd]; rewrite readCount_cacheSet; split; [lia | reflexivity]|].
  destruct (truthy path) as [p|].
  - pose proof (analyzeFileContent_reads fs st p) as Hr.
    destruct (analyzeFileContent fs st p) as [b st1]. cbn [snd] in *.
    rewrite readCount_cacheSet, Hr. split; [lia|].
    intros [[x Hx] | [F | [F | F]]]; discriminate.
  - destruct (Re.testAtStart namingPattern _); cbn [snd];
      rewrite readCount_cacheSet; (split; [lia | reflexivity]).
Qed.

Lemma searchLoop_reads (fs : FileSystem) (tableUpper : string)
    (includeStandard : bool) (maxResults : Z) (files : list string) (st : State)
    (rows : list TableSearchResult) :
  readCount (snd (searchLoop fs tableUpper includeStandard maxResults files st rows))
  <= readCount st + 2 * List.length files.
Proof.
  revert st rows. induction files as [|f rest IH]; intros st rows;
    cbn [searchLoop List.length]; [cbn [snd]; lia|].
  pose proof (readCount_log_read Latin1 f st) as H0.
  destruct (readFile fs Latin1 f) as [content|].
  2: { specialize (IH (logEvent (EvReadFile Latin1 f) st) rows). lia. }
  destruct (hasTableReference (Str.toUpperCase content) tableUpper); cbn [negb].
  2: { specialize (IH (logEvent (EvReadFile Latin1 f) st) rows). lia. }
  pose proof (isStandardRoutine_reads_bound fs (logEvent (EvReadFile Latin1 f) st)
                (Path.basenameWithout f (Path.extname f)) (Some f)) as [_ H1].
  destruct (isStandardRoutine fs _ _ _) as [isStandard st1]. cbn [snd] in H1.
  destruct (isStandard && negb includeStandard);
    [specialize (IH st1 rows); lia|].
  destruct (_ >=? maxResults)%Z; [cbn [snd]; lia|].
  match goal with
  | |- context [searchLoop _ _ _ _ rest st1 ?rows'] => specialize (IH st1 rows')
  end.
  lia.
Qed.

(** A table search reads every file at most twice, once to look for the
    table and once more if its routine has to be classified by content:
    the number of reads is at most twice the number of files of the
    depth-5 walk. *)
Theorem executeSearchByTable_reads (fs : FileSystem) (st : State)
    (tableName repoPath : string) (includeStandard : bool) (maxResults : Z) :
  readCount (snd (executeSearchByTable fs st tableName repoPath includeStandard
                                       maxResults))
  <= readCount st
     + 2 * List.length (getAllFilesRecursive fs repoPath sourceExtensions 5 0).
Proof.
  unfold executeSearchByTable.
  pose proof (searchLoop_reads fs (Str.toUpperCase tableName) includeStandard
                maxResults (getAllFilesRecursive fs repoPath sourceExtensions 5 0)
                st []) as H.
  destruct (searchLoop _ _ _ _ _ _ _) as [found st']. exact H.
Qed.

(** ** The code review tool: reading the output of the script *)

Lemma dropChars_app (a b : string) : Str.dropChars (String.length a) (a +:+ b) = b.
Proof. induction a as [|c a IH]; [reflexivity|]. rewrite app_cons. exact IH. Qed.

Lemma dropChars_add (n m : nat) (s : string) :
  Str.dropChars (n + m) s = Str.dropChars m (Str.dropChars n s).
Proof.
  revert s. induction n as [|n IH]; intros s; [reflexivity|].
  destruct s as [|c s]; simpl; [destruct m; reflexivity | apply IH].
Qed.

Lemma trimStart_spaces (gap x : string) :
  allChars Str.isSpace gap = true -> Str.trimStart (gap +:+ x) = Str.trimStart x.
Proof.
  induction gap as [|c gap IH]; intros H; [reflexivity|].
  cbn [allChars] in H. apply andb_true_iff in H as [Hc Hgap].
  rewrite app_cons. cbn [Str.trimStart]. rewrite Hc. apply IH. exact Hgap.
Qed.

Lemma trimEnd_app (a b : string) :
  Str.trimEnd (a +:+ b)
  = if String.eqb (Str.trimEnd b) EmptyString then Str.trimEnd a
    else a +:+ Str.trimEnd b.
Proof.
  induction a as [|c a IH].
  - rewrite !app_empty_l. destruct (String.eqb_spec (Str.trimEnd b) EmptyString) as [E | _];
      [rewrite E|]; reflexivity.
  - rewrite app_cons. cbn [Str.trimEnd]. rewrite IH.
    destruct (String.eqb_spec (Str.trimEnd b) EmptyString) as [E | Hne];
      [reflexivity|].
    rewrite app_cons.
    destruct (a +:+ Str.trimEnd b) as [|x rest] eqn:Eab; [|reflexivity].
    exfalso. apply Hne. destruct a; [exact Eab | discriminate Eab].
Qed.

Lemma splitCRLF_line (line rest : string) :
  allChars notLineBreak line = true ->
  splitCRLF (line +:+ String "010" rest) = line :: splitCRLF rest
  /\ splitCRLF line = [line].
Proof.
  induction line as [|c line IH]; intros H; [split; reflexivity|].
  cbn [allChars] in H. apply andb_true_iff in H as [Hc Hline].
  unfold notLineBreak in Hc. apply andb_true_iff in Hc as [Hlf Hcr].
  apply negb_true_iff in Hlf, Hcr.
  destruct (IH Hline) as [IH1 IH2]. rewrite app_cons. split.
  - cbn [splitCRLF]. rewrite Hlf, Hcr. cbn [andb].
    destruct (line +:+ String "010" rest) as [|d r'] eqn:E.
    + destruct line; discriminate E.
    + rewrite IH1. reflexivity.
  - cbn [splitCRLF]. rewrite Hlf, Hcr. cbn [andb].
    destruct line as [|d r']; [reflexivity|]. rewrite IH2. reflexivity.
Qed.

(** The line that follows the marker, as both extractors see it. *)
Lemma firstLine_after_marker (pre marker gap line tail : string) (o : ascii)
    (body : string) :
  line = String o body ->
  Str.isSpace o = false ->
  indexOf (pre +:+ marker +:+ gap +:+ line +:+ tail) marker
    = Some (String.length pre) ->
  allChars Str.isSpace gap = true ->
  allChars notLineBreak line = true ->
  Str.trim line = line ->
  (tail = EmptyString \/ exists more, tail = String "010" more) ->
  exists others,
    indexOf (pre +:+ marker +:+ gap +:+ line +:+ tail) marker
      = Some (String.length pre)
    /\ splitCRLF
         (Str.trim (Str.dropChars (String.length pre + String.length marker)
                                  (pre +:+ marker +:+ gap +:+ line +:+ tail)))
       = line :: others.
Proof.
  intros Hline Ho Hidx Hgap Hbreaks Htrim Htail.
  assert (Hend : Str.trimEnd line = line).
  { unfold Str.trim in Htrim. rewrite Hline in Htrim at 1.
    cbn [Str.trimStart] in Htrim. rewrite Ho, <- Hline in Htrim. exact Htrim. }
  assert (Hstart : Str.trimStart (line +:+ tail) = line +:+ tail).
  { rewrite Hline, app_cons. cbn [Str.trimStart]. rewrite Ho. reflexivity. }
  rewrite dropChars_add, dropChars_app, dropChars_app.
  unfold Str.trim. rewrite trimStart_spaces by exact Hgap.
  rewrite Hstart, trimEnd_app, Hend.
  destruct (String.eqb_spec (Str.trimEnd tail) EmptyString) as [E | Hne].
  - exists []. split; [exact Hidx|].
    exact (proj2 (splitCRLF_line line EmptyString Hbreaks)).
  - destruct Htail as [-> | [more ->]]; [exfalso; apply Hne; reflexivity|].
    cbn [Str.trimEnd] in *.
    destruct (Str.trimEnd more) as [|x kept] eqn:Ek.
    + exfalso. apply Hne. reflexivity.
    + eexists. split; [exact Hidx|].
      exact (proj1 (splitCRLF_line line (String x kept) Hbreaks)).
Qed.

(** The output protocol of the review script is read back. When the
    marker first occurs right after [pre], is followed by white space and
    then by a one-line, trimmed text that starts with a brace (for
    [extractJsonBlock], a brace or a bracket), and that text ends the
    output or is followed by a line feed, both extractors hand exactly
    that text to [JSON.parse] and return what it returns. Without the
    marker they return [null]. *)
Theorem extractJson_reads_line {J : Type} (parse : string -> option J)
    (pre marker gap body tail : string) (o : ascii) :
  let line := String o body in
  let stdout := pre +:+ marker +:+ gap +:+ line +:+ tail in
  indexOf stdout marker = Some (String.length pre) ->
  allChars Str.isSpace gap = true ->
  allChars notLineBreak line = true ->
  Str.trim line = line ->
  (tail = EmptyString \/ exists more, tail = String "010" more) ->
  (o = "{"%char \/ o = "["%char -> extractJsonBlock parse stdout marker = parse line)
  /\ (o = "{"%char -> marker = "[JSON_RESULT]" ->
      extractJsonResult parse stdout = parse line)
  /\ (forall out, indexOf out marker = None ->
                  extractJsonBlock parse out marker = None).
Proof.
  intros line stdout Hidx Hgap Hbreaks Htrim Htail. split; [|split].
  - intros Ho.
    assert (Hsp : Str.isSpace o = false) by (destruct Ho as [-> | ->]; reflexivity).
    destruct (firstLine_after_marker pre marker gap line tail o body eq_refl Hsp
                Hidx Hgap Hbreaks Htrim Htail) as (others & Hi & Hs).
    unfold extractJsonBlock. fold stdout in Hi, Hs. rewrite Hi. cbn zeta.
    rewrite Hs. cbn [List.find]. rewrite Htrim.
    assert (Hopen : Str.startsWith line "[" || Str.startsWith line "{" = true).
    { unfold line. destruct Ho as [-> | ->]; destruct body; reflexivity. }
    rewrite Hopen. reflexivity.
  - intros -> ->.
    destruct (firstLine_after_marker pre "[JSON_RESULT]" gap line tail "{" body
                eq_refl eq_refl Hidx Hgap Hbreaks Htrim Htail) as (others & Hi & Hs).
    unfold extractJsonResult. fold stdout in Hi, Hs. cbn zeta. rewrite Hi.
    rewrite Hs. cbn [List.find]. rewrite Htrim.
    assert (Hopen : Str.startsWith line "{" = true)
      by (unfold line; destruct body; reflexivity).
    rewrite Hopen. reflexivity.
  - intros out Hnone. unfold extractJsonBlock. rewrite Hnone. reflexivity.
Qed.

Lemma extractJson_reads_line_witness :
  extractJsonResult (fun text => Some (String.length text))
    ("Analisando 3 arquivos" +:+ newline +:+ "[JSON_RESULT]" +:+ newline
       +:+ String "{" "'ok': true}" +:+ String "010" "fim")
  = Some 12.
Proof.
  apply (proj1 (proj2 (extractJson_reads_line
                         (fun text => Some (String.length text))
                         ("Analisando 3 arquivos" +:+ newline) "[JSON_RESULT]"
                         newline "'ok': true}" (String "010" "fim") "{"
                         ltac:(vm_compute; reflexivity)
                         ltac:(vm_compute; reflexivity)
                         ltac:(vm_compute; reflexivity)
                         ltac:(vm_compute; reflexivity)
                         ltac:(right; eexists; reflexivity)))); reflexivity.
Defined.

(** ** TableUsageAnalyzer: references to any table *)

Lemma exec_text_some (t : string) (rest : list Re.Item) (prev : option ascii)
    (s : string) :
  is_Some (Re.exec rest (charBefore prev t) s) ->
  is_Some (Re.exec (Re.text t ++ rest) prev (t +:+ s)).
Proof.
  revert prev. induction t as [|c t IH]; intros prev H; [exact H|].
  rewrite app_cons. cbn [Re.text app].
  apply exec_one_some; [apply Ascii.eqb_refl|].
  apply IH. exact H.
Qed.

Lemma charBefore_word (t : string) (prev : option ascii) :
  t <> EmptyString -> allChars Str.isWord t = true ->
  Re.isWordAt (charBefore prev t) = true.
Proof.
  revert prev. induction t as [|c t IH]; intros prev Hne Hall; [contradiction|].
  cbn [allChars] in Hall. apply andb_true_iff in Hall as [Hc Ht].
  cbn [charBefore]. destruct t as [|d t]; [exact Hc|].
  apply IH; [discriminate | exact Ht].
Qed.

Lemma exec_nil_some (prev : option ascii) (s : string) :
  is_Some (Re.exec [] prev s).
Proof. eexists; reflexivity. Qed.

(** For every table name made of letters, digits and underscores,
    [hasTableReference] accepts any text in which the name stands as a
    word of its own, any text that holds the name between quotes of either
    kind in parentheses (so also the call of DBSELECTAREA on the quoted
    name), and any text that holds the name followed by the member-access
    arrow, wherever in the text that is. *)
Theorem hasTableReference_any_table (tableUpper pre post : string) :
  tableUpper <> EmptyString ->
  allChars Str.isWord tableUpper = true ->
  (Re.isWordAt (charBefore None pre) = false ->
   Re.isWordAt (Re.headChar post) = false ->
   hasTableReference (pre +:+ tableUpper +:+ post) tableUpper = true)
  /\ (forall q1 q2 : ascii,
         Re.quoteChar q1 = true -> Re.quoteChar q2 = true ->
         hasTableReference
           (pre +:+ String "(" (String q1 (tableUpper +:+ String q2 (String ")" post))))
           tableUpper = true)
  /\ hasTableReference (pre +:+ tableUpper +:+ "->" +:+ post) tableUpper = true.
Proof.
  intros Hne Hword. split; [|split].
  - intros Hpre Hpost.
    apply (hasTableReference_by (wholeWord tableUpper)); [left; reflexivity|].
    apply test_after. unfold wholeWord. cbn [app].
    apply exec_boundary_some.
    + unfold Re.atBoundary. rewrite Hpre.
      destruct tableUpper as [|c t]; [contradiction|].
      rewrite app_cons. cbn [allChars] in Hword.
      apply andb_true_iff in Hword as [Hc _]. cbn [Re.headChar Re.isWordAt].
      rewrite Hc. reflexivity.
    + apply exec_text_some. apply exec_boundary_some; [|apply exec_nil_some].
      unfold Re.atBoundary.
      rewrite (charBefore_word tableUpper _ Hne Hword), Hpost. reflexivity.
  - intros q1 q2 H1 H2.
    apply (hasTableReference_by
             ([Re.one (Re.lit "("); Re.one Re.quoteChar]
                ++ Re.text tableUpper ++ [Re.one Re.quoteChar; Re.one (Re.lit ")")]));
      [right; right; left; reflexivity|].
    apply test_after. cbn [app].
    apply exec_one_some; [reflexivity|].
    apply exec_one_some; [exact H1|].
    apply exec_text_some.
    apply exec_one_some; [exact H2|].
    apply exec_one_some; [reflexivity|].
    apply exec_nil_some.
  - apply (hasTableReference_by (Re.text tableUpper ++ Re.text "->"));
      [right; right; right; left; reflexivity|].
    apply test_after, exec_text_some.
    cbv [String.append Re.text app].
    apply exec_one_some; [reflexivity|].
    apply exec_one_some; [reflexivity|].
    apply exec_nil_some.
Qed.

Lemma hasTableReference_any_table_witness :
  hasTableReference ("DbSetOrder(1) ; " +:+ "SA1" +:+ "->" +:+ "A1_COD") "SA1" = true.
Proof.
  apply (proj2 (proj2 (hasTableReference_any_table "SA1" "DbSetOrder(1) ; " "A1_COD"
                         ltac:(discriminate) ltac:(reflexivity)))).
Defined.
